(** * Prismatic: staged calculation threads and the structured output store

    A shallow embedding of the parts of [Qt/prism_qthreads.cpp] and
    [src/fileIO.cpp] that carry the cache, accumulation, cropping,
    incremental-write and stitching logic, followed by the properties
    established about them.

    Conventions.
    - [PRISMATIC_FLOAT_PRECISION] is a compile-time choice (float or
      double).  It is a type class here ([PFP]); no algebraic law is
      assumed of it, and a theorem that needs one says so in a hypothesis.
    - [size_t] and [hsize_t] are 64-bit unsigned; they are [N] with the
      wrap-around written out ([wrap64]) wherever the source computes
      with them.
    - A buffer obtained from [malloc] holds indeterminate cells: a cell is
      [option T] with [None] for a value that was never assigned.
    - Undefined behaviour of the source (an index past the end of a
      vector or buffer) is the failure [None] of the function. *)

From Stdlib Require Import ZArith NArith QArith Lia Ascii.
From stdpp Require Import base option list gmap strings numbers pretty.

Local Open Scope N_scope.

(** ** Machine integers *)

Definition wrap64 (n : N) : N := n mod 2 ^ 64.
Definition INT_MAX : N := 2147483647.

(** ** The floating-point type *)

Class PFP (T : Type) := {
  padd : T -> T -> T;       (* operator+ *)
  pdiv : T -> T -> T;       (* operator/ *)
  pltb : T -> T -> bool;    (* operator< *)
  peqb : T -> T -> bool;    (* operator== *)
  of_size : N -> T          (* conversion of a size_t to the float type *)
}.

(** Modelled from the spec: [enum class Algorithm] (its header is not in
    this part of the tree).  The sources only ever test
    [algorithm == Algorithm::Multislice]; the remaining modes are the
    reciprocal-geometry ones. *)
Inductive Algorithm := PRISM | Multislice | HRTEM.

Definition Algorithm_eqb (a b : Algorithm) : bool :=
  match a, b with
  | PRISM, PRISM | Multislice, Multislice | HRTEM, HRTEM => true
  | _, _ => false
  end.

Section Model.
Context {T : Type} {pfp : PFP T}.

(** ** Simulation metadata

    Modelled from the spec: [Metadata] and its [operator==] (meta.h is not
    in this part of the tree).  The record keeps the fields that the two
    translated files read or write; equality is the structural,
    field-by-field comparison the cache is specified to use.  [numFP] and
    [fpNum] are only counted, compared and converted, never computed
    with, and are natural numbers here. *)
Record Metadata := mkMetadata {
  algorithm : Algorithm;
  filenameOutput : string;
  numFP : nat;
  fpNum : nat;
  randomSeed : N;
  saveDPC_CoM : bool;
  save4DOutput : bool;
  savePotentialSlices : bool;
  crop4DOutput : bool;
  crop4Damax : T
}.

Definition meta_eqb (a b : Metadata) : bool :=
  Algorithm_eqb (algorithm a) (algorithm b)
  && String.eqb (filenameOutput a) (filenameOutput b)
  && Nat.eqb (numFP a) (numFP b)
  && Nat.eqb (fpNum a) (fpNum b)
  && N.eqb (randomSeed a) (randomSeed b)
  && Bool.eqb (saveDPC_CoM a) (saveDPC_CoM b)
  && Bool.eqb (save4DOutput a) (save4DOutput b)
  && Bool.eqb (savePotentialSlices a) (savePotentialSlices b)
  && Bool.eqb (crop4DOutput a) (crop4DOutput b)
  && peqb (crop4Damax a) (crop4Damax b).

(** ** Arrays and simulation parameters

    An [Array1D]..[Array4D] is its flat data vector; [+=] and the
    range-for loops of the sources only see that.  For the probe array
    only the two extents are read. *)
Definition Array := list T.

Definition get_dimi (a : Array) : N := N.of_nat (length a).

Record Array2D_shape := mkShape { shape_dimj : N; shape_dimi : N }.

Record Parameters := mkParameters {
  meta : Metadata;
  pot : Array;
  Scompact : Array;
  output : Array;
  DPC_CoM : Array;
  xp : Array;
  yp : Array;
  qx : Array;
  qy : Array;
  psiProbeInit : Array2D_shape;
  lambda : T;
  fpFlag : nat
}.

(** * fileIO.cpp *)

(** ** setup4DOutput: extents of the 4-D datacube *)

(** The counting loop of the cropping rule:
    [for (i = 0; i < q.get_dimi(); i++) if (q.at(i) < qMax) n++; else break;]
    The counter is a [size_t]. *)
Fixpoint count_below (qMax : T) (q : Array) (n : N) : N :=
  match q with
  | [] => n
  | x :: rest => if pltb x qMax then count_below qMax rest (wrap64 (n + 1)) else n
  end.

(** The spec's wording of the cropping premise: exactly [k] contiguous
    samples strictly below [qMax], starting from index zero. *)
Definition contiguous_below (qMax : T) (q : Array) (k : nat) : bool :=
  forallb (fun x => pltb x qMax) (take k q)
  && (k <=? length q)%nat
  && match q !! k with Some x => negb (pltb x qMax) | None => true end.

Record Cube4D := mkCube4D {
  data_dims : list N;         (* hsize_t data_dims[4] *)
  chunkDims : list N;         (* hsize_t chunkDims[4] *)
  offset_qx : Z;              (* long offset_qx *)
  offset_qy : Z
}.

Definition setup4DOutput (pars : Parameters) : Cube4D :=
  let '(qxInd_max, qyInd_max, off_qx, off_qy) :=
    if crop4DOutput (meta pars) then
      let qMax := pdiv (crop4Damax (meta pars)) (lambda pars) in
      let qxInd_max := count_below qMax (qx pars) 0 in
      let qyInd_max := count_below qMax (qy pars) 0 in
      (wrap64 (qxInd_max * 2), wrap64 (qyInd_max * 2), 0%Z, 0%Z)
    else if Algorithm_eqb (algorithm (meta pars)) Multislice then
      (shape_dimi (psiProbeInit pars) / 2,
       shape_dimj (psiProbeInit pars) / 2,
       Z.of_N (shape_dimi (psiProbeInit pars) / 4),
       Z.of_N (shape_dimj (psiProbeInit pars) / 4))
    else
      (get_dimi (qx pars), get_dimi (qy pars), 0%Z, 0%Z) in
  {| data_dims := [get_dimi (xp pars); get_dimi (yp pars); qxInd_max; qyInd_max];
     chunkDims := [1; 1; qxInd_max; qyInd_max];
     offset_qx := off_qx;
     offset_qy := off_qy |}.

(** ** Counted loops

    [for (auto i = 0; i < n; i++) body]: the counter is an [int] that is
    compared with an unsigned 64-bit bound, so the loop is defined only
    for bounds up to [INT_MAX].  The body may fail. *)
Fixpoint for_loop {St : Type} (n i : nat) (body : nat -> St -> option St)
    (s : St) : option St :=
  match n with
  | O => Some s
  | S n' =>
      match body i s with
      | Some s' => for_loop n' (S i) body s'
      | None => None
      end
  end.

Definition for_range {St : Type} (lo : nat) (hi : N)
    (body : nat -> St -> option St) (s : St) : option St :=
  if hi <=? INT_MAX then for_loop (N.to_nat hi - lo) lo body s else None.

Definition for_int {St : Type} (n : N) (body : nat -> St -> option St)
    (s : St) : option St :=
  for_range 0 n body s.

(** ** writeDatacube4D: the incremental accumulating write *)

Definition cell := option T.

Definition cell_add (a b : cell) : cell :=
  match a, b with
  | Some x, Some y => Some (padd x y)
  | _, _ => None
  end.

Inductive StoreEvent :=
| SLock                              (* unique_lock on write4D_lock *)
| SSelect (count start : list N)     (* fspace.selectHyperslab *)
| SRead                              (* dataset.read *)
| SWrite (data : list cell)          (* dataset.write *)
| SFlushDataset
| SFlushGroup
| SFlushFile
| SUnlock.

(** [buffer[i] /= numFP] over the whole region. *)
Definition divide_buffer (total : N) (numFP : T) (buffer : list T)
  : option (list T) :=
  for_int total
    (fun i b => v ← b !! i; Some (<[i := pdiv v numFP]> b)) buffer.

(** [finalBuffer[i * mdims[3] + j] = buffer[j * mdims[2] + i]]. *)
Definition restride_assign (buffer : list T) (d2 d3 : N) (i j : nat)
    (finalBuffer : list cell) : option (list cell) :=
  v ← buffer !! (j * N.to_nat d2 + i)%nat;
  if decide (i * N.to_nat d3 + j < length finalBuffer)%nat
  then Some (<[(i * N.to_nat d3 + j)%nat := Some v]> finalBuffer)
  else None.

Definition restride (buffer : list T) (d2 d3 : N) (finalBuffer : list cell)
  : option (list cell) :=
  for_int d2
    (fun i => for_int d3 (fun j => restride_assign buffer d2 d3 i j))
    finalBuffer.

(** [finalBuffer[i] += readBuffer[i]] over the whole region. *)
Definition add_read (total : N) (readBuffer finalBuffer : list cell)
  : option (list cell) :=
  for_int total
    (fun i fb => x ← fb !! i; y ← readBuffer !! i;
                 Some (<[i := cell_add x y]> fb)) finalBuffer.

(** [region] is the content of the dataset at the selected hyperslab, in
    the row-major order of the memory dataspace [mspace(4, mdims)]; the
    result is the caller's buffer (divided in place), the new content of
    the region and the store operations in program order. *)
Definition writeDatacube4D (region : list cell) (buffer : list T)
    (mdims offset : list N) (numFP : T)
  : option (list T * list cell * list StoreEvent) :=
  d0 ← mdims !! 0%nat;
  d1 ← mdims !! 1%nat;
  d2 ← mdims !! 2%nat;
  d3 ← mdims !! 3%nat;
  let total := wrap64 (wrap64 (wrap64 (d0 * d1) * d2) * d3) in
  buffer' ← divide_buffer total numFP buffer;
  finalBuffer ← restride buffer' d2 d3 (replicate (N.to_nat total) None);
  readBuffer ← (if decide (length region = N.to_nat total)
                then Some region else None);
  written ← add_read total readBuffer finalBuffer;
  Some (buffer', written,
        [SLock; SSelect mdims offset; SRead; SWrite written;
         SFlushDataset; SFlushGroup; SFlushFile; SUnlock]).

(** The lock discipline read off a sequence of store operations: every
    read, write and flush happens while the lock is held, the lock is not
    taken twice, and it is released at the end. *)
Fixpoint lock_discipline (held : bool) (evs : list StoreEvent) : bool :=
  match evs with
  | [] => negb held
  | SLock :: rest => negb held && lock_discipline true rest
  | SUnlock :: rest => held && lock_discipline false rest
  | _ :: rest => held && lock_discipline held rest
  end.

(** ** writeVirtualDataSet: stitching per-slice datasets

    The container is a finite map from object paths to nodes.  A dataset
    handle ([H5::DataSet]) is the path of the object it was opened on. *)
Record VMapping := mkVMapping {
  vm_start : list N;        (* hyperslab start in the virtual dataspace *)
  vm_count : list N;        (* hyperslab count in the virtual dataspace *)
  vm_src_file : string;     (* datasets[i].getFileName() *)
  vm_src_path : string;     (* datasets[i].getObjName() *)
  vm_src_dims : list N      (* datasets[i].getSpace(): the whole source *)
}.

Inductive H5Node :=
| H5Data (dims : list N) (data : list cell)
| H5Virtual (dims : list N) (maps : list VMapping).

Record H5File := mkH5File {
  file_name : string;
  objects : gmap string H5Node
}.

Definition getSpace (file : H5File) (handle : string) : option (list N) :=
  match objects file !! handle with
  | Some (H5Data dims _) => Some dims
  | Some (H5Virtual dims _) => Some dims
  | None => None
  end.

(** [max_dims[j] = (max_dims[j] < indices[i][j]) ? indices[i][j] : max_dims[j]] *)
Definition update_max (indices : list (list N)) (i j : nat)
    (max_dims : list N) : option (list N) :=
  t ← indices !! i;
  x ← t !! j;
  m ← max_dims !! j;
  Some (<[j := if m <? x then x else m]> max_dims).

Definition max_indices (indices : list (list N)) (new_rank : N)
  : option (list N) :=
  for_int (N.of_nat (length indices))
    (fun i => for_int new_rank (fun j => update_max indices i j))
    (replicate (N.to_nat new_rank) 0).

(** The number of elements of a selection: of a whole dataspace of
    extents [dims], or of a hyperslab of count [dims] (stride and block
    are left at 1). *)
Definition npoints (dims : list N) : N := foldr N.mul 1 dims.

(** One turn of the mapping loop: the new-axis entries of [offset] are
    overwritten with the source's index tuple, the one-element hyperslab
    [mdims_ind] is selected there and mapped to the whole source.
    [plist.setVirtual] refuses a mapping whose virtual and source
    selections differ in their number of elements. *)
Definition map_source (file : H5File) (datasets : list string)
    (indices : list (list N)) (rank : nat) (new_rank : N)
    (mdims_ind : list N) (i : nat) (st : list N * list VMapping)
  : option (list N * list VMapping) :=
  ds ← datasets !! i;
  src_mspace ← getSpace file ds;
  t ← indices !! i;
  offset ← for_range rank (N.of_nat rank + new_rank)
              (fun j off => x ← t !! (j - rank)%nat;
                            if decide (j < length off)%nat
                            then Some (<[j := x]> off) else None)
              st.1;
  if decide (npoints mdims_ind = npoints src_mspace)
  then Some (offset,
             st.2 ++ [mkVMapping offset mdims_ind (file_name file) ds
                        src_mspace])
  else None.

Definition writeVirtualDataSet (file : H5File) (group dsetName : string)
    (datasets : list string) (indices : list (list N)) : option H5File :=
  (* new dimensionality and extent along each new axis *)
  first ← indices !! 0%nat;
  let new_rank := N.of_nat (length first) in
  max_dims ← max_indices indices new_rank;
  (* rank and extents of the first source *)
  sample ← datasets !! 0%nat;
  dims_out ← getSpace file sample;
  let rank := length dims_out in
  let mdims := dims_out ++ ((fun m => wrap64 (m + 1)) <$> max_dims) in
  let mdims_ind := dims_out ++ replicate (N.to_nat new_rank) 1 in
  (* virtual dataspace and property-list mapping *)
  st ← for_int (N.of_nat (length datasets))
          (map_source file datasets indices rank new_rank mdims_ind)
          (replicate (rank + N.to_nat new_rank) 0, []);
  (* group.createDataSet: refused when the name is taken *)
  let path := (group +:+ "/" +:+ dsetName)%string in
  match objects file !! path with
  | Some _ => None
  | None =>
      Some (mkH5File (file_name file)
              (<[path := H5Virtual mdims st.2]> (objects file)))
  end.

(** The spec's wording of the inferred extent: [v] is the maximum index
    value observed along new axis [j] across all sources. *)
Definition max_index_along (indices : list (list N)) (j : nat) (v : N)
  : Prop :=
  (forall t x, t ∈ indices -> t !! j = Some x -> x <= v)
  /\ (exists t, t ∈ indices /\ t !! j = Some v).

(** The index tuples that [depthSeriesSG] hands to the stitcher:
    [indices.push_back(std::vector<size_t>{i})] for each depth [i]. *)
Definition depthSeries_indices (numDataSets : nat) : list (list N) :=
  (fun i => [N.of_nat i]) <$> seq 0 numDataSets.

(** * prism_qthreads.cpp *)

Inductive LockId := calculationLock | dataLock | outputLock.

Inductive Stage := Potential | CompactOperator | Output.

(** What a thread does that another party can observe, in program order. *)
Inductive Event :=
| EvDiagnostic                  (* "Aborting calculation, please choose ..." *)
| EvOverwriteWarning            (* emit overwriteWarning() *)
| EvRemove (f : string)         (* remove(filenameOutput) *)
| EvAcquire (l : LockId)        (* QMutexLocker constructed *)
| EvRelease (l : LockId)        (* QMutexLocker destroyed or unlocked *)
| EvKernel (s : Stage) (m : Metadata)  (* a stage kernel runs on parameters
                                          whose metadata is [m] *)
| EvReused (s : Stage)          (* "... already calculated. Using existing result." *)
| EvOpenOutput (f : string) (truncate : bool)  (* H5F_ACC_TRUNC / H5F_ACC_RDWR *)
| EvCloseOutput
| EvSaved.                      (* saveSTEM; writeMetadata *)

(** The stage kernels and the wavelength computation of the [Parameters]
    constructor are collaborators of the threads.  A kernel is taken as a
    function of the parameters it is handed. *)
Record Collaborators := mkCollaborators {
  calc_lambda : Metadata -> T;
  PRISM01_calcPotential : Parameters -> Parameters;
  PRISM02_calcSMatrix : Parameters -> Parameters;
  PRISM03_calcOutput : Parameters -> Parameters;
  Multislice_calcOutput : Parameters -> Parameters
}.

(** Modelled from the spec: the [Parameters] constructor (params.h is not
    in this part of the tree).  It stores the metadata it is given; every
    array starts empty. *)
Definition new_Parameters (C : Collaborators) (m : Metadata) : Parameters :=
  mkParameters m [] [] [] [] [] [] [] [] (mkShape 0 0) (calc_lambda C m) 0%nat.

Definition set_meta (m : Metadata) (p : Parameters) : Parameters :=
  mkParameters m (pot p) (Scompact p) (output p) (DPC_CoM p) (xp p) (yp p)
    (qx p) (qy p) (psiProbeInit p) (lambda p) (fpFlag p).

Definition set_output (o : Array) (p : Parameters) : Parameters :=
  mkParameters (meta p) (pot p) (Scompact p) o (DPC_CoM p) (xp p) (yp p)
    (qx p) (qy p) (psiProbeInit p) (lambda p) (fpFlag p).

Definition set_DPC_CoM (d : Array) (p : Parameters) : Parameters :=
  mkParameters (meta p) (pot p) (Scompact p) (output p) d (xp p) (yp p)
    (qx p) (qy p) (psiProbeInit p) (lambda p) (fpFlag p).

Definition set_fpFlag (n : nat) (p : Parameters) : Parameters :=
  mkParameters (meta p) (pot p) (Scompact p) (output p) (DPC_CoM p) (xp p)
    (yp p) (qx p) (qy p) (psiProbeInit p) (lambda p) n.

Definition set_randomSeed (seed : N) (m : Metadata) : Metadata :=
  mkMetadata (algorithm m) (filenameOutput m) (numFP m) (fpNum m) seed
    (saveDPC_CoM m) (save4DOutput m) (savePotentialSlices m)
    (crop4DOutput m) (crop4Damax m).

Definition incr_fpNum (m : Metadata) : Metadata :=
  mkMetadata (algorithm m) (filenameOutput m) (numFP m) (S (fpNum m))
    (randomSeed m) (saveDPC_CoM m) (save4DOutput m) (savePotentialSlices m)
    (crop4DOutput m) (crop4Damax m).

(** [save4DOutput = savePotentialSlices = saveDPC_CoM = false] *)
Definition no_saving (m : Metadata) : Metadata :=
  mkMetadata (algorithm m) (filenameOutput m) (numFP m) (fpNum m)
    (randomSeed m) false false false (crop4DOutput m) (crop4Damax m).

(** Modelled from the spec: [ArrayND::operator+=] (ArrayND.h is not in this
    part of the tree): elementwise addition into the left operand. *)
Definition array_add (a b : Array) : Array := zip_with padd a b.

(** ** The main window: the cache shared by the threads

    Modelled from the spec: [PRISMMainWindow] (prismmainwindow.cpp is not
    in this part of the tree).  It holds the current metadata, the last
    stored parameters with their artifacts, one readiness flag per stage
    and the overwrite answer; [resetCalculation] clears every flag and
    [potentialReceived] / [outputReceived] store the artifact and set its
    flag. *)
Record MainWindow := mkMainWindow {
  getMetadata : Metadata;
  pars : Parameters;
  potential : Array;
  received_output : Array;
  potentialReady : bool;
  ScompactReady : bool;
  outputReady : bool;
  probeSetupReady : bool;
  overwriteCheck : bool
}.

Definition potentialIsReady (mw : MainWindow) : bool := potentialReady mw.
Definition SMatrixIsReady (mw : MainWindow) : bool := ScompactReady mw.
Definition overwriteFile (mw : MainWindow) : bool := overwriteCheck mw.

Definition resetCalculation (mw : MainWindow) : MainWindow :=
  mkMainWindow (getMetadata mw) (pars mw) (potential mw) (received_output mw)
    false false false false (overwriteCheck mw).

Definition potentialReceived (p : Array) (mw : MainWindow) : MainWindow :=
  mkMainWindow (getMetadata mw) (pars mw) p (received_output mw)
    true (ScompactReady mw) (outputReady mw) (probeSetupReady mw)
    (overwriteCheck mw).

Definition outputReceived (o : Array) (mw : MainWindow) : MainWindow :=
  mkMainWindow (getMetadata mw) (pars mw) (potential mw) o
    (potentialReady mw) (ScompactReady mw) true (probeSetupReady mw)
    (overwriteCheck mw).

Definition set_pars (p : Parameters) (mw : MainWindow) : MainWindow :=
  mkMainWindow (getMetadata mw) p (potential mw) (received_output mw)
    (potentialReady mw) (ScompactReady mw) (outputReady mw)
    (probeSetupReady mw) (overwriteCheck mw).

Definition set_ScompactReady (b : bool) (mw : MainWindow) : MainWindow :=
  mkMainWindow (getMetadata mw) (pars mw) (potential mw) (received_output mw)
    (potentialReady mw) b (outputReady mw) (probeSetupReady mw)
    (overwriteCheck mw).

Definition set_overwriteCheck (b : bool) (mw : MainWindow) : MainWindow :=
  mkMainWindow (getMetadata mw) (pars mw) (potential mw) (received_output mw)
    (potentialReady mw) (ScompactReady mw) (outputReady mw)
    (probeSetupReady mw) b.

Definition flipOverwrite (mw : MainWindow) : MainWindow :=
  set_overwriteCheck (negb (overwriteCheck mw)) mw.

(** ** The world a thread runs in

    [files] and [inaccessible] are the file system as the pre-flight check
    sees and changes it (what the calculation later writes into the
    container is recorded as events); [rand_values] lists the values that
    successive calls of [rand()] return. *)
Record World := mkWorld {
  parent : MainWindow;
  files : gmap string (list Byte.byte);
  inaccessible : gset string;
  rand_values : nat -> N;
  rand_calls : nat;
  trace : list Event
}.

Definition emit (e : Event) (w : World) : World :=
  mkWorld (parent w) (files w) (inaccessible w) (rand_values w)
    (rand_calls w) (trace w ++ [e]).

Definition with_parent (f : MainWindow -> MainWindow) (w : World) : World :=
  mkWorld (f (parent w)) (files w) (inaccessible w) (rand_values w)
    (rand_calls w) (trace w).

Definition remove (f : string) (w : World) : World :=
  emit (EvRemove f)
    (mkWorld (parent w) (delete f (files w)) (inaccessible w)
       (rand_values w) (rand_calls w) (trace w)).

Definition rand (w : World) : N * World :=
  (rand_values w (rand_calls w),
   mkWorld (parent w) (files w) (inaccessible w) (rand_values w)
     (S (rand_calls w)) (trace w)).

(** A [QMutexLocker] scope around a state change. *)
Definition locked (l : LockId) (f : World -> World) (w : World) : World :=
  emit (EvRelease l) (f (emit (EvAcquire l) w)).

(** Modelled from the spec: [testFilenameOutput] (utility.cpp is not in
    this part of the tree).  The threads only test its result against 0
    and 2: 0 is an inaccessible target, 2 a target that exists, 1 a usable
    target that does not exist yet. *)
Definition testFilenameOutput (w : World) (f : string) : N :=
  if decide (f ∈ inaccessible w) then 0
  else match files w !! f with Some _ => 2 | None => 1 end.

(** Modelled from the spec: the slot behind [overwriteWarning()] puts the
    confirmation request to the caller and records the reply, which
    [overwriteFile()] then returns. *)
Definition overwriteWarning (reply : bool) (w : World) : World :=
  with_parent (set_overwriteCheck reply) (emit EvOverwriteWarning w).

Section Threads.
Variable C : Collaborators.

(** ** The output-path pre-flight check (the head of both full runs)

    The result is the world after the check and whether the run goes on. *)
Definition preflight (reply : bool) (params : Parameters) (w : World)
  : World * bool :=
  let f := filenameOutput (meta params) in
  if testFilenameOutput w f =? 0 then (emit EvDiagnostic w, false)
  else if testFilenameOutput w f =? 2 then
    let w := overwriteWarning reply w in
    if overwriteFile (parent w)
    then (with_parent flipOverwrite (remove f w), true)
    else (w, false)
  else (w, true).

Definition run_kernel (s : Stage) (kernel : Parameters -> Parameters)
    (params : Parameters) (w : World) : Parameters * World :=
  (kernel params, emit (EvKernel s (meta params)) w).

(** ** The potential stage of the two full runs *)
Definition potential_stage (params : Parameters) (w : World)
  : Parameters * World :=
  if negb (potentialIsReady (parent w))
     || negb (meta_eqb (meta params) (getMetadata (parent w)))
  then
    let w := with_parent resetCalculation w in
    let '(params, w) := run_kernel Potential (PRISM01_calcPotential C) params w in
    (params, locked dataLock (with_parent (set_pars params)) w)
  else
    (pars (parent w), locked dataLock (emit (EvReused Potential)) w).

(** What follows the potential stage in one pass: PRISM runs the compact
    operator and the output kernel, Multislice its single output kernel. *)
Definition PRISM_output (params : Parameters) (w : World)
  : Parameters * World :=
  let '(params, w) := run_kernel CompactOperator (PRISM02_calcSMatrix C) params w in
  run_kernel Output (PRISM03_calcOutput C) params w.

Definition Multislice_output (params : Parameters) (w : World)
  : Parameters * World :=
  run_kernel Output (Multislice_calcOutput C) params w.

(** ** The remaining frozen phonons *)
Record FPState := mkFPState {
  fp_meta : Metadata;          (* the thread's [meta] *)
  fp_params : Parameters;      (* the run's [params], outside the loop *)
  net_output : Array;
  DPC_CoM_output : Array;
  fp_world : World
}.

(** The loop body.  The drawn seed is assigned to the [params] of the
    enclosing scope; the [params] declared two lines further down, on
    which the pass runs, is built from the thread's [meta]. *)
Definition frozen_phonon_pass
    (output_stage : Parameters -> World -> Parameters * World)
    (st : FPState) (fp_num : nat) : FPState :=
  let '(r, w) := rand (fp_world st) in
  let outer := set_meta (set_randomSeed (r mod 100000) (meta (fp_params st)))
                 (fp_params st) in
  let tmeta := incr_fpNum (fp_meta st) in
  let params := new_Parameters C tmeta in
  let w := emit (EvOpenOutput (filenameOutput (meta params)) false) w in
  let params := set_fpFlag fp_num params in
  let '(params, w) := run_kernel Potential (PRISM01_calcPotential C) params w in
  let w := with_parent (potentialReceived (pot params)) w in
  let '(params, w) := output_stage params w in
  let net := array_add (net_output st) (output params) in
  let dpc := if saveDPC_CoM tmeta
             then array_add (DPC_CoM_output st) (DPC_CoM params)
             else DPC_CoM_output st in
  mkFPState tmeta outer net dpc (emit EvCloseOutput w).

Definition frozen_phonons
    (output_stage : Parameters -> World -> Parameters * World)
    (tmeta : Metadata) (params : Parameters) (w : World)
  : Metadata * Parameters * World :=
  if (1 <? numFP (meta params))%nat then
    let st0 := mkFPState tmeta params (output params)
                 (if saveDPC_CoM (meta params) then DPC_CoM params else [])
                 w in
    let st := foldl (frozen_phonon_pass output_stage) st0
                (seq 1 (numFP (meta params) - 1)) in
    let params := fp_params st in
    (* divide to take average *)
    let n := of_size (N.of_nat (numFP (meta params))) in
    let params := set_output ((fun i => pdiv i n) <$> net_output st) params in
    let params :=
      if saveDPC_CoM (meta params)
      then set_DPC_CoM ((fun j => pdiv j n) <$> DPC_CoM_output st) params
      else params in
    (fp_meta st, params, fp_world st)
  else (tmeta, params, w).

(** ** FullPRISMCalcThread::run and FullMultisliceCalcThread::run

    The two bodies differ only in the kernels that follow the potential
    stage.  [tmeta] is the copy of the window's metadata taken when the
    thread was constructed; [reply] is the caller's answer to an
    overwrite request. *)
Definition calculation
    (output_stage : Parameters -> World -> Parameters * World)
    (tmeta : Metadata) (params : Parameters) (w : World) : World :=
  let w := emit (EvAcquire calculationLock) w in
  let w := emit (EvOpenOutput (filenameOutput (meta params)) true) w in
  let params := set_fpFlag 0 params in
  let '(params, w) := potential_stage params w in
  let w := with_parent (potentialReceived (pot params)) w in
  let '(params, w) := output_stage params w in
  let w := emit EvCloseOutput w in
  let '(_, params, w) := frozen_phonons output_stage tmeta params w in
  let w := locked dataLock (with_parent (set_pars params)) w in
  (* detector angles and pixel size are copied for display *)
  let w := locked outputLock (fun w => w) w in
  let w := emit EvSaved w in
  let w := with_parent (outputReceived (output params)) w in
  emit (EvRelease calculationLock) w.

Definition full_run
    (output_stage : Parameters -> World -> Parameters * World)
    (reply : bool) (tmeta : Metadata) (w : World) : World :=
  let params := new_Parameters C tmeta in
  match preflight reply params w with
  | (w, false) => w
  | (w, true) => calculation output_stage tmeta params w
  end.

Definition FullPRISMCalcThread_run := full_run PRISM_output.
Definition FullMultisliceCalcThread_run := full_run Multislice_output.

(** ** The two cached stages of ProbeThread::run *)
Definition ProbeThread_potential_stage (params : Parameters) (w : World)
  : Parameters * World :=
  if negb (potentialIsReady (parent w))
     || negb (meta_eqb (meta params) (getMetadata (parent w)))
  then
    let w := with_parent resetCalculation w in
    let '(params, w) := run_kernel Potential (PRISM01_calcPotential C) params w in
    let w := locked dataLock (with_parent (set_pars params)) w in
    (params, with_parent (potentialReceived (pot params)) w)
  else
    (pars (parent w), locked dataLock (emit (EvReused Potential)) w).

Definition ProbeThread_SMatrix_stage (params : Parameters) (w : World)
  : Parameters * World :=
  if negb (SMatrixIsReady (parent w))
     || negb (meta_eqb (meta params) (getMetadata (parent w)))
  then
    let '(params, w) := run_kernel CompactOperator (PRISM02_calcSMatrix C) params w in
    (params,
     locked dataLock
       (fun w => with_parent (set_ScompactReady true)
                   (with_parent (set_pars params) w)) w)
  else
    (pars (parent w), locked dataLock (emit (EvReused CompactOperator)) w).

Definition ProbeThread_stages (tmeta : Metadata) (w : World)
  : Parameters * World :=
  let params := new_Parameters C tmeta in
  let params := set_meta (no_saving (meta params)) params in
  let w := emit (EvAcquire calculationLock) w in
  let '(params, w) := ProbeThread_potential_stage params w in
  ProbeThread_SMatrix_stage params w.


(** The output of frozen-phonon pass [i >= 1]: the kernels of one pass
    applied to fresh parameters built from the thread's metadata after
    [i] increments of [fpNum]. *)
Definition PRISM_kernels (params : Parameters) : Parameters :=
  PRISM03_calcOutput C (PRISM02_calcSMatrix C params).

Definition pass_output (after_potential : Parameters -> Parameters)
    (tmeta : Metadata) (i : nat) : Array :=
  output (after_potential
            (PRISM01_calcPotential C
               (set_fpFlag i (new_Parameters C (Nat.iter i incr_fpNum tmeta))))).

End Threads.

(** How often the kernel of stage [s] runs in a sequence of events. *)
Definition is_kernel (s : Stage) (e : Event) : bool :=
  match e, s with
  | EvKernel Potential _, Potential
  | EvKernel CompactOperator _, CompactOperator
  | EvKernel Output _, Output => true
  | _, _ => false
  end.

Definition kernel_runs (s : Stage) (evs : list Event) : nat :=
  length (filter (fun e => is_kernel s e = true) evs).

(** A step that leaves the file system alone and only appends events. *)
Definition extends (w w' : World) : Prop :=
  files w' = files w /\ inaccessible w' = inaccessible w
  /\ exists evs, trace w' = trace w ++ evs.


End Model.

(** * An exact instance of the floating-point interface

    Rational arithmetic, used to run the model on concrete inputs. *)
Definition Q_ltb (x y : Q) : bool := if Qlt_le_dec x y then true else false.

#[global] Instance Q_PFP : PFP Q := {|
  padd := Qplus;
  pdiv := Qdiv;
  pltb := Q_ltb;
  peqb := Qeq_bool;
  of_size := fun n => inject_Z (Z.of_N n)
|}.

(** * Concrete inputs used below *)

Definition example_meta : Metadata :=
  mkMetadata Multislice "out.h5" 1 0 7 false true false true (5 # 1)%Q.

Definition example_axis : Array := [0; 1; 2; 3; 4; 5; 6]%Q.

(** Seven samples per frequency axis, cutoff 5: five samples lie below. *)
Definition cropped_pars : Parameters :=
  mkParameters example_meta [] [] [] [] [0; 1]%Q [0; 1; 2]%Q
    example_axis example_axis (mkShape 8 8) (1 # 1)%Q 0.

(** A Multislice run without cropping on an 8 x 12 probe array. *)
Definition uncropped_multislice_pars : Parameters :=
  mkParameters
    (mkMetadata Multislice "out.h5" 1 0 7 false true false false (5 # 1)%Q)
    [] [] [] [] [0; 1]%Q [0; 1; 2]%Q example_axis example_axis
    (mkShape 12 8) (1 # 1)%Q 0.

Definition uncropped_prism_pars : Parameters :=
  mkParameters
    (mkMetadata PRISM "out.h5" 1 0 7 false true false false (5 # 1)%Q)
    [] [] [] [] [0; 1]%Q [0; 1; 2]%Q example_axis example_axis
    (mkShape 12 8) (1 # 1)%Q 0.

(** Incremental writes: a region of two scan positions with a 1 x 1
    frequency plane, and a single scan position with a 2 x 3 plane. *)
Definition two_positions_dims : list N := [2; 1; 1; 1].
Definition two_positions_buffer : list Q := [4; 6]%Q.
Definition two_positions_prior : list Q := [1; 1]%Q.

Definition plane_buffer : list Q := [10; 20; 30; 40; 50; 60]%Q.
Definition plane_prior : list Q := [1; 2; 3; 4; 5; 6]%Q.

Definition two_planes_buffer : list Q := plane_buffer ++ plane_buffer.
Definition two_planes_prior : list Q := plane_prior ++ plane_prior.

(** Stitching: four per-depth detector cubes of shape 8 x 8, and two
    sources that disagree in their extents. *)
Definition slice_data : list (option Q) := replicate 64 (Some 0%Q).

Definition depth_handles : list string :=
  ["/realslices/virtual_detector_depth0000";
   "/realslices/virtual_detector_depth0001";
   "/realslices/virtual_detector_depth0002";
   "/realslices/virtual_detector_depth0003"].

Definition depth_file : @H5File Q :=
  mkH5File "out.h5"
    (list_to_map ((fun h => (h, H5Data [8; 8] slice_data)) <$> depth_handles)).



(** Threads: kernels whose artifacts show the seed and the pass number of
    the metadata they were run on, a window that has cached nothing, and
    a window whose stages are all ready for [example_meta]. *)
Definition seed_of (p : @Parameters Q) : Q :=
  inject_Z (Z.of_N (randomSeed (meta p))).

Definition pass_of (p : @Parameters Q) : Q :=
  inject_Z (Z.of_nat (fpNum (meta p))).

Definition toy_kernels : @Collaborators Q :=
  mkCollaborators
    (fun _ => 1%Q)
    (fun p => mkParameters (meta p) [seed_of p; pass_of p] (Scompact p)
                (output p) (DPC_CoM p) (xp p) (yp p) (qx p) (qy p)
                (psiProbeInit p) (lambda p) (fpFlag p))
    (fun p => mkParameters (meta p) (pot p) (pot p)
                (output p) (DPC_CoM p) (xp p) (yp p) (qx p) (qy p)
                (psiProbeInit p) (lambda p) (fpFlag p))
    (fun p => set_output [(seed_of p + pass_of p)%Q; pass_of p] p)
    (fun p => set_output [(seed_of p + pass_of p)%Q; pass_of p] p).

Definition three_pass_meta : @Metadata Q :=
  mkMetadata PRISM "out.h5" 3 0 7 false false false false (5 # 1)%Q.

Definition two_pass_meta : @Metadata Q :=
  mkMetadata PRISM "out.h5" 2 0 7 false false false false (5 # 1)%Q.

Definition cold_window (m : @Metadata Q) : MainWindow :=
  mkMainWindow m (new_Parameters toy_kernels m) [] []
    false false false false false.

Definition warm_window (m : @Metadata Q) : MainWindow :=
  mkMainWindow m
    (PRISM_kernels toy_kernels
       (PRISM01_calcPotential toy_kernels (new_Parameters toy_kernels m)))
    [7; 0]%Q [7; 0]%Q true true true false false.

Definition example_world (mw : @MainWindow Q) : World :=
  mkWorld mw ∅ ∅ (fun _ => 12345) 0 [].

(** A world in which the output file of [three_pass_meta] exists, and one
    in which its path is not accessible. *)
Definition existing_world : @World Q :=
  mkWorld (cold_window three_pass_meta)
    {[ "out.h5" := [Byte.x48; Byte.x44; Byte.x46] ]} ∅ (fun _ => 12345) 0 [].

Definition inaccessible_world : @World Q :=
  mkWorld (cold_window three_pass_meta) ∅ {[ "out.h5" ]} (fun _ => 12345) 0 [].

Definition cold_world : @World Q := example_world (cold_window example_meta).
Definition two_pass_world : @World Q := example_world (cold_window two_pass_meta).


(** The parameters of a two-pass run after its first pass. *)
Definition two_pass_params : @Parameters Q :=
  PRISM_kernels toy_kernels
    (PRISM01_calcPotential toy_kernels
       (new_Parameters toy_kernels two_pass_meta)).

(** The parameters of a three-pass run after its first pass. *)
Definition first_pass_params : @Parameters Q :=
  PRISM_kernels toy_kernels
    (PRISM01_calcPotential toy_kernels
       (new_Parameters toy_kernels three_pass_meta)).

(** * fileIO.cpp: names and paths *)

(** The width and zero flag of the format [%04d]. *)
Fixpoint zeros (n : nat) : string :=
  match n with
  | O => ""
  | S n' => String "0"%char (zeros n')
  end.

(** [getDigitString]: [sprintf(buffer, "%04d", digit)].  The decimal
    digits are [pretty]; a negative number keeps its sign in front of the
    padding, and the sign counts towards the width. *)
Definition getDigitString (digit : Z) : string :=
  let s := pretty (Z.abs_N digit) in
  if (digit <? 0)%Z
  then "-" +:+ zeros (3 - String.length s) +:+ s
  else zeros (4 - String.length s) +:+ s.

(** Reading a digit string back as a number. *)
Definition digit_value (c : ascii) : N := N.of_nat (nat_of_ascii c) - 48.

Fixpoint decimal_value (acc : N) (s : string) : N :=
  match s with
  | "" => acc
  | String c rest => decimal_value (acc * 10 + digit_value c) rest
  end.

Fixpoint has_char (c : ascii) (s : string) : bool :=
  match s with
  | "" => false
  | String a rest => Ascii.eqb a c || has_char c rest
  end.

(** [std::string::npos] *)
Definition npos : N := 2 ^ 64 - 1.

(** [s.find_last_of(c)], scanning with the position [i] of the next
    character and the last match so far. *)
Fixpoint find_last_from (c : ascii) (s : string) (i last : N) : N :=
  match s with
  | "" => last
  | String a rest => find_last_from c rest (i + 1) (if Ascii.eqb a c then i else last)
  end.

Definition find_last_of (c : ascii) (s : string) : N :=
  find_last_from c s 0 npos.

Fixpoint string_drop (n : nat) (s : string) : string :=
  match n, s with
  | O, _ => s
  | S n', String _ rest => string_drop n' rest
  | S _, "" => ""
  end.

(** [s.substr(pos)]: throws [std::out_of_range] when [pos > s.size()]. *)
Definition substr (pos : N) (s : string) : option string :=
  if pos <=? N.of_nat (String.length s)
  then Some (string_drop (N.to_nat pos) s) else None.

(** [size_t index = fullPath.find_last_of("/"); return fullPath.substr(index+1);] *)
Definition reducedDataSetName (fullPath : string) : option string :=
  substr (wrap64 (find_last_of "/" fullPath + 1)) fullPath.

(** * fileIO.cpp: the container, its groups and attributes

    Groups and attributes are kept beside the datasets of the stitcher's
    [H5File]: the set of group paths and, per object path, the
    attributes of that object.  A handle ([H5::Group], [H5::DataSet]) is
    the path of the object it was opened on, as for the stitcher.  Every
    operation of the container library fails ([None]) where the library
    raises: a name that is taken, an object that is not there. *)
Section Store.
Context {T : Type} {pfp : PFP T}.

Inductive AttrValue :=
| AInt (z : Z)        (* H5::PredType::NATIVE_INT *)
| AReal (x : T)       (* PFP_TYPE *)
| AString (s : string).

Record Container := mkContainer {
  store : @H5File T;
  groups : gset string;
  attributes : gmap string (gmap string AttrValue)
}.

(** The file itself, as a location. *)
Definition root : string := "".

(** The object that [name] denotes at the location [loc]: a name that
    starts with a slash is absolute. *)
Definition is_absolute (name : string) : bool :=
  match name with
  | String a _ => Ascii.eqb a "/"
  | "" => false
  end.

Definition link_path (loc name : string) : string :=
  if is_absolute name then name else loc +:+ "/" +:+ name.

Definition nameExists (c : Container) (loc name : string) : bool :=
  bool_decide (link_path loc name ∈ groups c)
  || bool_decide (is_Some (objects (store c) !! link_path loc name)).

Definition openGroup (c : Container) (loc name : string) : option string :=
  if bool_decide (link_path loc name ∈ groups c)
  then Some (link_path loc name) else None.

Definition openDataSet (c : Container) (loc name : string) : option string :=
  match objects (store c) !! link_path loc name with
  | Some _ => Some (link_path loc name)
  | None => None
  end.

(** A new object has no attributes. *)
Definition createGroup (c : Container) (loc name : string)
  : option Container :=
  if nameExists c loc name then None
  else Some (mkContainer (store c) ({[link_path loc name]} ∪ groups c)
               (delete (link_path loc name) (attributes c))).

(** [createDataSet] with the content the dataset is then given. *)
Definition createDataSet (c : Container) (loc name : string)
    (dims : list N) (data : list cell) : option Container :=
  if nameExists c loc name then None
  else Some (mkContainer
               (mkH5File (file_name (store c))
                  (<[link_path loc name := H5Data dims data]>
                     (objects (store c))))
               (groups c)
               (delete (link_path loc name) (attributes c))).

Definition attributes_of (c : Container) (obj : string)
  : gmap string AttrValue :=
  default ∅ (attributes c !! obj).

(** [createAttribute] followed by the [write] of its value. *)
Definition createAttribute (c : Container) (obj name : string)
    (v : AttrValue) : option Container :=
  match attributes_of c obj !! name with
  | Some _ => None
  | None =>
      Some (mkContainer (store c) (groups c)
              (<[obj := <[name := v]> (attributes_of c obj)]> (attributes c)))
  end.

(** [readAttribute] into a [PRISMATIC_FLOAT_PRECISION &]: the file is
    opened once more by its name, which gives the same container; the
    group is opened by its path and the attribute is read with its own
    type, so only an attribute of the floating type gives a value. *)
Definition readAttribute (c : Container) (groupPath attr : string)
  : option T :=
  group ← openGroup c root groupPath;
  match attributes_of c group !! attr with
  | Some (AReal x) => Some x
  | _ => None
  end.

(** A dataset that was created and never written reads as the fill
    value. *)
Definition fill (dims : list N) : list cell :=
  replicate (N.to_nat (foldr N.mul 1 dims)) (Some (of_size 0)).

(** [write(&values[0], ...)] of [n] elements. *)
Definition read_front (n : N) (values : list T) : option (list cell) :=
  if decide (N.to_nat n <= length values)%nat
  then Some (Some <$> take (N.to_nat n) values) else None.

(** [std::to_string(int)] *)
Definition to_string (n : Z) : string := pretty n.

(** ** setupOutputFile *)
Definition setupOutputFile (c : Container) : option Container :=
  (* create main groups *)
  c ← createGroup c root "/4DSTEM_simulation";
  let simulation := link_path root "/4DSTEM_simulation" in
  (* set version attributes *)
  c ← createAttribute c simulation "version_major" (AInt 0);
  c ← createAttribute c simulation "version_minor" (AInt 5);
  c ← createAttribute c simulation "emd_group_type" (AInt 2);
  (* data groups *)
  c ← createGroup c simulation "data";
  let data := link_path simulation "data" in
  c ← createGroup c data "datacubes";
  c ← createGroup c data "diffractionslices";
  c ← createGroup c data "realslices";
  c ← createGroup c data "pointlists";
  c ← createGroup c data "pointlistarrays";
  c ← createGroup c data "supergroups";
  (* log group *)
  c ← createGroup c simulation "log";
  (* metadata groups *)
  c ← createGroup c simulation "metadata";
  let metadata := link_path simulation "metadata" in
  c ← createGroup c metadata "metadata_0";
  let metadata_0 := link_path metadata "metadata_0" in
  c ← createGroup c metadata_0 "original";
  let original := link_path metadata_0 "original" in
  c ← createGroup c original "shortlist";
  c ← createGroup c original "all";
  c ← createGroup c metadata_0 "microscope";
  c ← createGroup c metadata_0 "sample";
  c ← createGroup c metadata_0 "user";
  c ← createGroup c metadata_0 "calibration";
  createGroup c metadata_0 "comments".

(** What [setupOutputFile] needs of the file it is given: no link
    starts with the name of the simulation group. *)
Definition simulation_absent (c : Container) : Prop :=
  forall s,
    (("/4DSTEM_simulation" +:+ s) ∉ groups c)
    /\ objects (store c) !! ("/4DSTEM_simulation" +:+ s) = None.

(** The groups of the layout that [setupOutputFile] creates. *)
Definition output_groups : list string :=
  [ "/4DSTEM_simulation";
    "/4DSTEM_simulation/data";
    "/4DSTEM_simulation/data/datacubes";
    "/4DSTEM_simulation/data/diffractionslices";
    "/4DSTEM_simulation/data/realslices";
    "/4DSTEM_simulation/data/pointlists";
    "/4DSTEM_simulation/data/pointlistarrays";
    "/4DSTEM_simulation/data/supergroups";
    "/4DSTEM_simulation/log";
    "/4DSTEM_simulation/metadata";
    "/4DSTEM_simulation/metadata/metadata_0";
    "/4DSTEM_simulation/metadata/metadata_0/original";
    "/4DSTEM_simulation/metadata/metadata_0/original/shortlist";
    "/4DSTEM_simulation/metadata/metadata_0/original/all";
    "/4DSTEM_simulation/metadata/metadata_0/microscope";
    "/4DSTEM_simulation/metadata/metadata_0/sample";
    "/4DSTEM_simulation/metadata/metadata_0/user";
    "/4DSTEM_simulation/metadata/metadata_0/calibration";
    "/4DSTEM_simulation/metadata/metadata_0/comments" ].

(** ** countDataGroups and countDimensions

    [while (group.nameExists(name(count))) count += 1;] with an [int]
    counter.  The loop runs on fuel; [None] is fuel that ran out or a
    counter that would pass [INT_MAX]. *)
Fixpoint count_while (fuel : nat) (exists_ : Z -> bool) (count : Z)
  : option Z :=
  match fuel with
  | O => None
  | S fuel' =>
      if exists_ count
      then if (count <? Z.of_N INT_MAX)%Z
           then count_while fuel' exists_ (count + 1)
           else None
      else Some count
  end.

(** One turn more than the container has links. *)
Definition enough_fuel (c : Container) : nat :=
  S (size (groups c) + size (dom (objects (store c)))).

Definition countDataGroups (c : Container) (group basename : string)
  : option Z :=
  count_while (enough_fuel c)
    (fun count => nameExists c group (basename +:+ getDigitString count)) 0.

Definition countDimensions (c : Container) (group basename : string)
  : option Z :=
  count ← count_while (enough_fuel c)
             (fun count => nameExists c group (basename +:+ to_string count)) 1;
  Some (count - 1)%Z.

(** ** copyDataSet

    The source is read whole and written under its own last path
    component into the target group, then every attribute is created on
    the copy.  The read of a virtual source goes through its mappings
    and is not part of this model. *)
Definition copyDataSet (c : Container) (targetGroup source : string)
  : option Container :=
  dsName ← reducedDataSetName source;
  node ← objects (store c) !! source;
  match node with
  | H5Data dims data =>
      c ← createDataSet c targetGroup dsName dims data;
      let target := link_path targetGroup dsName in
      if decide (attributes_of c source ##ₘ attributes_of c target)
      then Some (mkContainer (store c) (groups c)
                   (<[target := attributes_of c source ∪ attributes_of c target]>
                      (attributes c)))
      else None
  | H5Virtual _ _ => None
  end.

(** ** configureSupergroup *)
Definition configureSupergroup (c : Container) (new_sg sourceExample : string)
    (sgdims : list (list T)) (sgdims_name sgdims_units : list string)
  : option Container :=
  (* write group type attribute *)
  c ← createAttribute c new_sg "emd_group_type" (AInt 3);
  (* write metadata attribute *)
  c ← createAttribute c new_sg "metadata" (AInt 0);
  (* write common dimensions *)
  numDims ← countDimensions c sourceExample "dim";
  c ← for_loop (Z.to_nat numDims) 0
         (fun i c =>
            dim_data ← openDataSet c sourceExample
                         ("dim" +:+ to_string (Z.of_nat i + 1));
            copyDataSet c new_sg dim_data) c;
  (* write supergroup dimensions *)
  for_int (N.of_nat (length sgdims))
    (fun i c =>
       values ← sgdims !! i;
       let name := ("sgdim" +:+ to_string (Z.of_nat i + 1))%string in
       c ← createDataSet c new_sg name [N.of_nat (length values)]
              (Some <$> values);
       let dim := link_path new_sg name in
       (* dimension attributes *)
       dim_name_str ← sgdims_name !! i;
       dim_unit_str ← sgdims_units !! i;
       c ← createAttribute c dim "name" (AString dim_name_str);
       createAttribute c dim "units" (AString dim_unit_str)) c.

(** ** setupVDOutput

    [Ndet], [depths] and [detectorAngles] are the fields of the
    parameters that the functions modelled above do not read; they are
    kept in a record of their own. *)
Record Detector := mkDetector {
  Ndet : N;
  depths : list T;
  detectorAngles : list T
}.

Definition realslices_path : string := "/4DSTEM_simulation/data/realslices".
Definition supergroups_path : string := "/4DSTEM_simulation/data/supergroups".
Definition depth_series_path : string :=
  "/4DSTEM_simulation/data/supergroups/vd_depth_series".

(** The group of depth layer [n] in [realslices]. *)
Definition depth_group (realslices : string) (n : nat) : string :=
  link_path realslices
    ("virtual_detector_depth" +:+ getDigitString (Z.of_nat n)).

Definition setupVDOutput_layer (pars : @Parameters T) (det : Detector)
    (realslices : string) (n : nat) (c : Container) : option Container :=
  (* create slice group *)
  let nth_name := ("virtual_detector_depth" +:+ getDigitString (Z.of_nat n))%string in
  c ← createGroup c realslices nth_name;
  let VD_slice_n := link_path realslices nth_name in
  (* write group type attribute *)
  c ← createAttribute c VD_slice_n "emd_group_type" (AInt 1);
  (* write metadata attribute *)
  c ← createAttribute c VD_slice_n "metadata" (AInt 0);
  (* write output depth attribute *)
  depth ← depths det !! n;
  c ← createAttribute c VD_slice_n "output_depth" (AReal depth);
  (* create datasets *)
  let data_dims := [get_dimi (xp pars); get_dimi (yp pars); Ndet det] in
  c ← createDataSet c VD_slice_n "realslice" data_dims (fill data_dims);
  (* write dimensions *)
  dim1_data ← read_front (get_dimi (xp pars)) (xp pars);
  dim2_data ← read_front (get_dimi (yp pars)) (yp pars);
  dim3_data ← read_front (Ndet det) (detectorAngles det);
  c ← createDataSet c VD_slice_n "dim1" [get_dimi (xp pars)] dim1_data;
  c ← createDataSet c VD_slice_n "dim2" [get_dimi (yp pars)] dim2_data;
  c ← createDataSet c VD_slice_n "dim3" [Ndet det] dim3_data;
  let dim1 := link_path VD_slice_n "dim1" in
  let dim2 := link_path VD_slice_n "dim2" in
  let dim3 := link_path VD_slice_n "dim3" in
  (* dimension attributes *)
  c ← createAttribute c dim1 "name" (AString "R_x");
  c ← createAttribute c dim2 "name" (AString "R_y");
  c ← createAttribute c dim3 "name" (AString "bin_outer_angle");
  c ← createAttribute c dim1 "units" (AString "[n_m]");
  c ← createAttribute c dim2 "units" (AString "[n_m]");
  createAttribute c dim3 "units" (AString "[mrad]").

Definition setupVDOutput (pars : @Parameters T) (det : Detector)
    (numLayers : N) (c : Container) : option Container :=
  realslices ← openGroup c root "4DSTEM_simulation/data/realslices";
  for_int numLayers (setupVDOutput_layer pars det realslices) c.

(** What [setupVDOutput] needs of the container it is given: no link of
    [realslices] starts with the name of a depth layer. *)
Definition depth_layers_absent (c : Container) (realslices : string) : Prop :=
  forall s,
    (realslices +:+ "/virtual_detector_depth" +:+ s ∉ groups c)
    /\ objects (store c) !! (realslices +:+ "/virtual_detector_depth" +:+ s)
       = None.

(** The container [c] after the first [i] depth layers were set up in
    [c0]: the groups, datasets and attributes of the layers, and nothing
    else changed. *)
Definition depth_layers (pars : @Parameters T) (det : Detector)
    (realslices : string) (c0 c : Container) (i : nat) : Prop :=
  file_name (store c) = file_name (store c0)
  /\ (forall p, p ∈ groups c
                <-> p ∈ groups c0
                    \/ exists j, (j < i)%nat /\ p = depth_group realslices j)
  /\ (forall j, (j < i)%nat ->
        objects (store c) !! (depth_group realslices j +:+ "/realslice")
        = Some (H5Data [get_dimi (xp pars); get_dimi (yp pars); Ndet det]
                  (fill [get_dimi (xp pars); get_dimi (yp pars); Ndet det]))
        /\ objects (store c) !! (depth_group realslices j +:+ "/dim1")
           = Some (H5Data [get_dimi (xp pars)] (Some <$> xp pars))
        /\ objects (store c) !! (depth_group realslices j +:+ "/dim2")
           = Some (H5Data [get_dimi (yp pars)] (Some <$> yp pars))
        /\ objects (store c) !! (depth_group realslices j +:+ "/dim3")
           = Some (H5Data [Ndet det]
                     (Some <$> take (N.to_nat (Ndet det)) (detectorAngles det))))
  /\ (forall p,
        (forall j, (j < i)%nat ->
           p <> depth_group realslices j +:+ "/realslice"
           /\ p <> depth_group realslices j +:+ "/dim1"
           /\ p <> depth_group realslices j +:+ "/dim2"
           /\ p <> depth_group realslices j +:+ "/dim3") ->
        objects (store c) !! p = objects (store c0) !! p)
  /\ (forall j d, (j < i)%nat -> depths det !! j = Some d ->
        attributes_of c (depth_group realslices j)
        = <["output_depth" := AReal d]>
            (<["metadata" := AInt 0]> (<["emd_group_type" := AInt 1]> ∅)))
  /\ (forall j, (j < i)%nat ->
        attributes_of c (depth_group realslices j +:+ "/dim1")
        = <["units" := AString "[n_m]"]> (<["name" := AString "R_x"]> ∅)
        /\ attributes_of c (depth_group realslices j +:+ "/dim2")
           = <["units" := AString "[n_m]"]> (<["name" := AString "R_y"]> ∅)
        /\ attributes_of c (depth_group realslices j +:+ "/dim3")
           = <["units" := AString "[mrad]"]>
               (<["name" := AString "bin_outer_angle"]> ∅))
  /\ (forall o,
        (forall j, (j < i)%nat -> o <> depth_group realslices j) ->
        (forall j k, (j < i)%nat ->
           o <> depth_group realslices j +:+ "/" +:+ k) ->
        attributes_of c o = attributes_of c0 o).

(** What [depthSeriesSG] needs of the container before the layers were
    set up: no link of [supergroups] starts with the name of the depth
    series. *)
Definition depth_series_absent (c : Container) (supergroups : string) : Prop :=
  forall s,
    (supergroups +:+ "/vd_depth_series" +:+ s ∉ groups c)
    /\ objects (store c) !! (supergroups +:+ "/vd_depth_series" +:+ s) = None.

(** ** depthSeriesSG *)
Definition gather_depth (c : Container) (realslices : string) (i : nat)
    (st : list string * list (list N) * list T)
  : option (list string * list (list N) * list T) :=
  let tmp_name := ("virtual_detector_depth" +:+ getDigitString (Z.of_nat i))%string in
  tmp_group ← openGroup c realslices tmp_name;
  tmp_dataset ← openDataSet c tmp_group "realslice";
  tmp_depth ← readAttribute c tmp_group "output_depth";
  Some (st.1.1 ++ [tmp_dataset], st.1.2 ++ [[N.of_nat i]], st.2 ++ [tmp_depth]).

Definition depthSeriesSG (c : Container) : option Container :=
  supergroups ← openGroup c root "4DSTEM_simulation/data/supergroups";
  c ← createGroup c supergroups "vd_depth_series";
  let depthSeries := link_path supergroups "vd_depth_series" in
  (* gather datasets and create mapping *)
  realslices ← openGroup c root "4DSTEM_simulation/data/realslices";
  numDataSets ← countDataGroups c realslices "virtual_detector_depth";
  st ← for_loop (Z.to_nat numDataSets) 0 (gather_depth c realslices)
         ([], [], []);
  (* write dataset *)
  c ← (if nameExists c depthSeries "supergroup" then None
       else file ← writeVirtualDataSet (store c) depthSeries "supergroup"
                     st.1.1 st.1.2;
            Some (mkContainer file (groups c)
                    (delete (link_path depthSeries "supergroup")
                       (attributes c))));
  (* configure supergroup *)
  firstGroup ← openGroup c realslices
                 ("virtual_detector_depth" +:+ getDigitString 0);
  configureSupergroup c depthSeries firstGroup [st.2] ["Depth"] ["[Å]"].

End Store.

(** ** Example containers *)

(** A file that holds the groups of the layout and nothing else. *)
Definition example_container : @Container Q :=
  mkContainer (mkH5File "out.h5" ∅) (list_to_set output_groups) ∅.

(** A new file. *)
Definition empty_container : @Container Q :=
  mkContainer (mkH5File "out.h5" ∅) ∅ ∅.

(** Two depths and two detector bins. *)
Definition example_detector : @Detector Q :=
  mkDetector 2 [20; 40]%Q [10; 20]%Q.

(** A group that holds one dimension dataset with its name attribute,
    and an empty target group. *)
Definition copy_container : @Container Q :=
  mkContainer
    (mkH5File "out.h5" {["/a/dim1" := H5Data [2] [Some 0%Q; Some 1%Q]]})
    {["/a"; "/b"]}
    {["/a/dim1" := {["name" := AString "R_x"]}]}.

(** Two depth layers by name only, and a lone dimension. *)
Definition counted_container : @Container Q :=
  mkContainer
    (mkH5File "out.h5" {["/g/dim1" := H5Data [1] [Some 0%Q]]})
    {["/g"; "/g/virtual_detector_depth0000"; "/g/virtual_detector_depth0001"]}
    ∅.

(** * prism_qthreads.cpp: PotentialThread and the locks of a run *)
Section ThreadsMore.
Context {T : Type} {pfp : PFP T}.

(** [params.meta.savePotentialSlices = false] *)
Definition no_potential_slices (m : @Metadata T) : Metadata :=
  mkMetadata (algorithm m) (filenameOutput m) (numFP m) (fpNum m)
    (randomSeed m) (saveDPC_CoM m) (save4DOutput m) false
    (crop4DOutput m) (crop4Damax m).

(** ** PotentialThread::run

    The calculation lock is held for the inner block only; the data lock
    is taken afterwards and held to the end of the function. *)
Definition PotentialThread_run (C : @Collaborators T) (tmeta : Metadata)
    (w : World) : World :=
  (* create parameters *)
  let params := new_Parameters C tmeta in
  (* prevent it from trying to write to a non-existing H5 file *)
  let params := set_meta (no_potential_slices (meta params)) params in
  let w := emit (EvAcquire calculationLock) w in
  (* calculate potential *)
  let '(params, w) := run_kernel Potential (PRISM01_calcPotential C) params w in
  let w := with_parent (potentialReceived (pot params)) w in
  let w := emit (EvRelease calculationLock) w in
  (* acquire the mutex so we can safely copy to the GUI copy of the potential *)
  let w := emit (EvAcquire dataLock) w in
  (* perform copy *)
  let w := with_parent (set_pars params) w in
  emit (EvRelease dataLock) w.

Definition LockId_eqb (a b : LockId) : bool :=
  match a, b with
  | calculationLock, calculationLock
  | dataLock, dataLock
  | outputLock, outputLock => true
  | _, _ => false
  end.

Definition holds (l : LockId) (held : list LockId) : bool :=
  existsb (LockId_eqb l) held.

(** The locks held after a sequence of events, innermost first, starting
    from [held].  The walk is refused ([None]) when a lock is taken that
    is already held (a [QMutex] is not recursive), when a lock is
    released that is not the innermost one held, and when a kernel runs
    without the calculation lock or under the data lock. *)
Fixpoint lock_walk (held : list LockId) (evs : list (@Event T))
  : option (list LockId) :=
  match evs with
  | [] => Some held
  | EvAcquire l :: rest =>
      if holds l held then None else lock_walk (l :: held) rest
  | EvRelease l :: rest =>
      match held with
      | h :: held' => if LockId_eqb h l then lock_walk held' rest else None
      | [] => None
      end
  | EvKernel _ _ :: rest =>
      if holds calculationLock held && negb (holds dataLock held)
      then lock_walk held rest else None
  | _ :: rest => lock_walk held rest
  end.

(** A step that only appends events, and whose events leave the held
    locks as they were. *)
Definition walks (held : list LockId) (w w' : @World T) : Prop :=
  exists evs, trace w' = trace w ++ evs /\ lock_walk held evs = Some held.

(** The metadata that the potential kernel was run on, in order. *)
Fixpoint potential_metadata (evs : list (@Event T)) : list Metadata :=
  match evs with
  | [] => []
  | EvKernel Potential m :: rest => m :: potential_metadata rest
  | _ :: rest => potential_metadata rest
  end.

(** A step that draws no random number and runs no potential kernel. *)
Definition quiet (w w' : @World T) : Prop :=
  rand_calls w' = rand_calls w /\ rand_values w' = rand_values w
  /\ exists evs, trace w' = trace w ++ evs /\ potential_metadata evs = [].

End ThreadsMore.

(** * fileIO.cpp: successive writes and the dimension vectors of the cube *)
Section MoreIO.
Context {T : Type} {pfp : PFP T}.

(** Successive calls of [writeDatacube4D] on one hyperslab, one per
    frozen-phonon pass: each call reads from the region what the call
    before it wrote. *)
Fixpoint write_passes (region : list (option T)) (buffers : list (list T))
    (mdims offset : list N) (numFP : T) : option (list (option T)) :=
  match buffers with
  | [] => Some region
  | buffer :: rest =>
      r ← writeDatacube4D region buffer mdims offset numFP;
      write_passes r.1.2 rest mdims offset numFP
  end.

(** [dataset.write(&q[offset], ...)] of [n] elements: the window has to
    lie inside the vector. *)
Definition read_window (q : list T) (offset : Z) (n : N) : option (list T) :=
  if decide (0 <= offset)%Z then
    if decide (Z.to_nat offset + N.to_nat n <= length q)%nat
    then Some (take (N.to_nat n) (drop (Z.to_nat offset) q))
    else None
  else None.

(** The dimension vectors [dim3] and [dim4] that [setup4DOutput] writes
    into every layer.  [fftshift] is defined outside this part of the
    tree and is taken as a function of the vector. *)
Definition setup4DOutput_dims (fftshift : list T -> list T)
    (pars : @Parameters T) : option (list T * list T) :=
  let cube := setup4DOutput pars in
  let shifted := Algorithm_eqb (algorithm (meta pars)) Multislice in
  let qx := if shifted then fftshift (qx pars) else qx pars in
  let qy := if shifted then fftshift (qy pars) else qy pars in
  qx_dim ← data_dims cube !! 2%nat;
  qy_dim ← data_dims cube !! 3%nat;
  dim3 ← read_window qx (offset_qx cube) qx_dim;
  dim4 ← read_window qy (offset_qy cube) qy_dim;
  Some (dim3, dim4).

End MoreIO.

(** * Properties of setup4DOutput *)

Section Cropping.
Context {T : Type} {pfp : PFP T}.

Lemma wrap64_small n : n < 2 ^ 64 -> wrap64 n = n.
Proof. intros Hn. unfold wrap64. by apply N.mod_small. Qed.

Lemma INT_MAX_lt : INT_MAX < 2 ^ 63.
Proof. reflexivity. Qed.

(** The counting loop adds the length of the longest prefix below the
    cutoff to its counter. *)
Lemma count_below_prefix (qMax : T) (q : Array) (k : nat) (n : N) :
  contiguous_below qMax q k = true ->
  n + N.of_nat (length q) < 2 ^ 64 ->
  count_below qMax q n = n + N.of_nat k.
Proof.
  revert k n. induction q as [|x q IH]; intros k n Hk Hn.
  - unfold contiguous_below in Hk. destruct k; simpl in *; [lia|done].
  - destruct k as [|k].
    + unfold contiguous_below in Hk. simpl in Hk.
      apply negb_true_iff in Hk. simpl. rewrite Hk. lia.
    + unfold contiguous_below in Hk. simpl in Hk.
      destruct (pltb x qMax) eqn:Hx; [|done]. simpl in Hk.
      simpl. rewrite Hx. simpl length in Hn.
      rewrite wrap64_small by lia.
      rewrite IH with (k := k); [lia| |lia].
      unfold contiguous_below. exact Hk.
Qed.

End Cropping.

(** * Theorems: setup4DOutput *)

(** C5: with cropping enabled and cutoff qMax = crop4Damax / lambda, if a
    frequency axis has exactly k contiguous samples strictly below qMax
    starting from index zero, the cropped extent of the datacube along
    that axis is 2k.  Stated for both frequency axes; the axes fit an
    [int] loop counter. *)
Theorem C5_cropped_extent_is_twice_the_count
    {T : Type} {pfp : PFP T} (pars : Parameters) (kx ky : nat) :
  crop4DOutput (meta pars) = true ->
  contiguous_below (pdiv (crop4Damax (meta pars)) (lambda pars)) (qx pars) kx = true ->
  contiguous_below (pdiv (crop4Damax (meta pars)) (lambda pars)) (qy pars) ky = true ->
  get_dimi (qx pars) <= INT_MAX ->
  get_dimi (qy pars) <= INT_MAX ->
  data_dims (setup4DOutput pars) !! 2%nat = Some (2 * N.of_nat kx)
  /\ data_dims (setup4DOutput pars) !! 3%nat = Some (2 * N.of_nat ky).
Proof.
  intros Hcrop Hx Hy Hlx Hly.
  assert (Hkx : (kx <= length (qx pars))%nat).
  { unfold contiguous_below in Hx.
    apply andb_true_iff in Hx as [Hx _]. apply andb_true_iff in Hx as [_ Hx].
    by apply Nat.leb_le in Hx. }
  assert (Hky : (ky <= length (qy pars))%nat).
  { unfold contiguous_below in Hy.
    apply andb_true_iff in Hy as [Hy _]. apply andb_true_iff in Hy as [_ Hy].
    by apply Nat.leb_le in Hy. }
  pose proof INT_MAX_lt as Hmax. unfold get_dimi in Hlx, Hly.
  assert (H63 : 2 ^ 63 * 2 = 2 ^ 64) by reflexivity.
  unfold setup4DOutput. rewrite Hcrop. simpl.
  rewrite (count_below_prefix _ _ kx) by (done || lia).
  rewrite (count_below_prefix _ _ ky) by (done || lia).
  rewrite !wrap64_small by lia.
  split; f_equal; lia.
Qed.

Lemma C5_witness :
  data_dims (setup4DOutput cropped_pars) !! 2%nat = Some 10
  /\ data_dims (setup4DOutput cropped_pars) !! 3%nat = Some 10.
Proof.
  apply (C5_cropped_extent_is_twice_the_count cropped_pars 5 5);
    vm_compute; congruence.
Defined.

(** C6 as stated fails: without cropping, a Multislice datacube on a probe
    array of extent 8 gets a frequency axis of extent 4, not 8 / 4 = 2. *)
Lemma C6_counterexample :
  crop4DOutput (meta uncropped_multislice_pars) = false
  /\ algorithm (meta uncropped_multislice_pars) = Multislice
  /\ data_dims (setup4DOutput uncropped_multislice_pars) !! 2%nat = Some 4
  /\ data_dims (setup4DOutput uncropped_multislice_pars) !! 2%nat
     <> Some (shape_dimi (psiProbeInit uncropped_multislice_pars) / 4).
Proof. vm_compute. repeat split; congruence. Qed.

(** C6, amended: without cropping, every mode other than Multislice
    declares the full sampled frequency axes with offset 0; Multislice
    declares one half of the probe array's extent along each frequency
    axis, with the origin of the axis moved to one quarter of that
    extent (both by integer division). *)
Theorem C6_uncropped_extent
    {T : Type} {pfp : PFP T} (pars : Parameters) :
  crop4DOutput (meta pars) = false ->
  let cube := setup4DOutput pars in
  (algorithm (meta pars) = Multislice ->
     data_dims cube !! 2%nat = Some (shape_dimi (psiProbeInit pars) / 2)
     /\ data_dims cube !! 3%nat = Some (shape_dimj (psiProbeInit pars) / 2)
     /\ offset_qx cube = Z.of_N (shape_dimi (psiProbeInit pars) / 4)
     /\ offset_qy cube = Z.of_N (shape_dimj (psiProbeInit pars) / 4))
  /\ (algorithm (meta pars) <> Multislice ->
     data_dims cube !! 2%nat = Some (get_dimi (qx pars))
     /\ data_dims cube !! 3%nat = Some (get_dimi (qy pars))
     /\ offset_qx cube = 0%Z
     /\ offset_qy cube = 0%Z).
Proof.
  intros Hcrop cube. subst cube. unfold setup4DOutput. rewrite Hcrop.
  split; intros Halg.
  - rewrite Halg. simpl. done.
  - destruct (algorithm (meta pars)); simpl; done.
Qed.

Lemma C6_witness :
  (data_dims (setup4DOutput uncropped_multislice_pars) !! 2%nat = Some 4
   /\ data_dims (setup4DOutput uncropped_multislice_pars) !! 3%nat = Some 6
   /\ offset_qx (setup4DOutput uncropped_multislice_pars) = 2%Z
   /\ offset_qy (setup4DOutput uncropped_multislice_pars) = 3%Z)
  /\ (data_dims (setup4DOutput uncropped_prism_pars) !! 2%nat = Some 7
      /\ data_dims (setup4DOutput uncropped_prism_pars) !! 3%nat = Some 7
      /\ offset_qx (setup4DOutput uncropped_prism_pars) = 0%Z
      /\ offset_qy (setup4DOutput uncropped_prism_pars) = 0%Z).
Proof.
  split.
  - apply (C6_uncropped_extent uncropped_multislice_pars); reflexivity.
  - apply (C6_uncropped_extent uncropped_prism_pars); [reflexivity|].
    vm_compute. congruence.
Defined.

(** * Counted loops: reasoning by invariant *)

Section Loops.
Context {St : Type}.

Lemma for_loop_invariant (Inv : nat -> St -> Prop)
    (body : nat -> St -> option St) (n i0 : nat) (s : St) :
  Inv i0 s ->
  (forall i s, (i0 <= i < i0 + n)%nat -> Inv i s ->
     exists s', body i s = Some s' /\ Inv (S i) s') ->
  exists s', for_loop n i0 body s = Some s' /\ Inv (i0 + n)%nat s'.
Proof.
  revert i0 s. induction n as [|n IH]; intros i0 s H0 Hstep.
  - exists s. rewrite Nat.add_0_r. done.
  - destruct (Hstep i0 s) as (s1 & Hb & H1); [lia|done|].
    destruct (IH (S i0) s1) as (s2 & Hl & H2); [done| |].
    + intros i s' Hi. apply Hstep. lia.
    + exists s2. simpl. rewrite Hb. split; [done|].
      by replace (i0 + S n)%nat with (S i0 + n)%nat by lia.
Qed.

Lemma for_int_invariant (Inv : nat -> St -> Prop)
    (body : nat -> St -> option St) (n : N) (s : St) :
  n <= INT_MAX ->
  Inv 0%nat s ->
  (forall i s, (i < N.to_nat n)%nat -> Inv i s ->
     exists s', body i s = Some s' /\ Inv (S i) s') ->
  exists s', for_int n body s = Some s' /\ Inv (N.to_nat n) s'.
Proof.
  intros Hn H0 Hstep. unfold for_int, for_range.
  apply N.leb_le in Hn. rewrite Hn. rewrite Nat.sub_0_r.
  apply (for_loop_invariant Inv body (N.to_nat n) 0 s H0).
  intros i s' Hi. apply Hstep. lia.
Qed.

Lemma for_loop_fails (body : nat -> St -> option St) (i : nat) :
  (forall s, body i s = None) ->
  forall n i0 s, (i0 <= i < i0 + n)%nat -> for_loop n i0 body s = None.
Proof.
  intros Hbody. induction n as [|n IH]; intros i0 s Hi; [lia|].
  simpl. destruct (decide (i0 = i)) as [->|?]; [by rewrite Hbody|].
  destruct (body i0 s); [|done]. apply IH. lia.
Qed.

End Loops.

(** * Properties of writeDatacube4D *)

Section Write4D.
Context {T : Type} {pfp : PFP T}.

Lemma divide_buffer_spec (total : N) (numFP : T) (buffer : list T) :
  total <= INT_MAX ->
  (N.to_nat total <= length buffer)%nat ->
  exists b', divide_buffer total numFP buffer = Some b'
    /\ length b' = length buffer
    /\ forall k v, (k < N.to_nat total)%nat -> buffer !! k = Some v ->
         b' !! k = Some (pdiv v numFP).
Proof.
  intros Hmax Hlen. unfold divide_buffer.
  destruct (for_int_invariant
    (fun i b => length b = length buffer
       /\ (forall k v, (k < i)%nat -> buffer !! k = Some v ->
             b !! k = Some (pdiv v numFP))
       /\ (forall k, (i <= k)%nat -> b !! k = buffer !! k))
    (fun i b => v ← b !! i; Some (<[i := pdiv v numFP]> b))
    total buffer Hmax) as (b' & Hb' & Hl & Hlow & _).
  - split; [done|]. split; [lia|done].
  - intros i b Hi (Hl & Hlow & Hhigh).
    destruct (lookup_lt_is_Some_2 buffer i) as [v Hv]; [lia|].
    exists (<[i := pdiv v numFP]> b).
    rewrite Hhigh by lia. rewrite Hv. simpl. split; [done|].
    split; [by rewrite length_insert|]. split.
    + intros k w Hk Hw. destruct (decide (k = i)) as [->|Hne].
      * rewrite list_lookup_insert_eq by lia. congruence.
      * rewrite list_lookup_insert_ne by done. apply Hlow; [lia|done].
    + intros k Hk. rewrite list_lookup_insert_ne by lia. apply Hhigh. lia.
  - exists b'. done.
Qed.

Lemma index_bound (i j n2 n3 : nat) :
  (i < n2)%nat -> (j < n3)%nat -> (i * n3 + j < n2 * n3)%nat.
Proof.
  intros Hi Hj.
  assert ((i + 1) * n3 <= n2 * n3)%nat by (apply Nat.mul_le_mono_r; lia).
  lia.
Qed.

Lemma index_bound' (i j n2 n3 : nat) :
  (i < n2)%nat -> (j < n3)%nat -> (j * n2 + i < n2 * n3)%nat.
Proof. intros Hi Hj. pose proof (index_bound j i n3 n2 Hj Hi). lia. Qed.

Lemma restride_spec (buffer : list T) (d2 d3 : N) (fb0 : list cell) :
  d2 <= INT_MAX -> d3 <= INT_MAX ->
  (N.to_nat d2 * N.to_nat d3 <= length buffer)%nat ->
  (N.to_nat d2 * N.to_nat d3 <= length fb0)%nat ->
  exists fb, restride buffer d2 d3 fb0 = Some fb
    /\ length fb = length fb0
    /\ (forall i j v, (i < N.to_nat d2)%nat -> (j < N.to_nat d3)%nat ->
          buffer !! (j * N.to_nat d2 + i)%nat = Some v ->
          fb !! (i * N.to_nat d3 + j)%nat = Some (Some v))
    /\ (forall k, (N.to_nat d2 * N.to_nat d3 <= k)%nat -> fb !! k = fb0 !! k).
Proof.
  intros H2 H3 Hbuf Hfb.
  set (n2 := N.to_nat d2) in *. set (n3 := N.to_nat d3) in *.
  pose (Inv := fun (i j : nat) (fb : list cell) =>
    length fb = length fb0
    /\ (forall i' j' v, (j' < n3)%nat -> (i' < i \/ (i' = i /\ j' < j))%nat ->
          buffer !! (j' * n2 + i')%nat = Some v ->
          fb !! (i' * n3 + j')%nat = Some (Some v))
    /\ (forall k, (i * n3 + j <= k)%nat -> fb !! k = fb0 !! k)).
  unfold restride.
  destruct (for_int_invariant (fun i fb => Inv i 0%nat fb)
    (fun i => for_int d3 (fun j => restride_assign buffer d2 d3 i j))
    d2 fb0 H2) as (fb & Hfb' & Hl & Hlow & Hhigh).
  - split; [done|]. split; [|done]. intros i' j' v _ [?|[_ ?]]; lia.
  - intros i fb Hi Hinv. fold n2 in Hi.
    destruct (for_int_invariant (fun j fb => Inv i j fb)
      (fun j => restride_assign buffer d2 d3 i j) d3 fb H3 Hinv)
      as (fb' & Hrow & Hl & Hlow & Hhigh).
    + intros j fb1 Hj (Hl & Hlow & Hhigh). fold n3 in Hj.
      pose proof (index_bound i j n2 n3 Hi Hj) as Hb1.
      pose proof (index_bound' i j n2 n3 Hi Hj) as Hb2.
      destruct (lookup_lt_is_Some_2 buffer (j * n2 + i)%nat) as [v Hv]; [lia|].
      exists (<[(i * n3 + j)%nat := Some v]> fb1).
      unfold restride_assign. fold n2 n3. rewrite Hv. simpl.
      rewrite decide_True by lia. split; [done|].
      split; [by rewrite length_insert|]. split.
      * intros i' j' w Hj' Hij Hw.
        destruct (decide (i' = i /\ j' = j)) as [[-> ->]|Hne].
        -- assert (Hlt0 : (i * n3 + j < length fb1)%nat) by lia. rewrite list_lookup_insert_eq by exact Hlt0. congruence.
        -- assert (Hidx : (i * n3 + j)%nat <> (i' * n3 + j')%nat).
           { destruct Hij as [Hlt|[-> Hlt]]; [|lia].
             assert ((i' + 1) * n3 <= i * n3)%nat by (apply Nat.mul_le_mono_r; lia).
             lia. }
           rewrite list_lookup_insert_ne by done.
           apply Hlow; [done| |done]. lia.
      * intros k Hk. rewrite list_lookup_insert_ne by lia. apply Hhigh. lia.
    + exists fb'. split; [done|]. fold n3 in Hlow, Hhigh.
      split; [done|]. split.
      * intros i' j' v Hj' Hij. apply Hlow; [done|]. lia.
      * intros k Hk. apply Hhigh. lia.
  - exists fb. split; [done|]. split; [done|]. split.
    + intros i j v Hi Hj. apply Hlow; [done|]. lia.
    + intros k Hk. apply Hhigh. lia.
Qed.

Lemma add_read_spec (total : N) (rb fb : list cell) :
  total <= INT_MAX ->
  (N.to_nat total <= length fb)%nat ->
  (N.to_nat total <= length rb)%nat ->
  exists fb', add_read total rb fb = Some fb'
    /\ length fb' = length fb
    /\ forall k x y, (k < N.to_nat total)%nat ->
         fb !! k = Some x -> rb !! k = Some y ->
         fb' !! k = Some (cell_add x y).
Proof.
  intros Hmax Hfb Hrb. unfold add_read.
  destruct (for_int_invariant
    (fun i b => length b = length fb
       /\ (forall k x y, (k < i)%nat -> fb !! k = Some x -> rb !! k = Some y ->
             b !! k = Some (cell_add x y))
       /\ (forall k, (i <= k)%nat -> b !! k = fb !! k))
    (fun i b => x ← b !! i; y ← rb !! i; Some (<[i := cell_add x y]> b))
    total fb Hmax) as (b' & Hb' & Hl & Hlow & _).
  - split; [done|]. split; [lia|done].
  - intros i b Hi (Hl & Hlow & Hhigh).
    destruct (lookup_lt_is_Some_2 fb i) as [x Hx]; [lia|].
    destruct (lookup_lt_is_Some_2 rb i) as [y Hy]; [lia|].
    exists (<[i := cell_add x y]> b).
    rewrite Hhigh by lia. rewrite Hx. simpl. rewrite Hy. simpl.
    split; [done|]. split; [by rewrite length_insert|]. split.
    + intros k x' y' Hk Hx' Hy'. destruct (decide (k = i)) as [->|Hne].
      * rewrite list_lookup_insert_eq by lia. congruence.
      * rewrite list_lookup_insert_ne by done. apply Hlow; [lia|done|done].
    + intros k Hk. rewrite list_lookup_insert_ne by lia. apply Hhigh. lia.
  - exists b'. done.
Qed.

Lemma wrap64_mul_l (x y : N) : wrap64 (wrap64 x * y) = wrap64 (x * y).
Proof. unfold wrap64. apply N.Div0.mul_mod_idemp_l. Qed.

Lemma total_no_wrap (d0 d1 d2 d3 : N) :
  d0 * d1 * d2 * d3 <= INT_MAX ->
  wrap64 (wrap64 (wrap64 (d0 * d1) * d2) * d3) = d0 * d1 * d2 * d3.
Proof.
  intros H. rewrite (wrap64_mul_l (d0 * d1) d2).
  rewrite (wrap64_mul_l (d0 * d1 * d2) d3). apply wrap64_small.
  pose proof INT_MAX_lt. assert (2 ^ 63 < 2 ^ 64) by reflexivity. lia.
Qed.

Lemma plane_fits (d0 d1 d2 d3 : N) :
  0 < d0 -> 0 < d1 ->
  (N.to_nat d2 * N.to_nat d3 <= N.to_nat (d0 * d1 * d2 * d3))%nat.
Proof.
  intros H0 H1. rewrite !N2Nat.inj_mul.
  assert (1 <= N.to_nat d0 * N.to_nat d1)%nat by nia.
  rewrite <- Nat.mul_assoc.
  rewrite <- (Nat.mul_1_l (N.to_nat d2 * N.to_nat d3)) at 1.
  by apply Nat.mul_le_mono_r.
Qed.

(** What one call does, for any region whose two leading extents are not
    zero. *)
Lemma writeDatacube4D_spec (prior buffer : list T) (d0 d1 d2 d3 : N)
    (offset : list N) (numFP : T) :
  0 < d0 -> 0 < d1 ->
  d2 <= INT_MAX -> d3 <= INT_MAX ->
  d0 * d1 * d2 * d3 <= INT_MAX ->
  (N.to_nat (d0 * d1 * d2 * d3) <= length buffer)%nat ->
  length prior = N.to_nat (d0 * d1 * d2 * d3) ->
  exists buffer' written,
    writeDatacube4D (Some <$> prior) buffer [d0; d1; d2; d3] offset numFP
    = Some (buffer', written,
            [SLock; SSelect [d0; d1; d2; d3] offset; SRead; SWrite written;
             SFlushDataset; SFlushGroup; SFlushFile; SUnlock])
    /\ length written = N.to_nat (d0 * d1 * d2 * d3)
    /\ (forall i j b r,
          (i < N.to_nat d2)%nat -> (j < N.to_nat d3)%nat ->
          buffer !! (j * N.to_nat d2 + i)%nat = Some b ->
          prior !! (i * N.to_nat d3 + j)%nat = Some r ->
          written !! (i * N.to_nat d3 + j)%nat
          = Some (Some (padd (pdiv b numFP) r)))
    /\ (forall k,
          (N.to_nat d2 * N.to_nat d3 <= k < N.to_nat (d0 * d1 * d2 * d3))%nat ->
          written !! k = Some None).
Proof.
  intros H0 H1 H2 H3 HP Hbuf Hprior.
  pose proof (plane_fits d0 d1 d2 d3 H0 H1) as Hplane.
  unfold writeDatacube4D. simpl. rewrite total_no_wrap by done.
  set (P := N.to_nat (d0 * d1 * d2 * d3)) in *.
  set (n2 := N.to_nat d2) in *. set (n3 := N.to_nat d3) in *.
  destruct (divide_buffer_spec (d0 * d1 * d2 * d3) numFP buffer HP Hbuf)
    as (b' & -> & Hlb & Hdiv). simpl.
  destruct (restride_spec b' d2 d3 (replicate P None) H2 H3)
    as (fb & -> & Hlfb & Hlow & Hhigh).
  { fold n2 n3. lia. }
  { fold n2 n3. rewrite length_replicate. lia. }
  simpl. rewrite length_replicate in Hlfb.
  rewrite decide_True by (rewrite length_fmap; done). simpl.
  destruct (add_read_spec (d0 * d1 * d2 * d3) (Some <$> prior) fb HP)
    as (written & -> & Hlw & Hadd).
  { fold P. lia. }
  { fold P. rewrite length_fmap. lia. }
  simpl. exists b', written. split; [done|]. split; [lia|].
  fold P in Hadd, Hdiv. fold n2 n3 in Hlow, Hhigh. split.
  - intros i j b r Hi Hj Hb Hr.
    pose proof (index_bound i j n2 n3 Hi Hj).
    pose proof (index_bound' i j n2 n3 Hi Hj).
    apply (Hadd (i * n3 + j)%nat (Some (pdiv b numFP)) (Some r)); [lia| |].
    + apply Hlow; [done|done|]. apply Hdiv; [lia|done].
    + rewrite list_lookup_fmap, Hr. done.
  - intros k Hk.
    destruct (lookup_lt_is_Some_2 (Some <$> prior) k) as [y Hy].
    { rewrite length_fmap. lia. }
    apply (Hadd k None y); [lia| |done].
    rewrite Hhigh by lia. apply lookup_replicate_2. lia.
Qed.

End Write4D.

Section Write4DTheorems.
Context {T : Type} {pfp : PFP T}.

Lemma plane_index (k n2 n3 : nat) :
  (k < n2 * n3)%nat ->
  exists i j, (i < n2)%nat /\ (j < n3)%nat /\ k = (i * n3 + j)%nat.
Proof.
  intros Hk. assert (Hn3 : (n3 <> 0)%nat) by lia.
  exists (k / n3)%nat, (k mod n3)%nat. split; [|split].
  - apply Nat.Div0.div_lt_upper_bound. lia.
  - by apply Nat.mod_upper_bound.
  - pose proof (Nat.div_mod_eq k n3). lia.
Qed.

Lemma factors_le (d0 d1 d2 d3 : N) :
  0 < d0 -> 0 < d1 -> 0 < d2 -> 0 < d3 ->
  d2 <= d0 * d1 * d2 * d3 /\ d3 <= d0 * d1 * d2 * d3
  /\ d0 * d1 * (d2 * d3) = d0 * d1 * d2 * d3.
Proof.
  intros H0 H1 H2 H3.
  assert (0 < d0 * d1) by (by apply N.mul_pos_pos).
  generalize dependent (d0 * d1). intros a Ha.
  assert (0 < a * d2) by (by apply N.mul_pos_pos).
  assert (0 < a * d3) by (by apply N.mul_pos_pos).
  split; [|split]; nia.
Qed.

Lemma plane_cells_defined (prior buffer : list T) (written : list cell)
    (d2 d3 : N) (numFP : T) :
  (N.to_nat d2 * N.to_nat d3 <= length buffer)%nat ->
  (N.to_nat d2 * N.to_nat d3 <= length prior)%nat ->
  (forall i j b r,
     (i < N.to_nat d2)%nat -> (j < N.to_nat d3)%nat ->
     buffer !! (j * N.to_nat d2 + i)%nat = Some b ->
     prior !! (i * N.to_nat d3 + j)%nat = Some r ->
     written !! (i * N.to_nat d3 + j)%nat
     = Some (Some (padd (pdiv b numFP) r))) ->
  forall k, (k < N.to_nat d2 * N.to_nat d3)%nat ->
    exists v, written !! k = Some (Some v).
Proof.
  intros Hbuf Hprior Hcells k Hk.
  destruct (plane_index k _ _ Hk) as (i & j & Hi & Hj & ->).
  pose proof (index_bound' i j _ _ Hi Hj) as Hb.
  destruct (lookup_lt_is_Some_2 buffer (j * N.to_nat d2 + i)%nat) as [b Hbv]; [lia|].
  destruct (lookup_lt_is_Some_2 prior (i * N.to_nat d3 + j)%nat) as [r Hr]; [lia|].
  eexists. by apply (Hcells i j b r).
Qed.

End Write4DTheorems.

(** * Theorems: writeDatacube4D *)

(** C4, amended: for a region of one scan position (leading extents 1 and
    1) the call succeeds, takes the store-wide lock first and releases it
    last, and writes to the region, cell by cell, the sum of b / numFP
    with its two trailing axes transposed and the prior content of the
    region; the write is followed by the three flushes before the lock is
    released. *)
Theorem C4_single_position_write
    {T : Type} {pfp : PFP T} (prior buffer : list T) (d2 d3 : N)
    (offset : list N) (numFP : T) :
  d2 <= INT_MAX -> d3 <= INT_MAX -> d2 * d3 <= INT_MAX ->
  (N.to_nat (d2 * d3) <= length buffer)%nat ->
  length prior = N.to_nat (d2 * d3) ->
  exists buffer' written evs,
    writeDatacube4D (Some <$> prior) buffer [1; 1; d2; d3] offset numFP
    = Some (buffer', written, evs)
    /\ evs = [SLock; SSelect [1; 1; d2; d3] offset; SRead; SWrite written;
              SFlushDataset; SFlushGroup; SFlushFile; SUnlock]
    /\ lock_discipline false evs = true
    /\ length written = length prior
    /\ Forall is_Some written
    /\ forall i j b r,
         (i < N.to_nat d2)%nat -> (j < N.to_nat d3)%nat ->
         buffer !! (j * N.to_nat d2 + i)%nat = Some b ->
         prior !! (i * N.to_nat d3 + j)%nat = Some r ->
         written !! (i * N.to_nat d3 + j)%nat
         = Some (Some (padd (pdiv b numFP) r)).
Proof.
  intros H2 H3 HP Hbuf Hprior.
  assert (HP' : 1 * 1 * d2 * d3 = d2 * d3) by lia.
  destruct (writeDatacube4D_spec prior buffer 1 1 d2 d3 offset numFP)
    as (b' & written & Hrun & Hlen & Hcells & _);
    try (rewrite HP'); try done.
  rewrite HP' in Hlen.
  eexists b', written, _. split; [exact Hrun|]. split; [done|].
  split; [done|]. split; [lia|]. split; [|exact Hcells].
  apply Forall_lookup. intros k x Hx.
  assert (Hk : (k < N.to_nat d2 * N.to_nat d3)%nat).
  { apply lookup_lt_Some in Hx. rewrite N2Nat.inj_mul in Hlen.
    unfold cell in *. lia. }
  rewrite N2Nat.inj_mul in Hbuf, Hprior.
  destruct (plane_cells_defined prior buffer written d2 d3 numFP) with (k := k)
    as [v Hv]; [lia|lia|done|done|].
  assert (Hxv : Some x = Some (Some v)) by (etrans; [symmetry; exact Hx|exact Hv]).
  injection Hxv as ->. done.
Qed.

Lemma C4_witness :
  exists buffer' written evs,
    writeDatacube4D (Some <$> plane_prior) plane_buffer [1; 1; 2; 3]
      [0; 0; 0; 0] (2 # 1)%Q
    = Some (buffer', written, evs)
    /\ lock_discipline false evs = true
    /\ length written = length plane_prior
    /\ Forall is_Some written
    /\ written !! 1%nat = Some (Some (padd (pdiv 30 (2 # 1)) 2)%Q).
Proof.
  destruct (C4_single_position_write plane_prior plane_buffer 2 3
              [0; 0; 0; 0] (2 # 1)%Q)
    as (b & w & e & Hrun & _ & Hlock & Hlen & Hall & Hcells);
    [vm_compute; congruence|vm_compute; congruence|vm_compute; congruence
    |vm_compute; lia|reflexivity|].
  exists b, w, e. split; [exact Hrun|]. split; [exact Hlock|].
  split; [exact Hlen|]. split; [exact Hall|].
  apply (Hcells 0%nat 1%nat); [vm_compute; lia|vm_compute; lia
                              |reflexivity|reflexivity].
Defined.

(** C4 as stated fails for a region of more than one scan position: with
    extents 2 x 1 x 1 x 1 the second cell that reaches the dataset is
    indeterminate, not the prior content plus b / numFP. *)
Lemma C4_counterexample :
  exists buffer' written evs,
    writeDatacube4D (Some <$> two_positions_prior) two_positions_buffer
      two_positions_dims [0; 0; 0; 0] (2 # 1)%Q
    = Some (buffer', written, evs)
    /\ written !! 1%nat = Some None
    /\ written !! 1%nat <> Some (Some (padd 1 (pdiv 6 (2 # 1)))%Q).
Proof.
  eexists _, _, _. split; [vm_compute; reflexivity|].
  split; [reflexivity|discriminate].
Qed.

(** C10: the re-striding loop assigns exactly the first d2 * d3 cells of
    the freshly allocated buffer and leaves the others indeterminate; the
    indeterminate cells are added to the on-disk content and written
    back; for a non-empty region every written cell is defined if and
    only if both leading extents are 1. *)
Theorem C10_restride_covers_one_plane
    {T : Type} {pfp : PFP T} (prior buffer : list T) (d0 d1 d2 d3 : N) (offset : list N) (numFP : T) :
  0 < d0 -> 0 < d1 -> 0 < d2 -> 0 < d3 ->
  d0 * d1 * d2 * d3 <= INT_MAX ->
  (N.to_nat (d0 * d1 * d2 * d3) <= length buffer)%nat ->
  length prior = N.to_nat (d0 * d1 * d2 * d3) ->
  (exists finalBuffer,
     restride buffer d2 d3 (replicate (N.to_nat (d0 * d1 * d2 * d3)) None)
     = Some finalBuffer
     /\ (forall k, (k < N.to_nat (d2 * d3))%nat ->
           exists v, finalBuffer !! k = Some (Some v))
     /\ (forall k, (N.to_nat (d2 * d3) <= k < N.to_nat (d0 * d1 * d2 * d3))%nat ->
           finalBuffer !! k = Some None))
  /\ (exists buffer' written evs,
        writeDatacube4D (Some <$> prior) buffer [d0; d1; d2; d3] offset numFP
        = Some (buffer', written, evs)
        /\ (forall k, (N.to_nat (d2 * d3) <= k < N.to_nat (d0 * d1 * d2 * d3))%nat ->
              written !! k = Some None)
        /\ (Forall is_Some written <-> d0 = 1 /\ d1 = 1)).
Proof.
  intros H0 H1 H2 H3 HP Hbuf Hprior.
  destruct (factors_le d0 d1 d2 d3 H0 H1 H2 H3) as (Hle2 & Hle3 & Hle01).
  assert (Hd2 : d2 <= INT_MAX) by lia.
  assert (Hd3 : d3 <= INT_MAX) by lia.
  pose proof (plane_fits d0 d1 d2 d3 H0 H1) as Hplane.
  rewrite (N2Nat.inj_mul d2 d3).
  split.
  - destruct (restride_spec buffer d2 d3
                (replicate (N.to_nat (d0 * d1 * d2 * d3)) None) Hd2 Hd3)
      as (fb & Hfb & Hl & Hlow & Hhigh); [lia|rewrite length_replicate; lia|].
    exists fb. split; [done|]. split.
    + intros k Hk. destruct (plane_index k _ _ Hk) as (i & j & Hi & Hj & ->).
      pose proof (index_bound' i j _ _ Hi Hj) as Hb.
      destruct (lookup_lt_is_Some_2 buffer (j * N.to_nat d2 + i)%nat) as [b Hbv]; [lia|].
      exists b. by apply Hlow.
    + intros k Hk. rewrite Hhigh by lia. apply lookup_replicate_2. lia.
  - destruct (writeDatacube4D_spec prior buffer d0 d1 d2 d3 offset numFP)
      as (b' & written & Hrun & Hlen & Hcells & Hrest); try done.
    eexists b', written, _. split; [exact Hrun|]. split; [exact Hrest|].
    split.
    + intros Hall.
      destruct (decide (d0 * d1 = 1)) as [He|Hne].
      { apply N.eq_mul_1 in He. done. }
      exfalso.
      assert (Hk : (N.to_nat d2 * N.to_nat d3 < N.to_nat (d0 * d1 * d2 * d3))%nat).
      { rewrite <- N2Nat.inj_mul. rewrite <- Hle01.
        assert (0 < d2 * d3) by (by apply N.mul_pos_pos).
        assert (0 < d0 * d1) by (by apply N.mul_pos_pos).
        assert (2 <= d0 * d1) by lia. nia. }
      assert (Hbad : written !! (N.to_nat d2 * N.to_nat d3)%nat = Some None)
        by (apply Hrest; lia).
      pose proof (proj1 (Forall_lookup _ _) Hall _ _ Hbad) as [? ?]. done.
    + intros [-> ->]. apply Forall_lookup. intros k x Hx.
      assert (Hk : (k < N.to_nat d2 * N.to_nat d3)%nat).
      { apply lookup_lt_Some in Hx. rewrite <- N2Nat.inj_mul.
        replace (d2 * d3) with (1 * 1 * d2 * d3) by lia.
        unfold cell in *. lia. }
      destruct (plane_cells_defined prior buffer written d2 d3 numFP) with (k := k)
        as [v Hv]; [lia|lia|done|done|].
      assert (Hxv : Some x = Some (Some v)) by (etrans; [symmetry; exact Hx|exact Hv]).
      injection Hxv as ->. done.
Qed.

Lemma C10_witness :
  (exists finalBuffer,
     restride two_planes_buffer 2 3 (replicate 12 None) = Some finalBuffer
     /\ finalBuffer !! 6%nat = Some None)
  /\ (exists buffer' written evs,
        writeDatacube4D (Some <$> two_planes_prior) two_planes_buffer
          [2; 1; 2; 3] [0; 0; 0; 0] (2 # 1)%Q
        = Some (buffer', written, evs)
        /\ written !! 6%nat = Some None
        /\ ~ Forall is_Some written).
Proof.
  destruct (C10_restride_covers_one_plane two_planes_prior two_planes_buffer
              2 1 2 3 [0; 0; 0; 0] (2 # 1)%Q)
    as ((fb & Hfb & _ & Hrest) & (b & w & e & Hrun & Hw & Hiff));
    [reflexivity|reflexivity|reflexivity|reflexivity|vm_compute; congruence
    |vm_compute; lia|reflexivity|].
  split.
  - exists fb. split; [exact Hfb|]. apply Hrest. vm_compute. lia.
  - exists b, w, e. split; [exact Hrun|]. split.
    + apply Hw. vm_compute. lia.
    + intros Hall. apply Hiff in Hall as [Hd0 _]. discriminate Hd0.
Defined.


(** * Properties of writeVirtualDataSet *)

Section Stitch.
Context {T : Type} {pfp : PFP T}.

Lemma max_indices_spec (indices : list (list N)) (m : nat) :
  N.of_nat (length indices) <= INT_MAX ->
  N.of_nat m <= INT_MAX ->
  (forall t, t ∈ indices -> length t = m) ->
  exists mx, max_indices indices (N.of_nat m) = Some mx
    /\ length mx = m
    /\ forall j, (j < m)%nat ->
         exists v, mx !! j = Some v
           /\ (forall t x, t ∈ indices -> t !! j = Some x -> x <= v)
           /\ (v = 0 \/ exists t, t ∈ indices /\ t !! j = Some v).
Proof.
  intros Hn Hm Hlen.
  pose (Inv := fun (i j : nat) (mx : list N) =>
    length mx = m
    /\ forall j', (j' < m)%nat ->
         exists v, mx !! j' = Some v
           /\ (forall i' t x, (i' < i \/ (i' = i /\ j' < j))%nat ->
                 indices !! i' = Some t -> t !! j' = Some x -> x <= v)
           /\ (v = 0 \/ exists t, t ∈ indices /\ t !! j' = Some v)).
  unfold max_indices.
  destruct (for_int_invariant (fun i mx => Inv i 0%nat mx)
    (fun i => for_int (N.of_nat m) (fun j => update_max indices i j))
    (N.of_nat (length indices)) (replicate (N.to_nat (N.of_nat m)) 0) Hn)
    as (mx & Hrun & Hl & Hcols).
  - rewrite Nat2N.id. split; [by rewrite length_replicate|].
    intros j' Hj'. exists 0. split; [by apply lookup_replicate_2|].
    split; [|by left]. intros i' t x [?|[_ ?]]; lia.
  - intros i mx Hi Hinv. rewrite Nat2N.id in Hi.
    destruct (lookup_lt_is_Some_2 indices i Hi) as [t Ht].
    assert (Htin : t ∈ indices) by (by eapply list_elem_of_lookup_2).
    pose proof (Hlen t Htin) as Htl.
    destruct (for_int_invariant (fun j mx => Inv i j mx)
      (fun j => update_max indices i j) (N.of_nat m) mx Hm Hinv)
      as (mx' & Hrow & Hl & Hcols).
    + intros j mx1 Hj (Hl & Hcols). rewrite Nat2N.id in Hj.
      destruct (lookup_lt_is_Some_2 t j) as [x Hx]; [lia|].
      destruct (Hcols j Hj) as (v & Hv & Hub & Hach).
      exists (<[j := if v <? x then x else v]> mx1).
      unfold update_max. rewrite Ht. simpl. rewrite Hx. simpl.
      rewrite Hv. simpl. split; [done|].
      split; [by rewrite length_insert|].
      intros j' Hj'. destruct (decide (j' = j)) as [->|Hne].
      * exists (if v <? x then x else v).
        split; [apply list_lookup_insert_eq; lia|].
        destruct (N.ltb_spec v x) as [Hlt|Hge]; split.
        -- intros i' t' x' [Hi'|[-> _]] Ht' Hx'.
           ++ pose proof (Hub i' t' x' (or_introl Hi') Ht' Hx'). lia.
           ++ assert (t' = t) by congruence. subst t'.
              assert (x' = x) by congruence. lia.
        -- right. exists t. done.
        -- intros i' t' x' [Hi'|[-> Hlt]] Ht' Hx'.
           ++ apply (Hub i' t' x'); [by left|done|done].
           ++ assert (t' = t) by congruence. subst t'.
              destruct (decide (j < j)%nat); [lia|].
              assert (x' = x) by congruence. lia.
        -- done.
      * destruct (Hcols j' Hj') as (v' & Hv' & Hub' & Hach').
        exists v'. split; [by rewrite list_lookup_insert_ne|].
        split; [|done]. intros i' t' x' Hij. apply Hub'. lia.
    + exists mx'. split; [done|]. rewrite Nat2N.id in Hcols.
      split; [done|]. intros j' Hj'.
      destruct (Hcols j' Hj') as (v & Hv & Hub & Hach).
      exists v. split; [done|]. split; [|done].
      intros i' t' x' Hij. apply Hub. lia.
  - exists mx. split; [done|]. split; [done|].
    rewrite Nat2N.id in Hcols. intros j Hj.
    destruct (Hcols j Hj) as (v & Hv & Hub & Hach).
    exists v. split; [done|]. split; [|done].
    intros t x Htin Hx. apply list_elem_of_lookup_1 in Htin as [i Hi].
    apply (Hub i t x); [|done|done]. left. by eapply lookup_lt_Some.
Qed.

Lemma offset_loop_spec (t : list N) (rank m : nat) (off : list N) :
  N.of_nat rank + N.of_nat m <= INT_MAX ->
  length t = m ->
  length off = (rank + m)%nat ->
  for_range rank (N.of_nat rank + N.of_nat m)
    (fun j off => x ← t !! (j - rank)%nat;
                  if decide (j < length off)%nat
                  then Some (<[j := x]> off) else None) off
  = Some (take rank off ++ t).
Proof.
  intros Hmax Ht Hoff. unfold for_range.
  apply N.leb_le in Hmax. rewrite Hmax.
  replace (N.to_nat (N.of_nat rank + N.of_nat m) - rank)%nat with m by lia.
  destruct (for_loop_invariant
    (fun j o => length o = (rank + m)%nat
       /\ take rank o = take rank off
       /\ forall j', (rank <= j' < j)%nat -> o !! j' = t !! (j' - rank)%nat)
    (fun j off => x ← t !! (j - rank)%nat;
                  if decide (j < length off)%nat
                  then Some (<[j := x]> off) else None)
    m rank off) as (o & Hrun & Hl & Htake & Hnew).
  - split; [done|]. split; [done|]. intros j' ?. lia.
  - intros j o Hj (Hl & Htake & Hnew).
    destruct (lookup_lt_is_Some_2 t (j - rank)%nat) as [x Hx]; [lia|].
    exists (<[j := x]> o). rewrite Hx. simpl.
    rewrite decide_True by lia. split; [done|].
    split; [by rewrite length_insert|]. split.
    + rewrite take_insert_ge by lia. done.
    + intros j' Hj'. destruct (decide (j' = j)) as [->|Hne].
      * rewrite list_lookup_insert_eq by lia. done.
      * rewrite list_lookup_insert_ne by done. apply Hnew. lia.
  - rewrite Hrun. f_equal. apply list_eq. intros k.
    destruct (decide (k < rank)%nat) as [Hk|Hk].
    + rewrite lookup_app_l by (rewrite length_take; lia).
      rewrite <- Htake. by rewrite lookup_take_lt.
    + rewrite lookup_app_r by (rewrite length_take; lia).
      rewrite length_take. replace (rank `min` length off)%nat with rank by lia.
      destruct (decide (k < rank + m)%nat) as [Hk2|Hk2].
      * apply Hnew. lia.
      * rewrite !lookup_ge_None_2; [done|lia|lia].
Qed.

Lemma npoints_app_ones (e : list N) (m : nat) :
  npoints (e ++ replicate m 1) = npoints e.
Proof.
  unfold npoints. rewrite foldr_app. f_equal.
  induction m as [|m IH]; [done|]. simpl. rewrite IH. lia.
Qed.

Lemma map_loop_spec (file : @H5File T) (datasets : list string)
    (indices : list (list N)) (rank m : nat) (mdims_ind : list N) :
  N.of_nat (length datasets) <= INT_MAX ->
  N.of_nat rank + N.of_nat m <= INT_MAX ->
  length indices = length datasets ->
  (forall t, t ∈ indices -> length t = m) ->
  (forall ds, ds ∈ datasets ->
     exists sp, getSpace file ds = Some sp
                /\ npoints sp = npoints mdims_ind) ->
  exists st,
    for_int (N.of_nat (length datasets))
      (map_source file datasets indices rank (N.of_nat m) mdims_ind)
      (replicate (rank + m) 0, [])
    = Some st
    /\ length st.2 = length datasets
    /\ forall i ds t sp,
         datasets !! i = Some ds -> indices !! i = Some t ->
         getSpace file ds = Some sp ->
         st.2 !! i
         = Some (mkVMapping (replicate rank 0 ++ t) mdims_ind
                   (file_name file) ds sp).
Proof.
  intros Hn Hr Hlen Htup Hsp.
  destruct (for_int_invariant
    (fun i (st : list N * list VMapping) =>
       length st.1 = (rank + m)%nat
       /\ take rank st.1 = replicate rank 0
       /\ length st.2 = i
       /\ forall i' ds t sp, (i' < i)%nat ->
            datasets !! i' = Some ds -> indices !! i' = Some t ->
            getSpace file ds = Some sp ->
            st.2 !! i'
            = Some (mkVMapping (replicate rank 0 ++ t) mdims_ind
                      (file_name file) ds sp))
    (map_source file datasets indices rank (N.of_nat m) mdims_ind)
    (N.of_nat (length datasets)) (replicate (rank + m) 0, []) Hn)
    as (st & Hrun & _ & _ & Hl & Hmaps).
  - simpl. split; [by rewrite length_replicate|]. split.
    + rewrite take_replicate. f_equal. lia.
    + split; [done|]. intros i' ? ? ? ?. lia.
  - intros i [off plist] Hi (Hoff & Htake & Hpl & Hmaps). simpl in *.
    rewrite Nat2N.id in Hi.
    destruct (lookup_lt_is_Some_2 datasets i Hi) as [ds Hds].
    destruct (lookup_lt_is_Some_2 indices i) as [t Ht]; [lia|].
    destruct (Hsp ds) as (sp & Hspace & Hcount);
      [by eapply list_elem_of_lookup_2|].
    assert (Htl : length t = m) by (apply Htup; by eapply list_elem_of_lookup_2).
    unfold map_source. rewrite Hds. simpl. rewrite Hspace. simpl.
    rewrite Ht. simpl.
    rewrite (offset_loop_spec t rank m off Hr Htl Hoff). simpl.
    rewrite decide_True by done.
    rewrite Htake. eexists. split; [done|]. simpl.
    split; [rewrite length_app, length_replicate; lia|].
    split; [by rewrite take_app_length' by (by rewrite length_replicate)|].
    split; [rewrite length_app; simpl; lia|].
    intros i' ds' t' sp' Hi' Hds' Ht' Hsp'.
    destruct (decide (i' = i)) as [->|Hne].
    + rewrite lookup_app_r by lia. rewrite Hpl, Nat.sub_diag. simpl.
      congruence.
    + rewrite lookup_app_l by lia. apply Hmaps; [lia|done|done|done].
  - exists st. split; [done|]. rewrite Nat2N.id in Hl, Hmaps.
    split; [done|]. intros i ds t sp Hds Ht Hspace.
    apply Hmaps; [by eapply lookup_lt_Some|done|done|done].
Qed.

(** What one stitch does when every handle is an open dataset with as
    many elements as the first source; the ranks and extents of the
    sources are not required to agree with each other. *)
Lemma writeVirtualDataSet_spec (file : @H5File T) (group dsetName : string)
    (datasets : list string) (indices : list (list N))
    (ds0 : string) (e : list N) (m : nat) :
  datasets !! 0%nat = Some ds0 ->
  getSpace file ds0 = Some e ->
  length indices = length datasets ->
  Forall (fun t => length t = m) indices ->
  Forall (fun ds => exists sp, getSpace file ds = Some sp
                               /\ npoints sp = npoints e) datasets ->
  N.of_nat (length datasets) <= INT_MAX ->
  N.of_nat (length e) + N.of_nat m <= INT_MAX ->
  objects file !! (group +:+ "/" +:+ dsetName)%string = None ->
  exists mx maps,
    writeVirtualDataSet file group dsetName datasets indices
    = Some (mkH5File (file_name file)
              (<[(group +:+ "/" +:+ dsetName)%string :=
                   H5Virtual (e ++ ((fun v => wrap64 (v + 1)) <$> mx)) maps]>
                 (objects file)))
    /\ length mx = m
    /\ (forall j, (j < m)%nat ->
          exists v, mx !! j = Some v /\ max_index_along indices j v)
    /\ length maps = length datasets
    /\ (forall i ds t sp,
          datasets !! i = Some ds -> indices !! i = Some t ->
          getSpace file ds = Some sp ->
          maps !! i
          = Some (mkVMapping (replicate (length e) 0 ++ t)
                    (e ++ replicate m 1) (file_name file) ds sp)).
Proof.
  intros Hds0 He Hlen Htup Hsp Hn Hr Hfree.
  rewrite list.Forall_forall in Htup. rewrite list.Forall_forall in Hsp.
  assert (Hpos : (0 < length datasets)%nat) by (by eapply lookup_lt_Some).
  destruct (lookup_lt_is_Some_2 indices 0%nat) as [t0 Ht0]; [lia|].
  assert (Ht0in : t0 ∈ indices) by (by eapply list_elem_of_lookup_2).
  pose proof (Htup t0 Ht0in) as Ht0l.
  destruct (max_indices_spec indices m) as (mx & Hmx & Hmxl & Hcols);
    [lia|lia|done|].
  destruct (map_loop_spec file datasets indices (length e) m
              (e ++ replicate m 1) Hn Hr Hlen Htup)
    as (st & Hst & Hstl & Hmaps).
  { intros ds Hin. destruct (Hsp ds Hin) as (sp & Hspace & Hcount).
    exists sp. by rewrite npoints_app_ones. }
  unfold writeVirtualDataSet. rewrite Ht0. simpl. rewrite Ht0l, Hmx. simpl.
  rewrite Hds0. simpl. rewrite He. simpl. rewrite Nat2N.id, Hst. simpl.
  rewrite Hfree. exists mx, st.2. split; [done|]. split; [done|].
  split; [|done]. intros j Hj.
  destruct (Hcols j Hj) as (v & Hv & Hub & Hach).
  exists v. split; [done|]. split; [done|].
  destruct Hach as [->|Hach]; [|done].
  destruct (lookup_lt_is_Some_2 t0 j) as [x Hx]; [lia|].
  pose proof (Hub t0 x Ht0in Hx). assert (x = 0) by lia. subst x.
  exists t0. done.
Qed.


End Stitch.


(** * Theorems: writeVirtualDataSet *)

(** C7: for source datasets of common rank r and extents e, with one
    index tuple over m new axes per source, the stitch succeeds and the
    virtual dataset has rank r + m, extents e along the original axes,
    extent 1 + (the maximum index observed along that axis across all
    sources) along each new axis, and maps the whole of each source onto
    the hyperslab that is one element wide along every new axis and
    starts at that source's index tuple. *)
Theorem C7_stitched_shape {T : Type} {pfp : PFP T}
    (file : @H5File T) (group dsetName : string)
    (datasets : list string) (indices : list (list N))
    (e : list N) (m : nat) :
  datasets <> [] ->
  length indices = length datasets ->
  Forall (fun ds => getSpace file ds = Some e) datasets ->
  Forall (fun t => length t = m) indices ->
  Forall (Forall (fun x => x + 1 < 2 ^ 64)) indices ->
  N.of_nat (length datasets) <= INT_MAX ->
  N.of_nat (length e) + N.of_nat m <= INT_MAX ->
  objects file !! (group +:+ "/" +:+ dsetName)%string = None ->
  exists file' dims maps,
    writeVirtualDataSet file group dsetName datasets indices = Some file'
    /\ objects file' !! (group +:+ "/" +:+ dsetName)%string
       = Some (H5Virtual dims maps)
    /\ length dims = (length e + m)%nat
    /\ (forall a x, e !! a = Some x -> dims !! a = Some x)
    /\ (forall j, (j < m)%nat ->
          exists v, max_index_along indices j v
                    /\ dims !! (length e + j)%nat = Some (1 + v))
    /\ length maps = length datasets
    /\ (forall i ds t,
          datasets !! i = Some ds -> indices !! i = Some t ->
          maps !! i
          = Some (mkVMapping (replicate (length e) 0 ++ t)
                    (e ++ replicate m 1) (file_name file) ds e)).
Proof.
  intros Hne Hlen Hshape Htup Hsmall Hn Hr Hfree.
  destruct datasets as [|ds0 rest] eqn:Hds; [done|]. rewrite <- Hds in *.
  assert (Hds0 : datasets !! 0%nat = Some ds0) by (by rewrite Hds).
  rewrite list.Forall_forall in Hshape.
  assert (He : getSpace file ds0 = Some e).
  { apply Hshape. by eapply list_elem_of_lookup_2. }
  destruct (writeVirtualDataSet_spec file group dsetName datasets indices
              ds0 e m Hds0 He Hlen Htup) as (mx & maps & Hrun & Hmxl & Hcols & Hml & Hmaps);
    [|done|done|done|].
  { apply list.Forall_forall. intros ds Hin. exists e.
    by rewrite (Hshape ds Hin). }
  eexists _, _, maps. split; [exact Hrun|]. simpl.
  split; [by rewrite lookup_insert_eq|].
  split; [by rewrite length_app, length_fmap, Hmxl|].
  split; [intros a x Ha; by apply lookup_app_l_Some|].
  split; [|split; [done|]].
  - intros j Hj. destruct (Hcols j Hj) as (v & Hv & Hmax).
    exists v. split; [done|].
    rewrite lookup_app_r by lia.
    replace (length e + j - length e)%nat with j by lia.
    rewrite list_lookup_fmap, Hv. simpl. f_equal.
    destruct Hmax as [_ (t & Hin & Ht)].
    rewrite list.Forall_forall in Hsmall.
    pose proof (Hsmall t Hin) as Hts. rewrite list.Forall_forall in Hts.
    rewrite wrap64_small; [lia|]. apply Hts. by eapply list_elem_of_lookup_2.
  - intros i ds t Hi Ht. apply Hmaps; [done|done|].
    apply Hshape. by eapply list_elem_of_lookup_2.
Qed.

Lemma C7_witness :
  exists file' dims maps,
    writeVirtualDataSet depth_file "/supergroups/vd_depth_series" "supergroup"
      depth_handles (depthSeries_indices 4) = Some file'
    /\ objects file' !! "/supergroups/vd_depth_series/supergroup"
       = Some (H5Virtual dims maps)
    /\ length dims = 3%nat
    /\ dims !! 0%nat = Some 8 /\ dims !! 1%nat = Some 8
    /\ dims !! 2%nat = Some 4
    /\ maps !! 2%nat
       = Some (mkVMapping [0; 0; 2] [8; 8; 1] "out.h5"
                 "/realslices/virtual_detector_depth0002" [8; 8]).
Proof.
  destruct (C7_stitched_shape depth_file "/supergroups/vd_depth_series"
              "supergroup" depth_handles (depthSeries_indices 4) [8; 8] 1)
    as (f & dims & maps & Hrun & Hobj & Hlen & He & Hnew & _ & Hmaps).
  - discriminate.
  - reflexivity.
  - repeat constructor.
  - repeat constructor.
  - repeat constructor.
  - vm_compute. congruence.
  - vm_compute. congruence.
  - vm_compute. reflexivity.
  - exists f, dims, maps. split; [exact Hrun|]. split; [exact Hobj|].
    split; [exact Hlen|]. split; [by apply He|]. split; [by apply He|].
    split; [|by apply (Hmaps 2%nat)].
    destruct (Hnew 0%nat) as (v & [Hub (t & Hin & Ht)] & Hv); [lia|].
    assert (3 <= v) by (apply (Hub [3] 3); [repeat constructor|reflexivity]).
    assert (v <= 3).
    { unfold depthSeries_indices in Hin. simpl in Hin.
      repeat (apply elem_of_cons in Hin as [->|Hin]; [injection Ht as <-; lia|]).
      by apply elem_of_nil in Hin. }
    replace v with 3 in Hv by lia. exact Hv.
Defined.




(** * Properties of the threads *)

Section ThreadFacts.
Context {T : Type} {pfp : PFP T}.
Variable C : @Collaborators T.
Implicit Types (w : @World T) (p : @Parameters T) (st : @FPState T).

Lemma extends_refl w : extends w w.
Proof. split; [done|]. split; [done|]. exists []. by rewrite app_nil_r. Qed.

Lemma extends_trans w1 w2 w3 : extends w1 w2 -> extends w2 w3 -> extends w1 w3.
Proof.
  intros (Hf1 & Hi1 & evs1 & Ht1) (Hf2 & Hi2 & evs2 & Ht2).
  split; [congruence|]. split; [congruence|].
  exists (evs1 ++ evs2). rewrite Ht2, Ht1. by rewrite app_assoc.
Qed.

Lemma extends_emit e w : extends w (emit e w).
Proof. split; [done|]. split; [done|]. by exists [e]. Qed.

Lemma extends_with_parent f w : extends w (with_parent f w).
Proof. split; [done|]. split; [done|]. exists []. simpl. by rewrite app_nil_r. Qed.

Lemma extends_locked l f w :
  (forall w, extends w (f w)) -> extends w (locked l f w).
Proof.
  intros Hf. unfold locked.
  eapply extends_trans; [apply extends_emit|].
  eapply extends_trans; [apply Hf|]. apply extends_emit.
Qed.

Lemma extends_rand w : extends w (rand w).2.
Proof. split; [done|]. split; [done|]. exists []. simpl. by rewrite app_nil_r. Qed.

Lemma extends_run_kernel s k p w : extends w (run_kernel s k p w).2.
Proof. apply extends_emit. Qed.

Lemma extends_potential_stage p w : extends w (potential_stage C p w).2.
Proof.
  unfold potential_stage.
  destruct (negb _ || negb _); simpl.
  - eapply extends_trans; [apply extends_with_parent|].
    eapply extends_trans; [apply extends_emit|].
    apply extends_locked. intros. apply extends_with_parent.
  - apply extends_locked. intros. apply extends_emit.
Qed.

Lemma extends_PRISM_output p w : extends w (PRISM_output C p w).2.
Proof.
  unfold PRISM_output. simpl.
  eapply extends_trans; apply extends_emit.
Qed.

Lemma extends_Multislice_output p w : extends w (Multislice_output C p w).2.
Proof. apply extends_emit. Qed.

Section WithOutputStage.
Variable output_stage : @Parameters T -> @World T -> @Parameters T * @World T.
Hypothesis output_stage_extends : forall p w, extends w (output_stage p w).2.

Lemma extends_frozen_phonon_pass st fp_num :
  extends (fp_world st) (fp_world (frozen_phonon_pass C output_stage st fp_num)).
Proof.
  unfold frozen_phonon_pass.
  pose proof (extends_rand (fp_world st)) as H1.
  destruct (rand (fp_world st)) as [r w1]. simpl in H1. simpl.
  match goal with |- context [output_stage ?p ?w0] =>
    pose proof (output_stage_extends p w0) as H2;
    destruct (output_stage p w0) as [p2 w2] end.
  simpl in *.
  eapply extends_trans; [exact H1|].
  eapply extends_trans; [apply extends_emit|].
  eapply extends_trans; [apply extends_emit|].
  eapply extends_trans; [apply extends_with_parent|].
  eapply extends_trans; [exact H2|]. apply extends_emit.
Qed.

Lemma extends_frozen_phonon_loop passes st :
  extends (fp_world st)
    (fp_world (foldl (frozen_phonon_pass C output_stage) st passes)).
Proof.
  revert st. induction passes as [|i passes IH]; intros st; simpl.
  - apply extends_refl.
  - eapply extends_trans; [apply extends_frozen_phonon_pass|]. apply IH.
Qed.

Lemma extends_frozen_phonons tmeta p w :
  extends w (frozen_phonons C output_stage tmeta p w).2.
Proof.
  unfold frozen_phonons. destruct (1 <? numFP (meta p))%nat; simpl.
  - apply (extends_frozen_phonon_loop _ (mkFPState _ _ _ _ w)).
  - apply extends_refl.
Qed.

Lemma calculation_starts_with_the_lock tmeta p w :
  files (calculation C output_stage tmeta p w) = files w
  /\ exists rest,
       trace (calculation C output_stage tmeta p w)
       = trace w ++ EvAcquire calculationLock :: rest.
Proof.
  unfold calculation.
  set (w1 := emit (EvAcquire calculationLock) w).
  assert (Hgoal : forall w', extends w1 w' ->
            files w' = files w
            /\ exists rest, trace w' = trace w ++ EvAcquire calculationLock :: rest).
  { intros w' (Hf & _ & evs & Ht). split; [done|]. exists evs.
    rewrite Ht. simpl. by rewrite <- app_assoc. }
  destruct (potential_stage C _ _) as [p1 w2] eqn:Hps.
  destruct (output_stage p1 _) as [p2 w3] eqn:Hos.
  destruct (frozen_phonons C output_stage tmeta p2 _) as [[m4 p4] w4] eqn:Hfp.
  pose proof (extends_potential_stage (set_fpFlag 0 p)
                (emit (EvOpenOutput (filenameOutput (meta p)) true) w1)) as E2.
  rewrite Hps in E2.
  pose proof (output_stage_extends p1
                (with_parent (potentialReceived (pot p1)) w2)) as E3.
  rewrite Hos in E3.
  pose proof (extends_frozen_phonons tmeta p2 (emit EvCloseOutput w3)) as E4.
  rewrite Hfp in E4. simpl in E2, E3, E4.
  apply Hgoal.
  eapply extends_trans; [apply extends_emit|].
  eapply extends_trans; [exact E2|].
  eapply extends_trans; [apply extends_with_parent|].
  eapply extends_trans; [exact E3|].
  eapply extends_trans; [apply extends_emit|].
  eapply extends_trans; [exact E4|].
  eapply extends_trans; [apply extends_locked; intros; apply extends_with_parent|].
  eapply extends_trans; [apply extends_locked; intros; apply extends_refl|].
  eapply extends_trans; [apply extends_emit|].
  eapply extends_trans; [apply extends_with_parent|].
  apply extends_emit.
Qed.

(** The four ways the pre-flight check of a full run can go. *)
Lemma full_run_preflight reply tmeta w :
  let f := filenameOutput tmeta in
  let run := full_run C output_stage reply tmeta w in
  (f ∈ inaccessible w -> run = emit EvDiagnostic w)
  /\ (f ∉ inaccessible w -> is_Some (files w !! f) -> reply = false ->
        run = overwriteWarning false w)
  /\ (f ∉ inaccessible w -> is_Some (files w !! f) -> reply = true ->
        files run = delete f (files w)
        /\ exists rest,
             trace run
             = trace w ++ [EvOverwriteWarning; EvRemove f]
               ++ EvAcquire calculationLock :: rest)
  /\ (f ∉ inaccessible w -> files w !! f = None ->
        files run = files w
        /\ exists rest, trace run = trace w ++ EvAcquire calculationLock :: rest).
Proof.
  intros f run. subst run. unfold full_run, preflight. simpl.
  fold f. unfold testFilenameOutput.
  split; [|split; [|split]].
  - intros Hin. rewrite decide_True by done. done.
  - intros Hacc [c Hc] ->. rewrite decide_False by done. rewrite Hc. done.
  - intros Hacc [c Hc] ->. rewrite decide_False by done. rewrite Hc. simpl.
    match goal with |- context [calculation C output_stage tmeta ?p ?w0] =>
      destruct (calculation_starts_with_the_lock tmeta p w0) as (Hf & rest & Ht) end.
    split; [done|]. exists rest. rewrite Ht. simpl. by rewrite <- !app_assoc.
  - intros Hacc Hnone. rewrite decide_False by done. rewrite Hnone. simpl.
    apply calculation_starts_with_the_lock.
Qed.

End WithOutputStage.
End ThreadFacts.

(** * Theorems: the calculation threads *)

(** C9: in both full runs the output-path check comes first and has these
    outcomes.  An inaccessible target: the run ends with the diagnostic
    and nothing else happens, so no lock is taken.  An existing target:
    the overwrite request is put to the caller; on a refusal the run
    ends there, with the file system and so the existing file unchanged
    and no lock taken; on consent the file is deleted and only then is
    the calculation lock taken.  A usable target that does not exist:
    the run goes on to take the calculation lock. *)
Theorem C9_preflight_outcomes {T : Type} {pfp : PFP T}
    (C : @Collaborators T) (reply : bool) (tmeta : Metadata) (w run : World) :
  run = FullPRISMCalcThread_run C reply tmeta w
  \/ run = FullMultisliceCalcThread_run C reply tmeta w ->
  let f := filenameOutput tmeta in
  (f ∈ inaccessible w -> run = emit EvDiagnostic w)
  /\ (f ∉ inaccessible w -> is_Some (files w !! f) -> reply = false ->
        run = overwriteWarning false w)
  /\ (f ∉ inaccessible w -> is_Some (files w !! f) -> reply = true ->
        files run = delete f (files w)
        /\ exists rest,
             trace run
             = trace w ++ [EvOverwriteWarning; EvRemove f]
               ++ EvAcquire calculationLock :: rest)
  /\ (f ∉ inaccessible w -> files w !! f = None ->
        files run = files w
        /\ exists rest, trace run = trace w ++ EvAcquire calculationLock :: rest).
Proof.
  intros [->| ->].
  - apply full_run_preflight. apply extends_PRISM_output.
  - apply full_run_preflight. apply extends_Multislice_output.
Qed.

Lemma C9_witness :
  FullPRISMCalcThread_run toy_kernels false three_pass_meta inaccessible_world
  = emit EvDiagnostic inaccessible_world
  /\ FullPRISMCalcThread_run toy_kernels false three_pass_meta existing_world
     = overwriteWarning false existing_world
  /\ files (FullPRISMCalcThread_run toy_kernels false three_pass_meta existing_world)
       !! "out.h5"
     = Some [Byte.x48; Byte.x44; Byte.x46].
Proof.
  pose proof (C9_preflight_outcomes toy_kernels false three_pass_meta
                inaccessible_world _ (or_introl eq_refl)) as (H1 & _).
  pose proof (C9_preflight_outcomes toy_kernels false three_pass_meta
                existing_world _ (or_introl eq_refl)) as (_ & H2 & _).
  split; [apply H1; vm_compute; set_solver|].
  assert (H2' := H2 ltac:(vm_compute; set_solver)
                    ltac:(by eexists) eq_refl).
  split; [exact H2'|]. rewrite H2'. reflexivity.
Defined.

Section CacheFacts.
Context {T : Type} {pfp : PFP T}.

Lemma kernel_runs_app s (a b : list (@Event T)) :
  kernel_runs s (a ++ b) = (kernel_runs s a + kernel_runs s b)%nat.
Proof. unfold kernel_runs. by rewrite list.filter_app, length_app. Qed.


End CacheFacts.




Section Accumulation.
Context {T : Type} {pfp : PFP T}.
Variable C : @Collaborators T.

Lemma array_add_lookup (a b : Array) (k : nat) (x y : T) :
  a !! k = Some x -> b !! k = Some y ->
  array_add a b !! k = Some (padd x y).
Proof.
  intros Ha Hb. unfold array_add. apply lookup_zip_with_Some.
  by exists x, y.
Qed.

Lemma foldl_array_add_lookup (vs : list Array) (xs : list T) :
  forall (v0 : Array) (k : nat) (x0 : T),
  v0 !! k = Some x0 ->
  Forall2 (fun v x => v !! k = Some x) vs xs ->
  foldl array_add v0 vs !! k = Some (foldl padd x0 xs).
Proof.
  revert xs. induction vs as [|v vs IH]; intros xs v0 k x0 H0 Hcol.
  - inversion Hcol. done.
  - inversion Hcol as [|? x ? xs' Hv Hrest]; subst. simpl.
    apply IH; [|done]. by apply array_add_lookup.
Qed.

Section WithOutputStage.
Variable output_stage : @Parameters T -> @World T -> @Parameters T * @World T.
Variable after_potential : @Parameters T -> @Parameters T.
Hypothesis output_stage_result :
  forall p w, (output_stage p w).1 = after_potential p.

(** One pass: the kernels run on fresh parameters built from the thread's
    metadata, the drawn seed goes to the enclosing parameters. *)
Lemma frozen_phonon_pass_spec st fp_num :
  let st' := frozen_phonon_pass C output_stage st fp_num in
  let inner := PRISM01_calcPotential C
                 (set_fpFlag fp_num (new_Parameters C (incr_fpNum (fp_meta st)))) in
  fp_meta st' = incr_fpNum (fp_meta st)
  /\ fp_params st'
     = set_meta (set_randomSeed
                   (rand_values (fp_world st) (rand_calls (fp_world st))
                    mod 100000) (meta (fp_params st))) (fp_params st)
  /\ net_output st' = array_add (net_output st) (output (after_potential inner)).
Proof.
  intros st' inner. subst st' inner. unfold frozen_phonon_pass. simpl.
  match goal with |- context [output_stage ?p ?w0] =>
    pose proof (output_stage_result p w0) as Hres;
    destruct (output_stage p w0) as [p2 w2] end.
  simpl in *. subst p2. done.
Qed.

Lemma frozen_phonon_loop_spec tmeta k :
  forall i0 st,
  fp_meta st = Nat.iter i0 incr_fpNum tmeta ->
  let st' := foldl (frozen_phonon_pass C output_stage) st (seq (S i0) k) in
  net_output st'
  = foldl array_add (net_output st)
      (pass_output C after_potential tmeta <$> seq (S i0) k)
  /\ numFP (meta (fp_params st')) = numFP (meta (fp_params st)).
Proof.
  induction k as [|k IH]; intros i0 st Hmeta; simpl; [done|].
  destruct (frozen_phonon_pass_spec st (S i0)) as (Hm & Hp & Hn).
  destruct (IH (S i0) (frozen_phonon_pass C output_stage st (S i0))) as (IH1 & IH2).
  { rewrite Hm, Hmeta. done. }
  split.
  - rewrite IH1, Hn. unfold pass_output at 2. simpl. by rewrite Hmeta.
  - rewrite IH2, Hp. done.
Qed.

Lemma frozen_phonons_mean tmeta params w n k x0 xs :
  numFP (meta params) = n -> (1 <= n)%nat ->
  (forall x : T, pdiv x (of_size 1) = x) ->
  output params !! k = Some x0 ->
  Forall2 (fun i x => pass_output C after_potential tmeta i !! k = Some x)
    (seq 1 (n - 1)) xs ->
  output (frozen_phonons C output_stage tmeta params w).1.2 !! k
  = Some (pdiv (foldl padd x0 xs) (of_size (N.of_nat n))).
Proof.
  intros Hn Hpos Hone H0 Hcol. unfold frozen_phonons. rewrite Hn.
  destruct (1 <? n)%nat eqn:Hlt.
  - destruct (frozen_phonon_loop_spec tmeta (n - 1) 0
                (mkFPState tmeta params (output params)
                   (if saveDPC_CoM (meta params) then DPC_CoM params else [])
                   w) eq_refl) as (Hnet & Hnum).
    simpl in Hnet, Hnum. simpl.
    assert (Hout : forall (b : bool) (d o : @Array T) (p : @Parameters T),
              output (if b then set_DPC_CoM d (set_output o p) else set_output o p) = o)
      by (by intros [] ? ? ?).
    rewrite Hout, Hnum, Hn, Hnet.
    rewrite list_lookup_fmap.
    rewrite (foldl_array_add_lookup _ xs _ k x0 H0); [done|].
    apply Forall2_fmap_l. exact Hcol.
  - apply Nat.ltb_ge in Hlt. assert (Hn1 : n = 1%nat) by lia.
    rewrite Hn1 in Hcol |- *. simpl in Hcol. inversion Hcol. simpl.
    change (N.pos (Pos.of_succ_nat 0)) with 1. rewrite Hone. exact H0.
Qed.

End WithOutputStage.

Lemma PRISM_output_result p w :
  (PRISM_output C p w).1 = PRISM_kernels C p.
Proof. done. Qed.

Lemma Multislice_output_result p w :
  (Multislice_output C p w).1 = Multislice_calcOutput C p.
Proof. done. Qed.

End Accumulation.

Lemma Q_div_one (x : Q) : pdiv x (of_size 1) = x.
Proof.
  destruct x as [a b]. unfold pdiv, of_size. simpl.
  unfold Qdiv, Qmult, Qinv. simpl. by rewrite Z.mul_1_r, Pos.mul_1_r.
Qed.

(** C2: for a requested pass count n >= 1, whenever cell k exists in the
    output x0 of the first pass and in the outputs xs of passes 1..n-1,
    cell k of the final primary tensor is ((x0 + x1) + ... + x(n-1)) / n:
    the running sum starts from the first pass, every later pass is added
    to it, and the sum is divided by n.  For n = 1 the source skips the
    division; the statement then rests on x / 1 = x. *)
Theorem C2_frozen_phonon_average {T : Type} {pfp : PFP T}
    (C : @Collaborators T) (tmeta : Metadata) (params : Parameters)
    (w : World) (n k : nat) (x0 : T) (xs : list T) :
  numFP (meta params) = n -> (1 <= n)%nat ->
  (forall x : T, pdiv x (of_size 1) = x) ->
  output params !! k = Some x0 ->
  (Forall2 (fun i x => pass_output C (PRISM_kernels C) tmeta i !! k = Some x)
     (seq 1 (n - 1)) xs ->
   output (frozen_phonons C (PRISM_output C) tmeta params w).1.2 !! k
   = Some (pdiv (foldl padd x0 xs) (of_size (N.of_nat n))))
  /\ (Forall2 (fun i x => pass_output C (Multislice_calcOutput C) tmeta i !! k = Some x)
        (seq 1 (n - 1)) xs ->
      output (frozen_phonons C (Multislice_output C) tmeta params w).1.2 !! k
      = Some (pdiv (foldl padd x0 xs) (of_size (N.of_nat n)))).
Proof.
  intros Hn Hpos Hone H0. split; intros Hcol.
  - by apply (frozen_phonons_mean C (PRISM_output C) (PRISM_kernels C)
                (PRISM_output_result C) tmeta params w n k x0 xs).
  - by apply (frozen_phonons_mean C (Multislice_output C) (Multislice_calcOutput C)
                (Multislice_output_result C) tmeta params w n k x0 xs).
Qed.

Lemma C2_witness :
  output (frozen_phonons toy_kernels (PRISM_output toy_kernels) three_pass_meta
            first_pass_params (example_world (cold_window three_pass_meta))).1.2
    !! 0%nat
  = Some (pdiv (foldl padd (7 + 0) [7 + 1; 7 + 2]) (of_size (N.of_nat 3)))%Q.
Proof.
  destruct (C2_frozen_phonon_average toy_kernels three_pass_meta
              first_pass_params (example_world (cold_window three_pass_meta))
              3 0 (7 + 0)%Q [(7 + 1)%Q; (7 + 2)%Q]) as [Hprism _].
  - reflexivity.
  - lia.
  - exact Q_div_one.
  - reflexivity.
  - apply Hprism. repeat constructor.
Defined.

(** C3 evaluated on a two-pass run whose thread metadata has seed 7 while
    rand() returns 12345: the kernels of pass 1 run on metadata that
    still has seed 7 (only fpNum has moved); the drawn seed 12345 ends up
    in the parameters of the enclosing scope. *)
Theorem C3_pass_runs_on_the_thread_seed :
  rand_values two_pass_world 0 mod 100000 = 12345
  /\ randomSeed two_pass_meta = 7
  /\ trace (frozen_phonons toy_kernels (PRISM_output toy_kernels)
              two_pass_meta two_pass_params two_pass_world).2
     = [EvOpenOutput "out.h5" false;
        EvKernel Potential (incr_fpNum two_pass_meta);
        EvKernel CompactOperator (incr_fpNum two_pass_meta);
        EvKernel Output (incr_fpNum two_pass_meta);
        EvCloseOutput]
  /\ randomSeed (incr_fpNum two_pass_meta) = 7
  /\ randomSeed
       (meta (frozen_phonons toy_kernels (PRISM_output toy_kernels)
                two_pass_meta two_pass_params two_pass_world).1.2)
     = 12345.
Proof. vm_compute. repeat split; reflexivity. Qed.

(** * Properties of the names and paths *)

Lemma string_app_cons (x : ascii) (a b : string) :
  String x a +:+ b = String x (a +:+ b).
Proof. reflexivity. Qed.

Lemma string_app_assoc (a b c : string) : (a +:+ b) +:+ c = a +:+ (b +:+ c).
Proof.
  induction a as [|x a IH]; [done|]. rewrite !string_app_cons. by f_equal.
Qed.

Lemma string_app_nil_r (a : string) : a +:+ "" = a.
Proof.
  induction a as [|x a IH]; [done|]. rewrite string_app_cons. by f_equal.
Qed.

Lemma string_length_app (a b : string) :
  String.length (a +:+ b) = (String.length a + String.length b)%nat.
Proof.
  induction a as [|x a IH]; [done|]. rewrite string_app_cons. simpl.
  by f_equal.
Qed.

Lemma decimal_value_app s1 s2 acc :
  decimal_value acc (s1 +:+ s2) = decimal_value (decimal_value acc s1) s2.
Proof.
  revert acc. induction s1 as [|c s1 IH]; intros acc; [done|].
  rewrite string_app_cons. simpl. apply IH.
Qed.

Lemma digit_value_char x : x < 10 -> digit_value (pretty_N_char x) = x.
Proof.
  intros Hx.
  assert (x = 0 \/ x = 1 \/ x = 2 \/ x = 3 \/ x = 4 \/ x = 5 \/ x = 6
          \/ x = 7 \/ x = 8 \/ x = 9) as Hc by lia.
  repeat (destruct Hc as [->|Hc]; [reflexivity|]). by subst.
Qed.

Lemma pretty_N_go_app x s : pretty_N_go x s = pretty_N_go x "" +:+ s.
Proof.
  revert s. induction (N.lt_wf_0 x) as [x _ IH]; intros s.
  assert (x = 0 \/ 0 < x) as [->|Hpos] by lia; [done|].
  rewrite (pretty_N_go_step x s), (pretty_N_go_step x "") by done.
  pose proof (N.div_lt x 10 Hpos eq_refl) as Hlt.
  rewrite (IH _ Hlt (String (pretty_N_char (x `mod` 10)) s)).
  rewrite (IH _ Hlt (String (pretty_N_char (x `mod` 10)) "")).
  by rewrite string_app_assoc.
Qed.

Lemma decimal_value_pretty_go x : decimal_value 0 (pretty_N_go x "") = x.
Proof.
  induction (N.lt_wf_0 x) as [x _ IH].
  assert (x = 0 \/ 0 < x) as [->|Hpos] by lia; [done|].
  rewrite pretty_N_go_step by done. rewrite pretty_N_go_app.
  rewrite decimal_value_app, IH by (by apply N.div_lt). simpl.
  rewrite digit_value_char by (by apply N.mod_lt).
  pose proof (N.div_mod x 10). lia.
Qed.

Lemma decimal_value_pretty (x : N) : decimal_value 0 (pretty x) = x.
Proof.
  unfold pretty, pretty_N. case_decide as Hx; [by subst|].
  apply decimal_value_pretty_go.
Qed.

Lemma decimal_value_zeros n s : decimal_value 0 (zeros n +:+ s) = decimal_value 0 s.
Proof.
  induction n as [|n IH]; [done|]. simpl zeros. rewrite string_app_cons.
  simpl. apply IH.
Qed.

Lemma zeros_length n : String.length (zeros n) = n.
Proof. induction n as [|n IH]; simpl; [done|by f_equal]. Qed.

(** The decimal digits of [x] take at most [k] characters when [x < 10^k]. *)
Lemma pretty_go_length_le (k : nat) : forall x,
  x < 10 ^ N.of_nat k -> (String.length (pretty_N_go x "") <= k)%nat.
Proof.
  induction k as [|k IH]; intros x Hx.
  - assert (x = 0) as -> by (simpl in Hx; lia). done.
  - assert (x = 0 \/ 0 < x) as [->|Hpos] by lia; [simpl; lia|].
    rewrite pretty_N_go_step by done. rewrite pretty_N_go_app.
    rewrite string_length_app. simpl.
    assert (x `div` 10 < 10 ^ N.of_nat k).
    { apply N.Div0.div_lt_upper_bound.
      rewrite Nat2N.inj_succ, N.pow_succ_r' in Hx. lia. }
    pose proof (IH _ H). lia.
Qed.

Lemma pretty_length_le (k : nat) (x : N) :
  (1 <= k)%nat -> x < 10 ^ N.of_nat k -> (String.length (pretty x) <= k)%nat.
Proof.
  intros Hk Hx. unfold pretty, pretty_N. case_decide; [simpl; lia|].
  by apply pretty_go_length_le.
Qed.

Lemma pretty_length_pos (x : N) : (1 <= String.length (pretty x))%nat.
Proof.
  unfold pretty, pretty_N. case_decide as Hx; [simpl; lia|].
  rewrite pretty_N_go_step by lia. rewrite pretty_N_go_app.
  rewrite string_length_app. simpl. lia.
Qed.

Lemma pretty_not_dash (x : N) (s : string) : pretty x <> "-" +:+ s.
Proof.
  unfold pretty, pretty_N. case_decide; [done|].
  by apply pretty_N_go_ne_dash.
Qed.

Lemma getDigitString_width (digit : Z) :
  (0 <= digit < 10000)%Z -> String.length (getDigitString digit) = 4%nat.
Proof.
  intros Hd. unfold getDigitString.
  destruct (Z.ltb_spec digit 0) as [?|_]; [lia|].
  rewrite string_length_app, zeros_length.
  assert (String.length (pretty (Z.abs_N digit)) <= 4)%nat; [|lia].
  apply pretty_length_le; [lia|]. change (10 ^ N.of_nat 4) with 10000. lia.
Qed.

Lemma getDigitString_value (digit : Z) :
  (0 <= digit)%Z -> decimal_value 0 (getDigitString digit) = Z.to_N digit.
Proof.
  intros Hd. unfold getDigitString.
  destruct (Z.ltb_spec digit 0) as [?|_]; [lia|].
  rewrite decimal_value_zeros, decimal_value_pretty. lia.
Qed.

Lemma getDigitString_negative (digit : Z) :
  (digit < 0)%Z ->
  getDigitString digit
  = "-" +:+ zeros (3 - String.length (pretty (Z.abs_N digit)))
        +:+ pretty (Z.abs_N digit).
Proof.
  intros Hd. unfold getDigitString.
  by destruct (Z.ltb_spec digit 0) as [_|?]; [|lia].
Qed.

Lemma getDigitString_nonneg_first (digit : Z) (s : string) :
  (0 <= digit)%Z -> getDigitString digit <> "-" +:+ s.
Proof.
  intros Hd. unfold getDigitString.
  destruct (Z.ltb_spec digit 0) as [?|_]; [lia|].
  destruct (4 - String.length (pretty (Z.abs_N digit)))%nat; simpl.
  - apply pretty_not_dash.
  - discriminate.
Qed.

Lemma getDigitString_inj (a b : Z) :
  getDigitString a = getDigitString b -> a = b.
Proof.
  intros Heq.
  destruct (Z.ltb_spec a 0) as [Ha|Ha], (Z.ltb_spec b 0) as [Hb|Hb].
  - rewrite (getDigitString_negative a Ha), (getDigitString_negative b Hb) in Heq.
    apply (inj (String.append "-")) in Heq.
    apply (f_equal (decimal_value 0)) in Heq.
    rewrite !decimal_value_zeros, !decimal_value_pretty in Heq. lia.
  - rewrite (getDigitString_negative a Ha) in Heq. symmetry in Heq.
    by apply getDigitString_nonneg_first in Heq.
  - rewrite (getDigitString_negative b Hb) in Heq.
    by apply getDigitString_nonneg_first in Heq.
  - apply (f_equal (decimal_value 0)) in Heq.
    rewrite !getDigitString_value in Heq by done. lia.
Qed.

Lemma find_last_from_app c a b i last :
  find_last_from c (a +:+ b) i last
  = find_last_from c b (i + N.of_nat (String.length a)) (find_last_from c a i last).
Proof.
  revert i last. induction a as [|x a IH]; intros i last.
  - simpl. f_equal. lia.
  - rewrite string_app_cons. simpl find_last_from at 1. rewrite IH.
    simpl. f_equal. lia.
Qed.

Lemma find_last_from_absent c s i last :
  has_char c s = false -> find_last_from c s i last = last.
Proof.
  revert i last. induction s as [|x s IH]; intros i last Hs; [done|].
  simpl in Hs. apply orb_false_iff in Hs as [Hx Hs]. simpl.
  rewrite Hx. by apply IH.
Qed.

Lemma string_drop_app a b n :
  string_drop (String.length a + n) (a +:+ b) = string_drop n b.
Proof. induction a as [|x a IH]; [done|]. rewrite string_app_cons. apply IH. Qed.

Lemma string_drop_0 s : string_drop 0 s = s.
Proof. by destruct s. Qed.

Lemma reducedDataSetName_no_slash (name : string) :
  has_char "/" name = false -> reducedDataSetName name = Some name.
Proof.
  intros Hname. unfold reducedDataSetName, find_last_of.
  rewrite find_last_from_absent by done.
  change (wrap64 (npos + 1)) with 0. unfold substr.
  destruct (N.leb_spec 0 (N.of_nat (String.length name))) as [_|?]; [|lia].
  by rewrite string_drop_0.
Qed.

Lemma reducedDataSetName_last_component (dir name : string) :
  has_char "/" name = false ->
  N.of_nat (String.length (dir +:+ "/" +:+ name)) < 2 ^ 64 ->
  reducedDataSetName (dir +:+ "/" +:+ name) = Some name.
Proof.
  intros Hname Hlen. unfold reducedDataSetName, find_last_of.
  rewrite find_last_from_app.
  change ("/" +:+ name) with (String "/" name). simpl find_last_from at 1.
  rewrite find_last_from_absent by done.
  rewrite !string_length_app in Hlen. simpl in Hlen.
  rewrite wrap64_small by lia. unfold substr.
  rewrite string_length_app. simpl String.length.
  destruct (N.leb_spec (0 + N.of_nat (String.length dir) + 1)
              (N.of_nat (String.length dir + S (String.length name)))) as [_|?]; [|lia].
  f_equal.
  replace (N.to_nat (0 + N.of_nat (String.length dir) + 1))
    with (String.length dir + 1)%nat by lia.
  rewrite string_drop_app. done.
Qed.

Lemma last_slash_split (s : string) :
  has_char "/" s = false
  \/ exists dir name, s = dir +:+ "/" +:+ name /\ has_char "/" name = false.
Proof.
  induction s as [|x s IH]; [by left|].
  destruct IH as [Hs|(dir & name & -> & Hname)].
  - destruct (Ascii.eqb x "/") eqn:Hx.
    + right. exists "", s. apply Ascii.eqb_eq in Hx. by subst.
    + left. simpl. by rewrite Hx.
  - right. by exists (String x dir), name.
Qed.

Lemma has_char_app c a b : has_char c (a +:+ b) = has_char c a || has_char c b.
Proof.
  induction a as [|x a IH]; [done|]. rewrite string_app_cons. simpl.
  by rewrite IH, orb_assoc.
Qed.

Lemma reducedDataSetName_is_slash_free_suffix (fullPath : string) :
  N.of_nat (String.length fullPath) < 2 ^ 64 ->
  exists dir name,
    reducedDataSetName fullPath = Some name
    /\ has_char "/" name = false
    /\ fullPath = dir +:+ name.
Proof.
  intros Hlen. destruct (last_slash_split fullPath) as [Hs|(dir & name & -> & Hname)].
  - exists "", fullPath. by rewrite reducedDataSetName_no_slash.
  - exists (dir +:+ "/"), name.
    rewrite reducedDataSetName_last_component by done.
    by rewrite string_app_assoc.
Qed.

(** * Properties of the container *)
Section StoreFacts.
Context {T : Type} {pfp : PFP T}.
Implicit Types c : @Container T.

Lemma pretty_N_char_not_slash x :
  x < 10 -> Ascii.eqb (pretty_N_char x) "/" = false.
Proof.
  intros Hx.
  assert (x = 0 \/ x = 1 \/ x = 2 \/ x = 3 \/ x = 4 \/ x = 5 \/ x = 6
          \/ x = 7 \/ x = 8 \/ x = 9) as Hc by lia.
  repeat (destruct Hc as [->|Hc]; [reflexivity|]). by subst.
Qed.

Lemma pretty_N_go_no_slash x : has_char "/" (pretty_N_go x "") = false.
Proof.
  induction (N.lt_wf_0 x) as [x _ IH].
  assert (x = 0 \/ 0 < x) as [->|Hpos] by lia; [done|].
  rewrite pretty_N_go_step by done. rewrite pretty_N_go_app.
  rewrite has_char_app, IH by (by apply N.div_lt). simpl.
  rewrite pretty_N_char_not_slash; [done|by apply N.mod_lt].
Qed.

Lemma pretty_N_no_slash (x : N) : has_char "/" (pretty x) = false.
Proof.
  unfold pretty, pretty_N. case_decide; [done|]. apply pretty_N_go_no_slash.
Qed.

Lemma zeros_no_slash n : has_char "/" (zeros n) = false.
Proof. induction n as [|n IH]; [done|]. simpl. apply IH. Qed.

Lemma getDigitString_no_slash (digit : Z) :
  has_char "/" (getDigitString digit) = false.
Proof.
  unfold getDigitString. cbv zeta. destruct (digit <? 0)%Z.
  - rewrite !has_char_app, zeros_no_slash, pretty_N_no_slash. done.
  - rewrite !has_char_app, zeros_no_slash, pretty_N_no_slash. done.
Qed.

Lemma to_string_no_slash (n : Z) : has_char "/" (to_string n) = false.
Proof.
  unfold to_string. destruct n as [|p|p]; [done|..].
  - change (pretty (Z.pos p)) with (pretty (N.pos p)). apply pretty_N_no_slash.
  - change (pretty (Z.neg p)) with ("-" +:+ pretty (N.pos p)).
    rewrite has_char_app, pretty_N_no_slash. done.
Qed.

Lemma to_string_inj (a b : Z) : to_string a = to_string b -> a = b.
Proof. apply pretty_Z_inj. Qed.

Lemma is_absolute_no_slash s : has_char "/" s = false -> is_absolute s = false.
Proof.
  destruct s as [|a s]; [done|]. simpl. intros H.
  by apply orb_false_iff in H as [? _].
Qed.

Lemma link_path_relative loc name :
  has_char "/" name = false -> link_path loc name = loc +:+ "/" +:+ name.
Proof. intros H. unfold link_path. by rewrite is_absolute_no_slash. Qed.

Lemma link_path_inj loc a b :
  is_absolute a = is_absolute b -> link_path loc a = link_path loc b -> a = b.
Proof.
  unfold link_path. intros Hab. rewrite Hab. destruct (is_absolute b); [done|].
  intros H. apply (inj (String.append loc)) in H.
  by apply (inj (String.append "/")) in H.
Qed.

Lemma is_absolute_app_nonneg b s t :
  has_char "/" s = false -> has_char "/" t = false ->
  is_absolute (b +:+ s) = is_absolute (b +:+ t).
Proof.
  intros Hs Ht. destruct b as [|x b]; [|done].
  change ("" +:+ s) with s. change ("" +:+ t) with t.
  by rewrite !is_absolute_no_slash.
Qed.

(** The names that the two counting loops try are pairwise distinct
    links. *)
Lemma data_group_links_inj loc basename (i j : Z) :
  link_path loc (basename +:+ getDigitString i)
  = link_path loc (basename +:+ getDigitString j) -> i = j.
Proof.
  intros H. apply link_path_inj in H.
  - apply (inj (String.append basename)) in H. by apply getDigitString_inj.
  - apply is_absolute_app_nonneg; apply getDigitString_no_slash.
Qed.

Lemma dimension_links_inj loc basename (i j : Z) :
  link_path loc (basename +:+ to_string i)
  = link_path loc (basename +:+ to_string j) -> i = j.
Proof.
  intros H. apply link_path_inj in H.
  - apply (inj (String.append basename)) in H. by apply to_string_inj.
  - apply is_absolute_app_nonneg; apply to_string_no_slash.
Qed.

Lemma count_while_least (exists_ : Z -> bool) (n : Z) : forall fuel k,
  (k <= n)%Z -> (n <= Z.of_N INT_MAX)%Z ->
  (forall i, (k <= i < n)%Z -> exists_ i = true) ->
  exists_ n = false ->
  (Z.to_nat (n - k) < fuel)%nat ->
  count_while fuel exists_ k = Some n.
Proof.
  induction fuel as [|fuel IH]; intros k Hk Hn Hbelow Hat Hfuel; [lia|].
  simpl. destruct (decide (k = n)) as [->|Hne].
  - by rewrite Hat.
  - rewrite Hbelow by lia. change (Z.of_N INT_MAX) with 2147483647%Z in *.
    destruct (Z.ltb_spec k 2147483647) as [_|?]; [|lia].
    apply IH; try done; try lia. intros i Hi. apply Hbelow. lia.
Qed.

Lemma count_while_sound (exists_ : Z -> bool) (n : Z) : forall fuel k,
  count_while fuel exists_ k = Some n ->
  (k <= n)%Z /\ (forall i, (k <= i < n)%Z -> exists_ i = true)
  /\ exists_ n = false /\ (n <= k \/ n <= Z.of_N INT_MAX)%Z.
Proof.
  induction fuel as [|fuel IH]; intros k H; [done|].
  simpl in H. change (Z.of_N INT_MAX) with 2147483647%Z in *.
  destruct (exists_ k) eqn:Hex.
  - destruct (Z.ltb_spec k 2147483647) as [Hlt|?]; [|done].
    apply IH in H as (Hle & Hbelow & Hat & Hmax).
    split; [lia|]. split; [|split; [done|lia]].
    intros i Hi. destruct (decide (i = k)) as [->|?]; [done|].
    apply Hbelow. lia.
  - inversion H; subst. split; [lia|]. split; [intros; lia|]. split; [done|lia].
Qed.

(** No more consecutive names can exist than the container has links. *)
Lemma links_bounded c (name : Z -> string) loc (k : Z) (n : nat) :
  (forall i j, link_path loc (name i) = link_path loc (name j) -> i = j) ->
  (forall i, (k <= i < k + Z.of_nat n)%Z -> nameExists c loc (name i) = true) ->
  (n <= size (groups c) + size (dom (objects (store c))))%nat.
Proof.
  intros Hinj Hex.
  set (l := (fun i => link_path loc (name i)) <$> seqZ k (Z.of_nat n)).
  assert (NoDup l) as Hnd.
  { apply NoDup_fmap_2_strong; [|apply NoDup_seqZ]. intros; by apply Hinj. }
  assert (list_to_set (C := gset string) l
          ⊆ groups c ∪ dom (objects (store c))) as Hsub.
  { intros p Hp. apply elem_of_list_to_set in Hp.
    apply list_elem_of_fmap in Hp as (i & -> & Hi).
    apply elem_of_seqZ in Hi. pose proof (Hex i Hi) as Hex'.
    clear Hex. rename Hex' into Hex.
    unfold nameExists in Hex. apply orb_true_iff in Hex as [H|H].
    - apply bool_decide_eq_true in H. by apply elem_of_union_l.
    - apply bool_decide_eq_true in H. apply elem_of_union_r.
      by apply elem_of_dom. }
  apply subseteq_size in Hsub.
  rewrite size_list_to_set in Hsub by done.
  unfold l in Hsub. rewrite length_fmap, length_seqZ in Hsub.
  pose proof (size_union_alt (groups c) (dom (objects (store c)))) as Hu.
  assert (size (dom (objects (store c)) ∖ groups c)
          <= size (dom (objects (store c))))%nat.
  { apply subseteq_size, subseteq_difference_l. done. }
  lia.
Qed.

Lemma countDataGroups_least c group basename (n : Z) :
  (0 <= n <= Z.of_N INT_MAX)%Z ->
  (forall i, (0 <= i < n)%Z ->
     nameExists c group (basename +:+ getDigitString i) = true) ->
  nameExists c group (basename +:+ getDigitString n) = false ->
  countDataGroups c group basename = Some n.
Proof.
  intros Hn Hbelow Hat. unfold countDataGroups.
  apply count_while_least; try done; try lia.
  unfold enough_fuel.
  pose proof (links_bounded c (fun i => basename +:+ getDigitString i)
                group 0 (Z.to_nat n)) as Hb.
  assert (Z.to_nat n <= size (groups c) + size (dom (objects (store c))))%nat.
  { apply Hb; [intros; by eapply data_group_links_inj|].
    intros i Hi. apply Hbelow. lia. }
  lia.
Qed.

Lemma countDataGroups_sound c group basename (n : Z) :
  countDataGroups c group basename = Some n ->
  (0 <= n <= Z.of_N INT_MAX)%Z
  /\ (forall i, (0 <= i < n)%Z ->
        nameExists c group (basename +:+ getDigitString i) = true)
  /\ nameExists c group (basename +:+ getDigitString n) = false.
Proof.
  intros H. apply count_while_sound in H as (H0 & Hbelow & Hat & Hmax).
  split; [|done]. change (Z.of_N INT_MAX) with 2147483647%Z in *. lia.
Qed.

Lemma countDimensions_least c group basename (n : Z) :
  (0 <= n < Z.of_N INT_MAX)%Z ->
  (forall i, (1 <= i <= n)%Z ->
     nameExists c group (basename +:+ to_string i) = true) ->
  nameExists c group (basename +:+ to_string (n + 1)) = false ->
  countDimensions c group basename = Some n.
Proof.
  intros Hn Hbelow Hat. unfold countDimensions.
  rewrite (count_while_least _ (n + 1)); try done; try lia.
  - simpl. f_equal. lia.
  - intros i Hi. apply Hbelow. lia.
  - unfold enough_fuel.
    pose proof (links_bounded c (fun i => basename +:+ to_string i)
                  group 1 (Z.to_nat n)) as Hb.
    assert (Z.to_nat n <= size (groups c) + size (dom (objects (store c))))%nat.
    { apply Hb; [intros; by eapply dimension_links_inj|].
      intros i Hi. apply Hbelow. lia. }
    lia.
Qed.

End StoreFacts.

Section LayerFacts.
Context {T : Type} {pfp : PFP T}.
Implicit Types c : @Container T.

Lemma string_app_ne_self (s t : string) (a : ascii) : s +:+ String a t <> s.
Proof.
  intros H. apply (f_equal String.length) in H.
  rewrite string_length_app in H. simpl in H. lia.
Qed.

(** A path splits in one way only at its last slash. *)
Lemma last_component_inj (a b k k' : string) :
  has_char "/" k = false -> has_char "/" k' = false ->
  a +:+ "/" +:+ k = b +:+ "/" +:+ k' -> a = b /\ k = k'.
Proof.
  intros Hk Hk'. revert b. induction a as [|x a IH]; intros [|y b] H.
  - by inversion H.
  - change ("" +:+ "/" +:+ k) with (String "/" k) in H.
    rewrite string_app_cons in H. inversion H as [[Hy Hrest]]. subst.
    rewrite has_char_app in Hk. simpl in Hk.
    by rewrite orb_true_r in Hk.
  - change ("" +:+ "/" +:+ k') with (String "/" k') in H.
    rewrite string_app_cons in H. inversion H as [[Hy Hrest]]. subst.
    rewrite has_char_app in Hk'. simpl in Hk'.
    by rewrite orb_true_r in Hk'.
  - rewrite !string_app_cons in H. inversion H as [[Hxy Hrest]].
    apply IH in Hrest as [-> ->]. done.
Qed.

Lemma nameExists_false c loc name :
  nameExists c loc name = false
  <-> (link_path loc name ∉ groups c)
      /\ objects (store c) !! link_path loc name = None.
Proof.
  unfold nameExists. rewrite orb_false_iff, !bool_decide_eq_false.
  rewrite <- eq_None_not_Some. done.
Qed.

Lemma nameExists_true c loc name :
  nameExists c loc name = true
  <-> (link_path loc name ∈ groups c)
      \/ is_Some (objects (store c) !! link_path loc name).
Proof.
  unfold nameExists. by rewrite orb_true_iff, !bool_decide_eq_true.
Qed.

Lemma createGroup_fresh c loc name :
  link_path loc name ∉ groups c ->
  objects (store c) !! link_path loc name = None ->
  createGroup c loc name
  = Some (mkContainer (store c) ({[link_path loc name]} ∪ groups c)
            (delete (link_path loc name) (attributes c))).
Proof.
  intros Hg Ho. unfold createGroup.
  by rewrite (proj2 (nameExists_false c loc name)).
Qed.

Lemma createDataSet_fresh c loc name dims data :
  link_path loc name ∉ groups c ->
  objects (store c) !! link_path loc name = None ->
  createDataSet c loc name dims data
  = Some (mkContainer
            (mkH5File (file_name (store c))
               (<[link_path loc name := H5Data dims data]>
                  (objects (store c))))
            (groups c)
            (delete (link_path loc name) (attributes c))).
Proof.
  intros Hg Ho. unfold createDataSet.
  by rewrite (proj2 (nameExists_false c loc name)).
Qed.

Lemma createAttribute_fresh c obj name v :
  attributes_of c obj !! name = None ->
  createAttribute c obj name v
  = Some (mkContainer (store c) (groups c)
            (<[obj := <[name := v]> (attributes_of c obj)]> (attributes c))).
Proof. intros H. unfold createAttribute. by rewrite H. Qed.

Lemma attributes_of_insert s g (a : gmap string (gmap string (@AttrValue T)))
    o m :
  attributes_of (mkContainer s g (<[o := m]> a)) o = m.
Proof. unfold attributes_of. simpl. by rewrite lookup_insert_eq. Qed.

Lemma attributes_of_insert_ne s g
    (a : gmap string (gmap string (@AttrValue T))) o o' m :
  o <> o' ->
  attributes_of (mkContainer s g (<[o := m]> a)) o'
  = attributes_of (mkContainer s g a) o'.
Proof. intros. unfold attributes_of. simpl. by rewrite lookup_insert_ne. Qed.

Lemma attributes_of_delete s g
    (a : gmap string (gmap string (@AttrValue T))) o :
  attributes_of (mkContainer s g (delete o a)) o = ∅.
Proof. unfold attributes_of. simpl. by rewrite lookup_delete_eq. Qed.

Lemma attributes_of_delete_ne s g
    (a : gmap string (gmap string (@AttrValue T))) o o' :
  o <> o' ->
  attributes_of (mkContainer s g (delete o a)) o'
  = attributes_of (mkContainer s g a) o'.
Proof. intros. unfold attributes_of. simpl. by rewrite lookup_delete_ne. Qed.

Lemma attributes_of_store s s' g g'
    (a : gmap string (gmap string (@AttrValue T))) o :
  attributes_of (mkContainer s g a) o = attributes_of (mkContainer s' g' a) o.
Proof. done. Qed.

End LayerFacts.

Ltac path_ne :=
  let H := fresh in
  intros H;
  first [ by apply string_app_ne_self in H
        | symmetry in H; by apply string_app_ne_self in H
        | apply (inj (String.append _)) in H; discriminate H ].

Ltac attrs :=
  repeat first [ rewrite attributes_of_insert
               | rewrite attributes_of_insert_ne by (first [done | path_ne])
               | rewrite attributes_of_delete
               | rewrite attributes_of_delete_ne by (first [done | path_ne]) ].

Ltac step :=
  first [ rewrite createGroup_fresh
        | rewrite createDataSet_fresh
        | rewrite createAttribute_fresh ];
  cbn [mbind option_bind store groups attributes objects file_name].

Ltac invert_binds :=
  repeat match goal with
  | H : (?x ≫= _) = Some _ |- _ =>
      let E := fresh "E" in
      destruct x eqn:E; [cbn [mbind option_bind] in H|discriminate H]
  end.


Section LayerSpec.
Context {T : Type} {pfp : PFP T}.
Implicit Types c : @Container T.

Lemma depth_group_eq rs n :
  depth_group rs n
  = rs +:+ "/" +:+ "virtual_detector_depth" +:+ getDigitString (Z.of_nat n).
Proof.
  unfold depth_group. rewrite link_path_relative; [done|].
  rewrite has_char_app, getDigitString_no_slash. done.
Qed.

Lemma read_front_all (values : list T) :
  read_front (get_dimi values) values = Some (Some <$> values).
Proof.
  unfold read_front, get_dimi. rewrite Nat2N.id.
  destruct (decide (length values <= length values)%nat) as [_|?]; [|lia].
  by rewrite firstn_all.
Qed.

(** The attributes and datasets of one depth layer. *)
Lemma setupVDOutput_layer_spec (pars : @Parameters T) (det : @Detector T)
    (rs : string) (n : nat) c (d : T) :
  depth_group rs n ∉ groups c ->
  objects (store c) !! depth_group rs n = None ->
  (forall k, (depth_group rs n +:+ "/" +:+ k ∉ groups c)
             /\ objects (store c) !! (depth_group rs n +:+ "/" +:+ k) = None) ->
  depths det !! n = Some d ->
  (N.to_nat (Ndet det) <= length (detectorAngles det))%nat ->
  exists c',
    setupVDOutput_layer pars det rs n c = Some c'
    /\ file_name (store c') = file_name (store c)
    /\ groups c' = {[depth_group rs n]} ∪ groups c
    /\ objects (store c')
       = <[depth_group rs n +:+ "/dim3" :=
             H5Data [Ndet det]
               (Some <$> take (N.to_nat (Ndet det)) (detectorAngles det))]>
         (<[depth_group rs n +:+ "/dim2" :=
              H5Data [get_dimi (yp pars)] (Some <$> yp pars)]>
          (<[depth_group rs n +:+ "/dim1" :=
               H5Data [get_dimi (xp pars)] (Some <$> xp pars)]>
           (<[depth_group rs n +:+ "/realslice" :=
                H5Data [get_dimi (xp pars); get_dimi (yp pars); Ndet det]
                  (fill [get_dimi (xp pars); get_dimi (yp pars); Ndet det])]>
            (objects (store c)))))
    /\ attributes_of c' (depth_group rs n)
       = <["output_depth" := AReal d]>
           (<["metadata" := AInt 0]> (<["emd_group_type" := AInt 1]> ∅))
    /\ (attributes_of c' (depth_group rs n +:+ "/dim1")
        = <["units" := AString "[n_m]"]> (<["name" := AString "R_x"]> ∅)
        /\ attributes_of c' (depth_group rs n +:+ "/dim2")
           = <["units" := AString "[n_m]"]> (<["name" := AString "R_y"]> ∅)
        /\ attributes_of c' (depth_group rs n +:+ "/dim3")
           = <["units" := AString "[mrad]"]>
               (<["name" := AString "bin_outer_angle"]> ∅))
    /\ (forall o,
          o <> depth_group rs n ->
          (forall k, o <> depth_group rs n +:+ "/" +:+ k) ->
          attributes_of c' o = attributes_of c o).
Proof.
  intros Hg Ho Hk Hd Hdet. unfold setupVDOutput_layer. cbv zeta.
  fold (depth_group rs n). set (L := depth_group rs n) in *.
  change (link_path L "realslice") with (L +:+ "/realslice").
  change (link_path L "dim1") with (L +:+ "/dim1").
  change (link_path L "dim2") with (L +:+ "/dim2").
  change (link_path L "dim3") with (L +:+ "/dim3").
  rewrite !read_front_all, Hd. unfold read_front.
  destruct (decide (N.to_nat (Ndet det) <= length (detectorAngles det))%nat)
    as [_|?]; [|done].
  cbn [mbind option_bind].
  pose proof (Hk "realslice") as [Hg0 Ho0].
  pose proof (Hk "dim1") as [Hg1 Ho1].
  pose proof (Hk "dim2") as [Hg2 Ho2].
  pose proof (Hk "dim3") as [Hg3 Ho3].
  change ("/" +:+ "realslice") with "/realslice" in *.
  change ("/" +:+ "dim1") with "/dim1" in *.
  change ("/" +:+ "dim2") with "/dim2" in *.
  change ("/" +:+ "dim3") with "/dim3" in *.
  step; [|done..]. fold (depth_group rs n). fold L.
  step; [|by attrs].
  step; [|by attrs].
  step; [|by attrs].
  change (link_path L "realslice") with (L +:+ "/realslice").
  step; [| |done].
  2:{ rewrite not_elem_of_union, not_elem_of_singleton. split; [path_ne|done]. }
  change (link_path L "dim1") with (L +:+ "/dim1").
  step.
  2:{ rewrite not_elem_of_union, not_elem_of_singleton. split; [path_ne|done]. }
  2:{ by rewrite lookup_insert_ne by path_ne. }
  change (link_path L "dim2") with (L +:+ "/dim2").
  step.
  2:{ rewrite not_elem_of_union, not_elem_of_singleton. split; [path_ne|done]. }
  2:{ by rewrite !lookup_insert_ne by path_ne. }
  change (link_path L "dim3") with (L +:+ "/dim3").
  step.
  2:{ rewrite not_elem_of_union, not_elem_of_singleton. split; [path_ne|done]. }
  2:{ by rewrite !lookup_insert_ne by path_ne. }
  step; [|by attrs].
  step; [|by attrs].
  step; [|by attrs].
  step; [|by attrs].
  step; [|by attrs].
  step; [|by attrs].
  eexists. split; [reflexivity|].
  cbn [store groups attributes objects file_name].
  split; [done|]. split; [done|]. split; [done|].
  split; [by attrs|]. split; [by repeat split; attrs|].
  - intros o HoL Hok.
    pose proof (Hok "realslice"). pose proof (Hok "dim1").
    pose proof (Hok "dim2"). pose proof (Hok "dim3").
    rewrite !attributes_of_insert_ne by done.
    rewrite !attributes_of_delete_ne by done.
    rewrite !attributes_of_insert_ne by done.
    rewrite !attributes_of_delete_ne by done.
    done.
Qed.

Lemma first_component_inj (a b k k' : string) :
  has_char "/" a = false -> has_char "/" b = false ->
  a +:+ "/" +:+ k = b +:+ "/" +:+ k' -> a = b /\ k = k'.
Proof.
  revert b. induction a as [|x a IH]; intros [|y b] Ha Hb H.
  - by inversion H.
  - change ("" +:+ "/" +:+ k) with (String "/" k) in H.
    rewrite string_app_cons in H. inversion H as [[Hy Hrest]]. subst.
    by simpl in Hb.
  - change ("" +:+ "/" +:+ k') with (String "/" k') in H.
    rewrite string_app_cons in H. inversion H as [[Hy Hrest]]. subst.
    by simpl in Ha.
  - rewrite !string_app_cons in H. inversion H as [[Hxy Hrest]].
    simpl in Ha, Hb. apply orb_false_iff in Ha as [_ Ha].
    apply orb_false_iff in Hb as [_ Hb].
    apply IH in Hrest as [-> ->]; done.
Qed.

Lemma depth_group_inj rs i j : depth_group rs i = depth_group rs j -> i = j.
Proof.
  unfold depth_group. intros H. apply data_group_links_inj in H. lia.
Qed.

Lemma depth_group_ne_child rs i j k :
  depth_group rs i <> depth_group rs j +:+ "/" +:+ k.
Proof.
  rewrite !depth_group_eq. intros H.
  rewrite !string_app_assoc in H.
  apply (inj (String.append rs)) in H.
  apply (inj (String.append "/")) in H.
  apply (inj (String.append "virtual_detector_depth")) in H.
  apply (f_equal (has_char "/")) in H.
  rewrite !has_char_app, !getDigitString_no_slash in H. done.
Qed.

Lemma depth_group_child_inj rs i j k k' :
  depth_group rs i +:+ "/" +:+ k = depth_group rs j +:+ "/" +:+ k' ->
  i = j /\ k = k'.
Proof.
  rewrite !depth_group_eq. intros H.
  rewrite !string_app_assoc in H.
  apply (inj (String.append rs)) in H.
  apply (inj (String.append "/")) in H.
  apply (inj (String.append "virtual_detector_depth")) in H.
  apply first_component_inj in H as [Hd ->];
    try apply getDigitString_no_slash.
  apply getDigitString_inj in Hd. split; [lia|done].
Qed.

Lemma depth_layers_absent_group c rs i :
  depth_layers_absent c rs ->
  (depth_group rs i ∉ groups c) /\ objects (store c) !! depth_group rs i = None.
Proof.
  intros H. rewrite depth_group_eq.
  apply (H (getDigitString (Z.of_nat i))).
Qed.

Lemma depth_layers_absent_child c rs i k :
  depth_layers_absent c rs ->
  (depth_group rs i +:+ "/" +:+ k ∉ groups c)
  /\ objects (store c) !! (depth_group rs i +:+ "/" +:+ k) = None.
Proof.
  intros H. rewrite depth_group_eq.
  pose proof (H (getDigitString (Z.of_nat i) +:+ "/" +:+ k)) as H'.
  by rewrite !string_app_assoc in *.
Qed.

End LayerSpec.

Section SetupVD.
Context {T : Type} {pfp : PFP T}.
Implicit Types c : @Container T.

Lemma depth_layers_step (pars : @Parameters T) (det : @Detector T)
    (rs : string) c0 c (i : nat) :
  depth_layers_absent c0 rs ->
  (i < length (depths det))%nat ->
  (N.to_nat (Ndet det) <= length (detectorAngles det))%nat ->
  depth_layers pars det rs c0 c i ->
  exists c', setupVDOutput_layer pars det rs i c = Some c'
    /\ depth_layers pars det rs c0 c' (S i).
Proof.
  intros Habs Hi Hdet (Hfile & Hgroups & Hobjs & Hframe & Hattr & Hdims & Haframe).
  destruct (lookup_lt_is_Some_2 (depths det) i Hi) as [d Hd].
  pose proof (depth_layers_absent_group c0 rs i Habs) as [Hg0 Ho0].
  assert (depth_group rs i ∉ groups c) as Hg.
  { rewrite Hgroups. intros [?|(j & Hj & Heq)]; [done|].
    apply depth_group_inj in Heq. lia. }
  assert (objects (store c) !! depth_group rs i = None) as Ho.
  { rewrite Hframe; [done|]. intros j _.
    repeat split; apply depth_group_ne_child. }
  assert (forall k, (depth_group rs i +:+ "/" +:+ k ∉ groups c)
                    /\ objects (store c) !! (depth_group rs i +:+ "/" +:+ k) = None)
    as Hk.
  { intros k. pose proof (depth_layers_absent_child c0 rs i k Habs) as [Hgk Hok].
    split.
    - rewrite Hgroups. intros [?|(j & Hj & Heq)]; [done|].
      symmetry in Heq. by apply depth_group_ne_child in Heq.
    - rewrite Hframe; [done|]. intros j Hj.
      repeat split; intros Heq;
        apply depth_group_child_inj in Heq as [-> _]; lia. }
  destruct (setupVDOutput_layer_spec pars det rs i c d Hg Ho Hk Hd Hdet)
    as (c' & Hrun & Hfile' & Hgroups' & Hobjs' & HattrL & HdimsL & Haframe').
  exists c'. split; [done|].
  assert (forall j k k', (j < i)%nat ->
            depth_group rs i +:+ "/" +:+ k <> depth_group rs j +:+ "/" +:+ k')
    as Hne.
  { intros j k k' Hj Heq. apply depth_group_child_inj in Heq as [-> _]. lia. }
  repeat split.
  - congruence.
  - rewrite Hgroups', elem_of_union, elem_of_singleton, Hgroups.
    intros [->|[?|(j & Hj & ->)]].
    + right. exists i. split; [lia|done].
    + by left.
    + right. exists j. split; [lia|done].
  - rewrite Hgroups', elem_of_union, elem_of_singleton, Hgroups.
    intros [?|(j & Hj & ->)]; [by right; left|].
    destruct (decide (j = i)) as [->|?]; [by left|].
    right. right. exists j. split; [lia|done].
  - rewrite Hobjs'. destruct (decide (j = i)) as [->|?].
    + rewrite !lookup_insert_ne
        by (intros E; apply (inj (String.append _)) in E; discriminate E).
      by rewrite lookup_insert_eq.
    + rewrite !lookup_insert_ne by (apply (Hne j _ "realslice"); lia).
      apply Hobjs. lia.
  - rewrite Hobjs'. destruct (decide (j = i)) as [->|?].
    + rewrite !lookup_insert_ne
        by (intros E; apply (inj (String.append _)) in E; discriminate E).
      by rewrite lookup_insert_eq.
    + rewrite !lookup_insert_ne by (apply (Hne j _ "dim1"); lia).
      apply Hobjs. lia.
  - rewrite Hobjs'. destruct (decide (j = i)) as [->|?].
    + rewrite !lookup_insert_ne
        by (intros E; apply (inj (String.append _)) in E; discriminate E).
      by rewrite lookup_insert_eq.
    + rewrite !lookup_insert_ne by (apply (Hne j _ "dim2"); lia).
      apply Hobjs. lia.
  - rewrite Hobjs'. destruct (decide (j = i)) as [->|?].
    + by rewrite lookup_insert_eq.
    + rewrite !lookup_insert_ne by (apply (Hne j _ "dim3"); lia).
      apply Hobjs. lia.
  - intros p Hp. rewrite Hobjs'.
    destruct (Hp i) as (? & ? & ? & ?); [lia|].
    rewrite !lookup_insert_ne by done.
    apply Hframe. intros j Hj. apply Hp. lia.
  - intros j d' Hj Hdj. destruct (decide (j = i)) as [->|?].
    + rewrite Hd in Hdj. inversion Hdj; subst. done.
    + rewrite Haframe'.
      * apply Hattr; [lia|done].
      * intros Heq. apply depth_group_inj in Heq. lia.
      * intros k. apply depth_group_ne_child.
  - destruct (decide (j = i)) as [->|?]; [apply HdimsL|].
    rewrite Haframe'; [apply Hdims; lia| |].
    + apply not_eq_sym, depth_group_ne_child.
    + intros k Heq. apply depth_group_child_inj in Heq as [-> _]. lia.
  - destruct (decide (j = i)) as [->|?]; [apply HdimsL|].
    rewrite Haframe'; [apply Hdims; lia| |].
    + apply not_eq_sym, depth_group_ne_child.
    + intros k Heq. apply depth_group_child_inj in Heq as [-> _]. lia.
  - destruct (decide (j = i)) as [->|?]; [apply HdimsL|].
    rewrite Haframe'; [apply Hdims; lia| |].
    + apply not_eq_sym, depth_group_ne_child.
    + intros k Heq. apply depth_group_child_inj in Heq as [-> _]. lia.
  - intros o Hog Hoc. rewrite Haframe'.
    + apply Haframe; intros; [apply Hog|apply Hoc]; lia.
    + apply Hog. lia.
    + intros k. apply Hoc. lia.
Qed.

Lemma depth_layers_0 (pars : @Parameters T) (det : @Detector T) rs c0 :
  depth_layers pars det rs c0 c0 0.
Proof.
  repeat split; try (intros; lia); try done.
  - by left.
  - intros [?|(j & ? & _)]; [done|lia].
Qed.

Lemma setupVDOutput_spec (pars : @Parameters T) (det : @Detector T)
    (numLayers : N) c0 :
  realslices_path ∈ groups c0 ->
  depth_layers_absent c0 realslices_path ->
  numLayers <= INT_MAX ->
  (N.to_nat numLayers <= length (depths det))%nat ->
  (N.to_nat (Ndet det) <= length (detectorAngles det))%nat ->
  exists c, setupVDOutput pars det numLayers c0 = Some c
    /\ depth_layers pars det realslices_path c0 c (N.to_nat numLayers).
Proof.
  intros Hrs Habs Hmax Hdepths Hdet. unfold setupVDOutput, openGroup.
  change (link_path root "4DSTEM_simulation/data/realslices")
    with realslices_path.
  rewrite bool_decide_eq_true_2 by done. cbn [mbind option_bind].
  apply (for_int_invariant
           (fun i c => depth_layers pars det realslices_path c0 c i));
    [done|apply depth_layers_0|].
  intros i c Hi Hinv. apply depth_layers_step; try done. lia.
Qed.

End SetupVD.

Section CopyFacts.
Context {T : Type} {pfp : PFP T}.
Implicit Types c : @Container T.

(** Copying a dataset: the copy carries the extents, the data and the
    attributes of the source under the source's last path component. *)
Lemma copyDataSet_spec c (targetGroup dir name : string) dims data :
  has_char "/" name = false ->
  N.of_nat (String.length (dir +:+ "/" +:+ name)) < 2 ^ 64 ->
  objects (store c) !! (dir +:+ "/" +:+ name) = Some (H5Data dims data) ->
  (targetGroup +:+ "/" +:+ name) ∉ groups c ->
  objects (store c) !! (targetGroup +:+ "/" +:+ name) = None ->
  copyDataSet c targetGroup (dir +:+ "/" +:+ name)
  = Some (mkContainer
            (mkH5File (file_name (store c))
               (<[targetGroup +:+ "/" +:+ name := H5Data dims data]>
                  (objects (store c))))
            (groups c)
            (<[targetGroup +:+ "/" +:+ name :=
                 attributes_of c (dir +:+ "/" +:+ name)]>
               (delete (targetGroup +:+ "/" +:+ name) (attributes c)))).
Proof.
  intros Hname Hlen Hsrc Hg Ho. unfold copyDataSet.
  rewrite reducedDataSetName_last_component by done.
  cbn [mbind option_bind]. rewrite Hsrc. cbn [mbind option_bind].
  rewrite createDataSet_fresh; rewrite link_path_relative by done; try done.
  cbn [mbind option_bind store groups attributes objects file_name].
  assert (targetGroup +:+ "/" +:+ name <> dir +:+ "/" +:+ name) as Hne.
  { intros Heq. rewrite Heq in Ho. congruence. }
  rewrite attributes_of_delete.
  rewrite attributes_of_delete_ne by done.
  destruct (decide _) as [_|Hd].
  - do 2 f_equal. by rewrite (right_id_L ∅ (∪)).
  - exfalso. apply Hd. apply map_disjoint_empty_r.
Qed.

End CopyFacts.

Section SupergroupFacts.
Context {T : Type} {pfp : PFP T}.
Implicit Types c : @Container T.

Lemma dimension_paths_ne (a b k k' : string) :
  has_char "/" k = false -> has_char "/" k' = false -> k <> k' ->
  a +:+ "/" +:+ k <> b +:+ "/" +:+ k'.
Proof. intros Hk Hk' Hne H. by apply last_component_inj in H as [_ ?]. Qed.

Lemma for_int_one {St : Type} (body : nat -> St -> option St) (s : St) :
  for_int 1 body s = body 0%nat s.
Proof.
  unfold for_int, for_range. change (1 <=? INT_MAX) with true.
  change (N.to_nat 1 - 0)%nat with 1%nat. simpl. by destruct (body 0%nat s).
Qed.

Lemma configureSupergroup_spec c (sg src : string) (values : list T)
    (label units : string) (d1 d2 d3 : list N) (x1 x2 x3 : list cell) :
  attributes_of c sg = ∅ ->
  objects (store c) !! sg = None ->
  N.of_nat (String.length src) + 5 < 2 ^ 64 ->
  objects (store c) !! (src +:+ "/dim1") = Some (H5Data d1 x1) ->
  objects (store c) !! (src +:+ "/dim2") = Some (H5Data d2 x2) ->
  objects (store c) !! (src +:+ "/dim3") = Some (H5Data d3 x3) ->
  (src +:+ "/dim4") ∉ groups c ->
  objects (store c) !! (src +:+ "/dim4") = None ->
  (forall k, k ∈ ["dim1"; "dim2"; "dim3"; "sgdim1"] ->
     ((sg +:+ "/" +:+ k) ∉ groups c)
     /\ objects (store c) !! (sg +:+ "/" +:+ k) = None) ->
  exists c',
    configureSupergroup c sg src [values] [label] [units] = Some c'
    /\ file_name (store c') = file_name (store c)
    /\ groups c' = groups c
    /\ objects (store c')
       = <[sg +:+ "/sgdim1" :=
             H5Data [N.of_nat (length values)] (Some <$> values)]>
         (<[sg +:+ "/dim3" := H5Data d3 x3]>
          (<[sg +:+ "/dim2" := H5Data d2 x2]>
           (<[sg +:+ "/dim1" := H5Data d1 x1]> (objects (store c)))))
    /\ attributes_of c' sg
       = <["metadata" := AInt 0]> (<["emd_group_type" := AInt 3]> ∅)
    /\ attributes_of c' (sg +:+ "/sgdim1")
       = <["units" := AString units]> (<["name" := AString label]> ∅)
    /\ attributes_of c' (sg +:+ "/dim1") = attributes_of c (src +:+ "/dim1")
    /\ attributes_of c' (sg +:+ "/dim2") = attributes_of c (src +:+ "/dim2")
    /\ attributes_of c' (sg +:+ "/dim3") = attributes_of c (src +:+ "/dim3").
Proof.
  intros Hattr Hsg Hlen H1 H2 H3 Hg4 Ho4 Hk.
  assert (sg <> src +:+ "/dim1") as Hs1 by congruence.
  assert (sg <> src +:+ "/dim2") as Hs2 by congruence.
  assert (sg <> src +:+ "/dim3") as Hs3 by congruence.
  pose proof (Hk "dim1" ltac:(repeat constructor)) as [Hgs1 Hos1].
  pose proof (Hk "dim2" ltac:(repeat constructor)) as [Hgs2 Hos2].
  pose proof (Hk "dim3" ltac:(repeat constructor)) as [Hgs3 Hos3].
  pose proof (Hk "sgdim1" ltac:(repeat constructor)) as [Hgs4 Hos4].
  change ("/" +:+ "dim1") with "/dim1" in *.
  change ("/" +:+ "dim2") with "/dim2" in *.
  change ("/" +:+ "dim3") with "/dim3" in *.
  change ("/" +:+ "sgdim1") with "/sgdim1" in *.
  assert (sg +:+ "/dim1" <> src +:+ "/dim1") as Hn11 by congruence.
  assert (sg +:+ "/dim2" <> src +:+ "/dim2") as Hn22 by congruence.
  assert (sg +:+ "/dim3" <> src +:+ "/dim3") as Hn33 by congruence.
  assert (forall k k', has_char "/" k = false -> has_char "/" k' = false ->
            k <> k' -> sg +:+ "/" +:+ k <> src +:+ "/" +:+ k') as Hcross.
  { intros. by apply dimension_paths_ne. }
  pose proof (Hcross "dim1" "dim2" eq_refl eq_refl ltac:(done)) as Hn12.
  pose proof (Hcross "dim1" "dim3" eq_refl eq_refl ltac:(done)) as Hn13.
  pose proof (Hcross "dim2" "dim3" eq_refl eq_refl ltac:(done)) as Hn23.
  pose proof (Hcross "dim2" "dim1" eq_refl eq_refl ltac:(done)) as Hn21.
  pose proof (Hcross "dim3" "dim1" eq_refl eq_refl ltac:(done)) as Hn31.
  pose proof (Hcross "dim3" "dim2" eq_refl eq_refl ltac:(done)) as Hn32.
  pose proof (Hcross "dim1" "dim4" eq_refl eq_refl ltac:(done)) as Hn14.
  pose proof (Hcross "dim2" "dim4" eq_refl eq_refl ltac:(done)) as Hn24.
  pose proof (Hcross "dim3" "dim4" eq_refl eq_refl ltac:(done)) as Hn34.
  change ("/" +:+ "dim1") with "/dim1" in *.
  change ("/" +:+ "dim2") with "/dim2" in *.
  change ("/" +:+ "dim3") with "/dim3" in *.
  change ("/" +:+ "dim4") with "/dim4" in *.
  assert (forall k : string,
            N.of_nat (String.length (src +:+ "/" +:+ k))
            = N.of_nat (String.length src) + 1 + N.of_nat (String.length k))
    as Hsize.
  { intros k. rewrite !string_length_app. simpl. lia. }
  unfold configureSupergroup.
  step; [|by rewrite Hattr].
  step; [|by rewrite attributes_of_insert, Hattr].
  rewrite (countDimensions_least _ _ _ 3).
  2:{ change (Z.of_N INT_MAX) with 2147483647%Z. lia. }
  2:{ intros i Hi. apply nameExists_true. right.
      cbn [store groups attributes objects file_name].
      assert (i = 1 \/ i = 2 \/ i = 3)%Z as [->|[->| ->]] by lia.
      - change (link_path src ("dim" +:+ to_string 1)) with (src +:+ "/dim1").
        by rewrite H1.
      - change (link_path src ("dim" +:+ to_string 2)) with (src +:+ "/dim2").
        by rewrite H2.
      - change (link_path src ("dim" +:+ to_string 3)) with (src +:+ "/dim3").
        by rewrite H3. }
  2:{ apply nameExists_false.
      cbn [store groups attributes objects file_name].
      change (link_path src ("dim" +:+ to_string (3 + 1)))
        with (src +:+ "/dim4"). done. }
  cbn [mbind option_bind]. change (Z.to_nat 3) with 3%nat. cbn [for_loop].
  unfold openDataSet. cbn [store groups attributes objects file_name].
  change (link_path src ("dim" +:+ to_string (Z.of_nat 0 + 1)))
    with (src +:+ "/dim1").
  change (link_path src ("dim" +:+ to_string (Z.of_nat 1 + 1)))
    with (src +:+ "/dim2").
  change (link_path src ("dim" +:+ to_string (Z.of_nat 2 + 1)))
    with (src +:+ "/dim3").
  rewrite H1. cbn [mbind option_bind].
  rewrite (copyDataSet_spec _ sg src "dim1" d1 x1); try done.
  2:{ rewrite Hsize. simpl String.length. lia. }
  cbn [mbind option_bind store groups attributes objects file_name].
  rewrite lookup_insert_ne by done. rewrite H2. cbn [mbind option_bind].
  rewrite (copyDataSet_spec _ sg src "dim2" d2 x2); try done.
  2:{ rewrite Hsize. simpl String.length. lia. }
  2:{ cbn [store objects]. by rewrite lookup_insert_ne. }
  2:{ cbn [store objects]. by rewrite lookup_insert_ne by path_ne. }
  cbn [mbind option_bind store groups attributes objects file_name].
  rewrite !lookup_insert_ne by done. rewrite H3. cbn [mbind option_bind].
  rewrite (copyDataSet_spec _ sg src "dim3" d3 x3); try done.
  2:{ rewrite Hsize. simpl String.length. lia. }
  2:{ cbn [store objects]. by rewrite !lookup_insert_ne. }
  2:{ cbn [store objects]. by rewrite !lookup_insert_ne by path_ne. }
  cbn [mbind option_bind store groups attributes objects file_name].
  change (N.of_nat (length [values])) with 1. rewrite for_int_one.
  change ([values] !! 0%nat) with (Some values).
  change ([label] !! 0%nat) with (Some label).
  change ([units] !! 0%nat) with (Some units).
  cbn [mbind option_bind].
  change ("sgdim" +:+ to_string (Z.of_nat 0 + 1)) with "sgdim1".
  change (link_path sg "sgdim1") with (sg +:+ "/sgdim1").
  step.
  2:{ done. }
  2:{ by rewrite !lookup_insert_ne by path_ne. }
  change (link_path sg "sgdim1") with (sg +:+ "/sgdim1").
  step; [|by attrs].
  step; [|by attrs].
  eexists. split; [reflexivity|].
  cbn [store groups attributes objects file_name].
  split; [done|]. split; [done|]. split; [done|].
  split; [attrs; by rewrite Hattr|]. split; [by attrs|].
  repeat split; by attrs.
Qed.

End SupergroupFacts.

Section DepthSeries.
Context {T : Type} {pfp : PFP T}.
Implicit Types c : @Container T.

Lemma depth_group_absolute i :
  is_absolute (depth_group realslices_path i) = true.
Proof. by rewrite depth_group_eq. Qed.

Lemma supergroups_ne_realslices (x y : string) :
  supergroups_path +:+ x <> realslices_path +:+ y.
Proof. intros H. vm_compute in H. discriminate H. Qed.

Lemma depth_series_ne_depth_group (x y : string) (i : nat) :
  supergroups_path +:+ x <> depth_group realslices_path i +:+ y.
Proof.
  rewrite depth_group_eq, !string_app_assoc.
  apply supergroups_ne_realslices.
Qed.

Lemma depth_series_ne_depth_group' (x : string) (i : nat) :
  supergroups_path +:+ x <> depth_group realslices_path i.
Proof. rewrite depth_group_eq. apply supergroups_ne_realslices. Qed.

Lemma gather_depth_spec c (det : @Detector T) (n : nat) :
  (n <= length (depths det))%nat ->
  (forall i d, (i < n)%nat -> depths det !! i = Some d ->
     depth_group realslices_path i ∈ groups c
     /\ is_Some (objects (store c)
                   !! (depth_group realslices_path i +:+ "/realslice"))
     /\ attributes_of c (depth_group realslices_path i) !! "output_depth"
        = Some (AReal d)) ->
  for_loop n 0 (gather_depth c realslices_path) ([], [], [])
  = Some ((fun j => depth_group realslices_path j +:+ "/realslice")
            <$> seq 0 n,
          depthSeries_indices n, take n (depths det)).
Proof.
  intros Hn Hlayers.
  destruct (for_loop_invariant
    (fun i (st : list string * list (list N) * list T) =>
       st = ((fun j => depth_group realslices_path j +:+ "/realslice")
               <$> seq 0 i,
             depthSeries_indices i, take i (depths det)))
    (gather_depth c realslices_path) n 0 ([], [], []))
    as (st & Hrun & Hst).
  - done.
  - intros i st Hi ->.
    destruct (lookup_lt_is_Some_2 (depths det) i) as [d Hd]; [lia|].
    destruct (Hlayers i d) as (Hg & [node Ho] & Ha); [lia|done|].
    assert (gather_depth c realslices_path i
              ((fun j => depth_group realslices_path j +:+ "/realslice")
                 <$> seq 0 i,
               depthSeries_indices i, take i (depths det))
            = Some (((fun j => depth_group realslices_path j +:+ "/realslice")
                       <$> seq 0 i)
                    ++ [depth_group realslices_path i +:+ "/realslice"],
                    depthSeries_indices i ++ [[N.of_nat i]],
                    take i (depths det) ++ [d])) as Hbody.
    { unfold gather_depth. cbv zeta. unfold openGroup.
      fold (depth_group realslices_path i).
      rewrite bool_decide_eq_true_2 by done. cbn [mbind option_bind].
      unfold openDataSet.
      change (link_path (depth_group realslices_path i) "realslice")
        with (depth_group realslices_path i +:+ "/realslice").
      rewrite Ho. cbn [mbind option_bind].
      unfold readAttribute, openGroup.
      unfold link_path. rewrite (depth_group_absolute i).
      rewrite bool_decide_eq_true_2 by done. cbn [mbind option_bind].
      rewrite Ha. cbn [mbind option_bind fst snd]. reflexivity. }
    rewrite Hbody. eexists. split; [done|].
    unfold depthSeries_indices. rewrite !seq_S, !fmap_app.
    by rewrite (take_S_r _ _ d).
  - simpl in Hst. by rewrite Hrun, Hst.
Qed.

Lemma depthSeries_indices_max (n : nat) (v : N) :
  max_index_along (depthSeries_indices n) 0 v ->
  v = N.of_nat (n - 1) /\ (1 <= n)%nat.
Proof.
  intros [Hub (t & Hin & Ht)]. unfold depthSeries_indices in *.
  apply list_elem_of_fmap in Hin as (i & -> & Hi).
  apply elem_of_seq in Hi. simpl in Ht. inversion Ht; subst.
  split; [|lia].
  assert (N.of_nat (n - 1) <= N.of_nat i); [|lia].
  apply (Hub [N.of_nat (n - 1)]); [|done].
  apply list_elem_of_fmap. exists (n - 1)%nat. split; [done|].
  apply elem_of_seq. lia.
Qed.

End DepthSeries.

Section DepthSeriesSpec.
Context {T : Type} {pfp : PFP T}.
Implicit Types c : @Container T.

Local Abbreviation DS := depth_series_path.
Local Abbreviation G := (depth_group realslices_path).

Lemma depthSeriesSG_spec (pars : @Parameters T) (det : @Detector T)
    c0 c (n : nat) :
  (1 <= n)%nat -> N.of_nat n <= INT_MAX ->
  (n <= length (depths det))%nat ->
  supergroups_path ∈ groups c0 ->
  realslices_path ∈ groups c0 ->
  depth_layers_absent c0 realslices_path ->
  depth_series_absent c0 supergroups_path ->
  depth_layers pars det realslices_path c0 c n ->
  exists c' maps,
    depthSeriesSG c = Some c'
    /\ objects (store c') !! (depth_series_path +:+ "/supergroup")
       = Some (H5Virtual
                 [get_dimi (xp pars); get_dimi (yp pars); Ndet det; N.of_nat n]
                 maps)
    /\ length maps = n
    /\ (forall i, (i < n)%nat ->
          maps !! i
          = Some (mkVMapping [0; 0; 0; N.of_nat i]
                    [get_dimi (xp pars); get_dimi (yp pars); Ndet det; 1]
                    (file_name (store c0))
                    (depth_group realslices_path i +:+ "/realslice")
                    [get_dimi (xp pars); get_dimi (yp pars); Ndet det]))
    /\ objects (store c') !! (depth_series_path +:+ "/sgdim1")
       = Some (H5Data [N.of_nat n] (Some <$> take n (depths det)))
    /\ attributes_of c' (depth_series_path +:+ "/sgdim1")
       = <["units" := AString "[Å]"]> (<["name" := AString "Depth"]> ∅)
    /\ objects (store c') !! (depth_series_path +:+ "/dim1")
       = Some (H5Data [get_dimi (xp pars)] (Some <$> xp pars))
    /\ objects (store c') !! (depth_series_path +:+ "/dim2")
       = Some (H5Data [get_dimi (yp pars)] (Some <$> yp pars))
    /\ objects (store c') !! (depth_series_path +:+ "/dim3")
       = Some (H5Data [Ndet det]
                 (Some <$> take (N.to_nat (Ndet det)) (detectorAngles det))).
Proof.
  intros Hn Hmax Hdepths Hsg Hrs Habs Hsabs
    (Hfile & Hgroups & Hobjs & Hframe & Hattr & Hdims & Haframe).
  (* what the container holds *)
  assert (forall s, ((supergroups_path +:+ "/vd_depth_series" +:+ s) ∉ groups c)
                    /\ objects (store c)
                         !! (supergroups_path +:+ "/vd_depth_series" +:+ s)
                       = None) as Hfresh.
  { intros s. destruct (Hsabs s) as [Hg Ho]. split.
    - rewrite Hgroups. intros [?|(j & _ & Heq)]; [done|].
      by apply depth_series_ne_depth_group' in Heq.
    - rewrite Hframe; [done|]. intros j _.
      repeat split; apply depth_series_ne_depth_group. }
  assert (forall s, ((DS +:+ s) ∉ groups c)
                    /\ objects (store c) !! (DS +:+ s) = None) as HDS.
  { intros s. apply (Hfresh s). }
  assert ((DS ∉ groups c) /\ objects (store c) !! DS = None) as [HDSg HDSo].
  { pose proof (HDS "") as H. by rewrite string_app_nil_r in H. }
  assert (forall i, (i < n)%nat -> G i ∈ groups c) as HGi.
  { intros i Hi. apply Hgroups. right. by exists i. }
  assert ((G n ∉ groups c) /\ objects (store c) !! G n = None) as [HGn HGno].
  { destruct (depth_layers_absent_group c0 realslices_path n Habs). split.
    - rewrite Hgroups. intros [?|(j & Hj & Heq)]; [done|].
      apply depth_group_inj in Heq. lia.
    - rewrite Hframe; [done|]. intros j _.
      repeat split; apply depth_group_ne_child. }
  assert (((G 0%nat +:+ "/dim4") ∉ groups c)
          /\ objects (store c) !! (G 0%nat +:+ "/dim4") = None) as [Hd4g Hd4o].
  { destruct (depth_layers_absent_child c0 realslices_path 0 "dim4" Habs).
    split.
    - rewrite Hgroups. intros [?|(j & Hj & Heq)]; [done|].
      symmetry in Heq. by apply depth_group_ne_child in Heq.
    - rewrite Hframe; [done|]. intros j _.
      repeat split; intros Heq;
        apply (depth_group_child_inj _ _ _ "dim4") in Heq as [_ ?]; done. }
  destruct (Hobjs 0%nat) as (_ & H01 & H02 & H03); [lia|].
  (* the run *)
  unfold depthSeriesSG, openGroup.
  change (link_path root "4DSTEM_simulation/data/supergroups")
    with supergroups_path.
  change (link_path root "4DSTEM_simulation/data/realslices")
    with realslices_path.
  change (link_path supergroups_path "vd_depth_series") with DS.
  rewrite bool_decide_eq_true_2 by (apply Hgroups; by left).
  cbn [mbind option_bind].
  rewrite createGroup_fresh;
    change (link_path supergroups_path "vd_depth_series") with DS; try done.
  cbn [mbind option_bind store groups attributes objects file_name].
  rewrite bool_decide_eq_true_2
    by (apply elem_of_union_r, Hgroups; by left).
  cbn [mbind option_bind].
  rewrite (countDataGroups_least _ _ _ (Z.of_nat n)).
  2:{ change (Z.of_N INT_MAX) with 2147483647%Z.
      change INT_MAX with 2147483647 in Hmax. lia. }
  2:{ intros i Hi. apply nameExists_true. left.
      cbn [store groups attributes objects file_name].
      replace i with (Z.of_nat (Z.to_nat i)) by lia.
      fold (depth_group realslices_path (Z.to_nat i)).
      apply elem_of_union_r, HGi. lia. }
  2:{ apply nameExists_false.
      cbn [store groups attributes objects file_name].
      fold (depth_group realslices_path n). fold (G n). split; [|done].
      rewrite not_elem_of_union, not_elem_of_singleton. split; [|done].
      apply not_eq_sym. apply (depth_series_ne_depth_group' "/vd_depth_series"). }
  cbn [mbind option_bind]. rewrite Nat2Z.id.
  rewrite (gather_depth_spec _ det n); [|done|].
  2:{ intros i d Hi Hd. cbn [store groups attributes objects file_name].
      split; [apply elem_of_union_r, HGi; done|]. split.
      - destruct (Hobjs i Hi) as (-> & _). by eexists.
      - rewrite attributes_of_delete_ne.
        + change (attributes_of {| store := store c; groups := {[DS]} ∪ groups c;
                                   attributes := attributes c |}
                    (depth_group realslices_path i))
            with (attributes_of c (depth_group realslices_path i)).
          by rewrite (Hattr i d Hi Hd).
        + apply (depth_series_ne_depth_group' "/vd_depth_series"). }
  cbn [mbind option_bind fst snd].
  rewrite (proj2 (nameExists_false _ _ _)).
  2:{ cbn [store groups attributes objects file_name].
      change (link_path DS "supergroup") with (DS +:+ "/supergroup").
      split; [|apply HDS].
      rewrite not_elem_of_union, not_elem_of_singleton.
      split; [path_ne|apply HDS]. }
  cbn [store groups attributes objects file_name].
  set (dims := [get_dimi (xp pars); get_dimi (yp pars); Ndet det]).
  destruct (writeVirtualDataSet_spec (store c) DS "supergroup"
              ((fun j => G j +:+ "/realslice") <$> seq 0 n)
              (depthSeries_indices n) (G 0%nat +:+ "/realslice") dims 1)
    as (mx & maps & Hrun & Hmxl & Hcols & Hml & Hmaps).
  { destruct n; [lia|]. done. }
  { unfold getSpace. destruct (Hobjs 0%nat) as (-> & _); [lia|done]. }
  { unfold depthSeries_indices. by rewrite !length_fmap. }
  { unfold depthSeries_indices. apply list.Forall_forall. intros t Ht.
    apply list_elem_of_fmap in Ht as (i & -> & _). done. }
  { apply list.Forall_forall. intros ds Hds.
    apply list_elem_of_fmap in Hds as (i & -> & Hi). apply elem_of_seq in Hi.
    exists dims. unfold getSpace. destruct (Hobjs i) as (-> & _); [lia|done]. }
  { rewrite length_fmap, length_seq. done. }
  { vm_compute. congruence. }
  { apply HDS. }
  rewrite Hrun. cbn [mbind option_bind store groups attributes objects file_name].
  destruct mx as [|v [|? ?]]; try done.
  destruct (Hcols 0%nat) as (v' & Hv' & Hmaxv); [lia|].
  inversion Hv'; subst v'.
  apply depthSeries_indices_max in Hmaxv as [-> _].
  assert (wrap64 (N.of_nat (n - 1) + 1) = N.of_nat n) as Hwrap.
  { rewrite wrap64_small; [lia|]. change INT_MAX with 2147483647 in Hmax. lia. }
  cbn [fmap list_fmap app]. rewrite Hwrap.
  change (link_path DS "supergroup") with (DS +:+ "/supergroup").
  change (link_path realslices_path
            ("virtual_detector_depth" +:+ getDigitString 0))
    with (G 0%nat).
  rewrite bool_decide_eq_true_2
    by (apply elem_of_union_r, (HGi 0%nat); lia).
  cbn [mbind option_bind].
  edestruct (configureSupergroup_spec
               (mkContainer
                  (mkH5File (file_name (store c))
                     (<[DS +:+ "/" +:+ "supergroup" :=
                          H5Virtual (dims ++ [N.of_nat n]) maps]>
                        (objects (store c))))
                  ({[DS]} ∪ groups c)
                  (delete (DS +:+ "/supergroup") (delete DS (attributes c))))
               DS (G 0%nat) (take n (depths det)) "Depth" "[Å]")
    as (c' & Hconf & Hfile' & Hgroups' & Hobjs' & _ & Hsgattr & _).
  { by attrs. }
  { cbn [store objects]. by rewrite lookup_insert_ne by path_ne. }
  { vm_compute. done. }
  { cbn [store objects]. rewrite lookup_insert_ne; [exact H01|].
    apply (depth_series_ne_depth_group "/vd_depth_series/supergroup" "/dim1"). }
  { cbn [store objects]. rewrite lookup_insert_ne; [exact H02|].
    apply (depth_series_ne_depth_group "/vd_depth_series/supergroup" "/dim2"). }
  { cbn [store objects]. rewrite lookup_insert_ne; [exact H03|].
    apply (depth_series_ne_depth_group "/vd_depth_series/supergroup" "/dim3"). }
  { cbn [groups]. rewrite not_elem_of_union, not_elem_of_singleton.
    split; [|done].
    apply not_eq_sym, (depth_series_ne_depth_group "/vd_depth_series" "/dim4"). }
  { cbn [store objects]. rewrite lookup_insert_ne; [done|].
    apply (depth_series_ne_depth_group "/vd_depth_series/supergroup" "/dim4"). }
  { intros k Hk. cbn [store groups objects]. split.
    - rewrite not_elem_of_union, not_elem_of_singleton. split; [path_ne|].
      apply HDS.
    - rewrite lookup_insert_ne; [apply HDS|].
      intros Heq. apply (inj (String.append DS)) in Heq.
      apply (inj (String.append "/")) in Heq. subst k.
      repeat (apply elem_of_cons in Hk as [Hk|Hk]; [discriminate Hk|]).
      by apply elem_of_nil in Hk. }
  exists c', maps. split; [exact Hconf|].
  rewrite Hobjs'. cbn [store objects].
  split.
  { rewrite !lookup_insert_ne by path_ne. by rewrite lookup_insert_eq. }
  split.
  { by rewrite Hml, length_fmap, length_seq. }
  split.
  { intros i Hi. rewrite <- Hfile.
    apply (Hmaps i _ [N.of_nat i]).
    - rewrite list_lookup_fmap, lookup_seq_lt by done. done.
    - unfold depthSeries_indices.
      rewrite list_lookup_fmap, lookup_seq_lt by done. done.
    - unfold getSpace. by destruct (Hobjs i Hi) as (-> & _). }
  split.
  { rewrite lookup_insert_eq. rewrite length_take.
    by replace (n `min` length (depths det))%nat with n by lia. }
  split; [exact Hsgattr|].
  split.
  { rewrite !lookup_insert_ne by path_ne. by rewrite lookup_insert_eq. }
  split.
  { rewrite !lookup_insert_ne by path_ne. by rewrite lookup_insert_eq. }
  rewrite !lookup_insert_ne by path_ne. by rewrite lookup_insert_eq.
Qed.

End DepthSeriesSpec.

Section Failures.
Context {T : Type} {pfp : PFP T}.
Implicit Types c : @Container T.

Lemma for_loop_sound {St : Type} (Inv : nat -> St -> Prop)
    (body : nat -> St -> option St) :
  (forall i s s', body i s = Some s' -> Inv i s -> Inv (S i) s') ->
  forall n i0 s s',
    Inv i0 s -> for_loop n i0 body s = Some s' -> Inv (i0 + n)%nat s'.
Proof.
  intros Hbody. induction n as [|n IH]; intros i0 s s' Hinv Hrun.
  - simpl in Hrun. inversion Hrun; subst. by rewrite Nat.add_0_r.
  - simpl in Hrun. destruct (body i0 s) as [s1|] eqn:Hb; [|done].
    replace (i0 + S n)%nat with (S i0 + n)%nat by lia.
    eapply IH; [|done]. by eapply Hbody.
Qed.

Lemma openGroup_inv c loc name g :
  openGroup c loc name = Some g ->
  g = link_path loc name /\ link_path loc name ∈ groups c.
Proof.
  unfold openGroup. case_bool_decide; [|done]. intros Heq. by inversion Heq.
Qed.

Lemma createGroup_inv c loc name c' :
  createGroup c loc name = Some c' ->
  nameExists c loc name = false
  /\ groups c' = {[link_path loc name]} ∪ groups c
  /\ store c' = store c.
Proof.
  unfold createGroup. destruct (nameExists c loc name); [done|].
  intros H. inversion H; subst. done.
Qed.

Lemma createDataSet_inv c loc name dims data c' :
  createDataSet c loc name dims data = Some c' ->
  nameExists c loc name = false
  /\ groups c' = groups c
  /\ objects (store c')
     = <[link_path loc name := H5Data dims data]> (objects (store c)).
Proof.
  unfold createDataSet. destruct (nameExists c loc name); [done|].
  intros H. inversion H; subst. done.
Qed.

Lemma createAttribute_inv c obj name v c' :
  createAttribute c obj name v = Some c' ->
  groups c' = groups c /\ store c' = store c.
Proof.
  unfold createAttribute. destruct (attributes_of c obj !! name); [done|].
  intros H. inversion H; subst. done.
Qed.

Lemma setupVDOutput_layer_groups (pars : @Parameters T) (det : @Detector T)
    rs n c c' :
  setupVDOutput_layer pars det rs n c = Some c' ->
  groups c' = {[depth_group rs n]} ∪ groups c.
Proof.
  unfold setupVDOutput_layer. cbv zeta. intros H. invert_binds.
  repeat match goal with
  | H : createGroup _ _ _ = Some _ |- _ =>
      apply createGroup_inv in H as (_ & ? & _)
  | H : createDataSet _ _ _ _ _ = Some _ |- _ =>
      apply createDataSet_inv in H as (_ & ? & _)
  | H : createAttribute _ _ _ _ = Some _ |- _ =>
      apply createAttribute_inv in H as (? & _)
  end.
  unfold depth_group. congruence.
Qed.

Lemma setupVDOutput_groups (pars : @Parameters T) (det : @Detector T)
    numLayers c c' :
  setupVDOutput pars det numLayers c = Some c' ->
  realslices_path ∈ groups c'
  /\ forall j, (j < N.to_nat numLayers)%nat ->
       depth_group realslices_path j ∈ groups c'.
Proof.
  unfold setupVDOutput, openGroup.
  change (link_path root "4DSTEM_simulation/data/realslices")
    with realslices_path.
  case_bool_decide as Hrs; [|done]. cbn [mbind option_bind].
  unfold for_int, for_range. destruct (numLayers <=? INT_MAX); [|done].
  rewrite Nat.sub_0_r. intros Hrun.
  apply (for_loop_sound
           (fun i c => realslices_path ∈ groups c
                       /\ forall j, (j < i)%nat ->
                            depth_group realslices_path j ∈ groups c))
    in Hrun; [done| |].
  - intros i s s' Hbody [Hr Hj].
    apply setupVDOutput_layer_groups in Hbody. rewrite Hbody. split.
    + by apply elem_of_union_r.
    + intros j Hlt. destruct (decide (j = i)) as [->|?].
      * by apply elem_of_union_l, elem_of_singleton.
      * apply elem_of_union_r, Hj. lia.
  - split; [done|]. intros; lia.
Qed.

Lemma setupVDOutput_layer_taken (pars : @Parameters T) (det : @Detector T)
    rs n c :
  depth_group rs n ∈ groups c ->
  setupVDOutput_layer pars det rs n c = None.
Proof.
  intros H. unfold setupVDOutput_layer. cbv zeta. unfold createGroup.
  fold (depth_group rs n).
  rewrite (proj2 (nameExists_true c rs _)); [done|]. by left.
Qed.

Lemma setupVDOutput_layer_no_depth (pars : @Parameters T) (det : @Detector T)
    rs n c :
  depths det !! n = None ->
  setupVDOutput_layer pars det rs n c = None.
Proof.
  intros H. unfold setupVDOutput_layer. cbv zeta.
  destruct (createGroup _ _ _) as [c1|]; [|done]. cbn [mbind option_bind].
  destruct (createAttribute c1 _ _ _) as [c2|]; [|done].
  cbn [mbind option_bind].
  destruct (createAttribute c2 _ _ _) as [c3|]; [|done].
  cbn [mbind option_bind]. by rewrite H.
Qed.

Lemma setupVDOutput_twice (pars pars' : @Parameters T) (det det' : @Detector T)
    (numLayers numLayers' : N) c c' :
  0 < numLayers -> 0 < numLayers' ->
  setupVDOutput pars det numLayers c = Some c' ->
  setupVDOutput pars' det' numLayers' c' = None.
Proof.
  intros Hn Hn' Hrun. apply setupVDOutput_groups in Hrun as [Hrs Hlayers].
  unfold setupVDOutput, openGroup.
  change (link_path root "4DSTEM_simulation/data/realslices")
    with realslices_path.
  rewrite bool_decide_eq_true_2 by done. cbn [mbind option_bind].
  unfold for_int, for_range. destruct (numLayers' <=? INT_MAX); [|done].
  destruct (N.to_nat numLayers' - 0)%nat as [|m] eqn:Hm; [lia|].
  cbn [for_loop]. rewrite setupVDOutput_layer_taken; [done|].
  apply Hlayers. lia.
Qed.

Lemma setupVDOutput_short_depths (pars : @Parameters T) (det : @Detector T)
    (numLayers : N) c :
  (length (depths det) < N.to_nat numLayers)%nat ->
  setupVDOutput pars det numLayers c = None.
Proof.
  intros Hlen. unfold setupVDOutput.
  destruct (openGroup _ _ _) as [rs|]; [|done]. cbn [mbind option_bind].
  unfold for_int, for_range. destruct (numLayers <=? INT_MAX); [|done].
  apply (for_loop_fails _ (length (depths det))); [|lia].
  intros s. apply setupVDOutput_layer_no_depth. by apply lookup_ge_None_2.
Qed.

Lemma depthSeriesSG_no_layers c :
  nameExists c realslices_path "virtual_detector_depth0000" = false ->
  depthSeriesSG c = None.
Proof.
  intros Habs. apply nameExists_false in Habs as [Hg Ho].
  change (link_path realslices_path "virtual_detector_depth0000")
    with (depth_group realslices_path 0) in *.
  unfold depthSeriesSG.
  destruct (openGroup c root _) as [sg|] eqn:Hsg; [|done].
  cbn [mbind option_bind].
  destruct (createGroup c sg "vd_depth_series") as [c1|] eqn:Hc1; [|done].
  cbn [mbind option_bind].
  destruct (openGroup c1 root _) as [rs|] eqn:Hrs; [|done].
  cbn [mbind option_bind].
  apply openGroup_inv in Hsg as [-> Hsg].
  apply openGroup_inv in Hrs as [-> Hrs].
  change (link_path root "4DSTEM_simulation/data/supergroups")
    with supergroups_path in *.
  change (link_path root "4DSTEM_simulation/data/realslices")
    with realslices_path in *.
  apply createGroup_inv in Hc1 as (_ & Hgroups & Hstore).
  rewrite (countDataGroups_least _ _ _ 0); [|done|intros; lia|].
  - cbn [mbind option_bind]. change (Z.to_nat 0) with 0%nat.
    cbn [for_loop mbind option_bind fst snd].
    destruct (nameExists c1 _ _); [done|]. done.
  - apply nameExists_false.
    change (link_path realslices_path
              ("virtual_detector_depth" +:+ getDigitString 0))
      with (depth_group realslices_path 0).
    rewrite Hgroups, Hstore. split; [|done].
    rewrite not_elem_of_union, not_elem_of_singleton. split; [|done].
    apply not_eq_sym.
    apply (depth_series_ne_depth_group' "/vd_depth_series" 0).
Qed.

End Failures.

Ltac norm_paths :=
  repeat match goal with
  | |- context [link_path ?a ?b] =>
      let p := eval vm_compute in (link_path a b) in
      change (link_path a b) with p
  end.

Section OutputFile.
Context {T : Type} {pfp : PFP T}.
Implicit Types c : @Container T.

Lemma createGroup_fresh_list c (l : list string) (g0 : gset string)
    (loc name : string) :
  groups c = list_to_set l ∪ g0 ->
  bool_decide (link_path loc name ∈ l) = false ->
  link_path loc name ∉ g0 ->
  objects (store c) !! link_path loc name = None ->
  createGroup c loc name
  = Some (mkContainer (store c) (list_to_set (link_path loc name :: l) ∪ g0)
            (delete (link_path loc name) (attributes c))).
Proof.
  intros Hg Hl Hg0 Ho. apply bool_decide_eq_false in Hl.
  rewrite createGroup_fresh; [| |done].
  - do 2 f_equal. rewrite Hg, list_to_set_cons. by rewrite (assoc_L (∪)).
  - rewrite Hg, not_elem_of_union, not_elem_of_list_to_set. done.
Qed.

Ltac group_step Habs :=
  erewrite createGroup_fresh_list;
  [ norm_paths;
    cbn [mbind option_bind store groups attributes objects file_name]
  | cbn [groups]; reflexivity
  | vm_compute; reflexivity
  | apply (proj1 (Habs _))
  | cbn [store]; apply (proj2 (Habs _)) ].

Lemma setupOutputFile_spec c :
  simulation_absent c ->
  exists c',
    setupOutputFile c = Some c'
    /\ store c' = store c
    /\ (forall p, p ∈ groups c' <-> p ∈ output_groups \/ p ∈ groups c)
    /\ attributes_of c' "/4DSTEM_simulation"
       = <["emd_group_type" := AInt 2]>
           (<["version_minor" := AInt 5]> (<["version_major" := AInt 0]> ∅)).
Proof.
  intros Habs. unfold setupOutputFile. cbv zeta. norm_paths.
  rewrite (createGroup_fresh_list _ [] (groups c));
    [ norm_paths;
      cbn [mbind option_bind store groups attributes objects file_name]
    | symmetry; apply (left_id_L ∅ (∪))
    | vm_compute; reflexivity
    | apply (proj1 (Habs _))
    | apply (proj2 (Habs _)) ].
  step; [|by attrs].
  step; [|by attrs].
  step; [|by attrs].
  do 18 group_step Habs.
  eexists. split; [reflexivity|].
  cbn [store groups attributes objects file_name].
  split; [done|]. split.
  - intros p. rewrite elem_of_union, elem_of_list_to_set.
    change (p ∈ reverse output_groups \/ p ∈ groups c
            <-> p ∈ output_groups \/ p ∈ groups c).
    by rewrite elem_of_reverse.
  - by attrs.
Qed.

End OutputFile.

Section Prepared.
Context {T : Type} {pfp : PFP T}.
Implicit Types c : @Container T.

Lemma output_groups_no_layer (s : string) :
  realslices_path +:+ "/virtual_detector_depth" +:+ s ∉ output_groups.
Proof.
  intros Hin. unfold output_groups in Hin.
  repeat (apply elem_of_cons in Hin as [Hin|Hin];
          [vm_compute in Hin; discriminate Hin|]).
  by apply elem_of_nil in Hin.
Qed.

Lemma output_groups_no_series (s : string) :
  supergroups_path +:+ "/vd_depth_series" +:+ s ∉ output_groups.
Proof.
  intros Hin. unfold output_groups in Hin.
  repeat (apply elem_of_cons in Hin as [Hin|Hin];
          [vm_compute in Hin; discriminate Hin|]).
  by apply elem_of_nil in Hin.
Qed.

Lemma setupOutputFile_prepares c :
  simulation_absent c ->
  exists c',
    setupOutputFile c = Some c'
    /\ store c' = store c
    /\ realslices_path ∈ groups c'
    /\ supergroups_path ∈ groups c'
    /\ depth_layers_absent c' realslices_path
    /\ depth_series_absent c' supergroups_path.
Proof.
  intros Habs.
  destruct (setupOutputFile_spec c Habs) as (c' & Hrun & Hstore & Hgroups & _).
  exists c'. split; [done|]. split; [done|].
  split; [apply Hgroups; left; unfold output_groups; by repeat constructor|].
  split; [apply Hgroups; left; unfold output_groups; by repeat constructor|].
  split.
  - intros s. rewrite Hstore, Hgroups. split.
    + intros [Hin|Hin]; [by apply output_groups_no_layer in Hin|].
      revert Hin.
      apply (proj1 (Habs ("/data/realslices/virtual_detector_depth" +:+ s))).
    + apply (proj2 (Habs ("/data/realslices/virtual_detector_depth" +:+ s))).
  - intros s. rewrite Hstore, Hgroups. split.
    + intros [Hin|Hin]; [by apply output_groups_no_series in Hin|].
      revert Hin.
      apply (proj1 (Habs ("/data/supergroups/vd_depth_series" +:+ s))).
    + apply (proj2 (Habs ("/data/supergroups/vd_depth_series" +:+ s))).
Qed.

Lemma setupOutputFile_groups c c' :
  setupOutputFile c = Some c' -> "/4DSTEM_simulation" ∈ groups c'.
Proof.
  unfold setupOutputFile. cbv zeta. intros H. invert_binds.
  repeat match goal with
  | H : createGroup _ _ _ = Some _ |- _ =>
      apply createGroup_inv in H as (_ & ? & _)
  | H : createAttribute _ _ _ _ = Some _ |- _ =>
      apply createAttribute_inv in H as (? & _)
  end.
  repeat match goal with
  | H : groups _ = groups _ |- _ => rewrite H; clear H
  | H : groups _ = _ ∪ groups _ |- _ => rewrite H; clear H
  end.
  rewrite !elem_of_union, !elem_of_singleton. tauto.
Qed.

End Prepared.

(** * Further properties: names, counting and the container layout *)

(** X1: for an index between 0 and 9999, [getDigitString] gives exactly
    four characters, and reading them back as a decimal number gives the
    index again. *)
Theorem X1_getDigitString_four_digits_round_trip (digit : Z) :
  (0 <= digit < 10000)%Z ->
  String.length (getDigitString digit) = 4%nat
  /\ decimal_value 0 (getDigitString digit) = Z.to_N digit.
Proof.
  intros Hd. split; [by apply getDigitString_width|].
  apply getDigitString_value. lia.
Qed.

Lemma X1_witness :
  String.length (getDigitString 42) = 4%nat
  /\ decimal_value 0 (getDigitString 42) = Z.to_N 42.
Proof. apply (X1_getDigitString_four_digits_round_trip 42). lia. Defined.

(** X2: different indices give different digit strings, for every [int],
    negative or wider than four digits included; so the group names
    built from them never collide. *)
Theorem X2_getDigitString_distinct (a b : Z) :
  a <> b -> getDigitString a <> getDigitString b.
Proof. intros Hne Heq. by apply getDigitString_inj in Heq. Qed.

Lemma X2_witness : getDigitString 9999 <> getDigitString 10000.
Proof. apply (X2_getDigitString_distinct 9999 10000). lia. Defined.

(** X3: for a path without any slash, [reducedDataSetName] returns the
    whole path: [find_last_of] gives [npos], and [npos + 1] wraps to
    position 0. *)
Theorem X3_reducedDataSetName_without_slash (name : string) :
  has_char "/" name = false -> reducedDataSetName name = Some name.
Proof. apply reducedDataSetName_no_slash. Qed.

Lemma X3_witness : reducedDataSetName "dim1" = Some "dim1".
Proof. apply (X3_reducedDataSetName_without_slash "dim1"). reflexivity. Defined.

(** X4: for a path shorter than 2^64 characters, [reducedDataSetName]
    never throws, and returns the part after the last slash: a suffix of
    the path that holds no slash, and the last component [name] of any
    path [dir/name]. *)
Theorem X4_reducedDataSetName_last_component (fullPath : string) :
  N.of_nat (String.length fullPath) < 2 ^ 64 ->
  (exists dir name,
      reducedDataSetName fullPath = Some name
      /\ has_char "/" name = false
      /\ fullPath = dir +:+ name)
  /\ (forall dir name,
        fullPath = dir +:+ "/" +:+ name -> has_char "/" name = false ->
        reducedDataSetName fullPath = Some name).
Proof.
  intros Hlen. split; [by apply reducedDataSetName_is_slash_free_suffix|].
  intros dir name -> Hname. by apply reducedDataSetName_last_component.
Qed.

Lemma X4_witness :
  (exists dir name,
      reducedDataSetName "/a/b/dim1" = Some name
      /\ has_char "/" name = false
      /\ "/a/b/dim1" = dir +:+ name)
  /\ (forall dir name,
        "/a/b/dim1" = dir +:+ "/" +:+ name -> has_char "/" name = false ->
        reducedDataSetName "/a/b/dim1" = Some name).
Proof.
  apply (X4_reducedDataSetName_last_component "/a/b/dim1"). vm_compute.
  reflexivity.
Defined.

(** X5: [countDataGroups] returns [n] exactly when the links
    [basename0000] ... up to index [n - 1] all exist in the group and the
    link of index [n] does not: it is the first gap, not the number of
    matching links, and the loop always ends on a container. *)
Theorem X5_countDataGroups_first_gap {T : Type} {pfp : PFP T}
    (c : @Container T) (group basename : string) (n : Z) :
  countDataGroups c group basename = Some n
  <-> (0 <= n <= Z.of_N INT_MAX)%Z
      /\ (forall i, (0 <= i < n)%Z ->
            nameExists c group (basename +:+ getDigitString i) = true)
      /\ nameExists c group (basename +:+ getDigitString n) = false.
Proof.
  split.
  - apply countDataGroups_sound.
  - intros (Hn & Hbelow & Hat). by apply countDataGroups_least.
Qed.

(** X6: [countDimensions] returns [n] exactly when [basename1] ...
    [basenamen] all exist in the group and [basename(n+1)] does not. *)
Theorem X6_countDimensions_first_gap {T : Type} {pfp : PFP T}
    (c : @Container T) (group basename : string) (n : Z) :
  countDimensions c group basename = Some n
  <-> (0 <= n < Z.of_N INT_MAX)%Z
      /\ (forall i, (1 <= i <= n)%Z ->
            nameExists c group (basename +:+ to_string i) = true)
      /\ nameExists c group (basename +:+ to_string (n + 1)) = false.
Proof.
  split.
  - unfold countDimensions. intros H.
    destruct (count_while _ _ _) as [k|] eqn:Hk; [|done].
    cbn [mbind option_bind] in H. inversion H; subst n. clear H.
    apply count_while_sound in Hk as (H1 & Hbelow & Hat & Hmax).
    change (Z.of_N INT_MAX) with 2147483647%Z in *.
    split; [lia|]. split.
    + intros i Hi. apply Hbelow. lia.
    + by replace (k - 1 + 1)%Z with k by lia.
  - intros (Hn & Hbelow & Hat). by apply countDimensions_least.
Qed.

(** X7: [copyDataSet] of a dataset [dir/name] into a group that has no
    link [name] creates [targetGroup/name] with the extents, the data and
    the attributes of the source, leaves the source and the groups as
    they were, and cannot be repeated: the second copy finds the name
    taken. *)
Theorem X7_copyDataSet_copies {T : Type} {pfp : PFP T}
    (c : @Container T) (targetGroup dir name : string)
    (dims : list N) (data : list (option T)) :
  has_char "/" name = false ->
  N.of_nat (String.length (dir +:+ "/" +:+ name)) < 2 ^ 64 ->
  objects (store c) !! (dir +:+ "/" +:+ name) = Some (H5Data dims data) ->
  nameExists c targetGroup name = false ->
  exists c',
    copyDataSet c targetGroup (dir +:+ "/" +:+ name) = Some c'
    /\ objects (store c') !! (targetGroup +:+ "/" +:+ name)
       = Some (H5Data dims data)
    /\ attributes_of c' (targetGroup +:+ "/" +:+ name)
       = attributes_of c (dir +:+ "/" +:+ name)
    /\ objects (store c') !! (dir +:+ "/" +:+ name) = Some (H5Data dims data)
    /\ attributes_of c' (dir +:+ "/" +:+ name)
       = attributes_of c (dir +:+ "/" +:+ name)
    /\ groups c' = groups c
    /\ copyDataSet c' targetGroup (dir +:+ "/" +:+ name) = None.
Proof.
  intros Hname Hlen Hsrc Hfree.
  apply nameExists_false in Hfree as [Hg Ho].
  rewrite link_path_relative in Hg, Ho by done.
  assert (targetGroup +:+ "/" +:+ name <> dir +:+ "/" +:+ name) as Hne.
  { intros Heq. rewrite Heq in Ho. congruence. }
  eexists. split; [by apply copyDataSet_spec|].
  cbn [store groups attributes objects file_name].
  split; [by rewrite lookup_insert_eq|].
  split; [by rewrite attributes_of_insert|].
  split; [by rewrite lookup_insert_ne|].
  split.
  { rewrite attributes_of_insert_ne, attributes_of_delete_ne by done. done. }
  split; [done|].
  unfold copyDataSet. rewrite reducedDataSetName_last_component by done.
  cbn [mbind option_bind store groups attributes objects file_name].
  rewrite lookup_insert_ne, Hsrc by done. cbn [mbind option_bind].
  unfold createDataSet.
  rewrite (proj2 (nameExists_true _ _ _)); [done|]. right.
  rewrite link_path_relative by done.
  cbn [store groups attributes objects file_name].
  by rewrite lookup_insert_eq.
Qed.

Lemma X7_witness :
  exists c',
    copyDataSet copy_container "/b" "/a/dim1" = Some c'
    /\ objects (store c') !! "/b/dim1"
       = Some (H5Data [2] [Some 0%Q; Some 1%Q])
    /\ attributes_of c' "/b/dim1" = attributes_of copy_container "/a/dim1"
    /\ objects (store c') !! "/a/dim1"
       = Some (H5Data [2] [Some 0%Q; Some 1%Q])
    /\ attributes_of c' "/a/dim1" = attributes_of copy_container "/a/dim1"
    /\ groups c' = groups copy_container
    /\ copyDataSet c' "/b" "/a/dim1" = None.
Proof.
  apply (X7_copyDataSet_copies copy_container "/b" "/a" "dim1").
  - reflexivity.
  - vm_compute. reflexivity.
  - reflexivity.
  - reflexivity.
Defined.

(** X8: on a file in which no link starts with [/4DSTEM_simulation],
    [setupOutputFile] succeeds, touches no dataset, and leaves the
    [realslices] and [supergroups] groups in place with no depth layer
    and no depth series in them. *)
Theorem X8_setupOutputFile_prepares_layout {T : Type} {pfp : PFP T}
    (c : @Container T) :
  simulation_absent c ->
  exists c',
    setupOutputFile c = Some c'
    /\ store c' = store c
    /\ (forall p, p ∈ groups c' <-> p ∈ output_groups \/ p ∈ groups c)
    /\ depth_layers_absent c' realslices_path
    /\ depth_series_absent c' supergroups_path.
Proof.
  intros Habs.
  destruct (setupOutputFile_spec c Habs) as (c' & Hrun & Hstore & Hgroups & _).
  destruct (setupOutputFile_prepares c Habs)
    as (c2 & Hrun2 & _ & _ & _ & Hlayers & Hseries).
  rewrite Hrun in Hrun2. inversion Hrun2; subst c2.
  by exists c'.
Qed.

Lemma X8_witness :
  exists c',
    setupOutputFile empty_container = Some c'
    /\ store c' = store empty_container
    /\ (forall p, p ∈ groups c'
                  <-> p ∈ output_groups \/ p ∈ groups empty_container)
    /\ depth_layers_absent c' realslices_path
    /\ depth_series_absent c' supergroups_path.
Proof.
  apply (X8_setupOutputFile_prepares_layout empty_container).
  intros s. split; [apply not_elem_of_empty|apply lookup_empty].
Defined.

(** X9: [setupOutputFile] cannot be run twice on the same file: after a
    run that succeeded, the next one finds [/4DSTEM_simulation] taken. *)
Theorem X9_setupOutputFile_only_once {T : Type} {pfp : PFP T}
    (c c' : @Container T) :
  setupOutputFile c = Some c' -> setupOutputFile c' = None.
Proof.
  intros Hrun. apply setupOutputFile_groups in Hrun.
  unfold setupOutputFile.
  destruct (createGroup c' root "/4DSTEM_simulation") as [c1|] eqn:E; [|done].
  apply createGroup_inv in E as (Hfree & _).
  apply nameExists_false in Hfree as [Hfree _]. done.
Qed.

Lemma X9_witness :
  exists c',
    setupOutputFile empty_container = Some c' /\ setupOutputFile c' = None.
Proof.
  destruct (setupOutputFile_spec empty_container) as (c' & Hrun & _).
  - intros s. split; [apply not_elem_of_empty|apply lookup_empty].
  - exists c'. split; [exact Hrun|].
    exact (X9_setupOutputFile_only_once empty_container c' Hrun).
Defined.

Lemma X5_witness :
  countDataGroups counted_container "/g" "virtual_detector_depth" = Some 2%Z.
Proof.
  apply (proj2 (X5_countDataGroups_first_gap counted_container "/g"
                  "virtual_detector_depth" 2)).
  split; [vm_compute; split; congruence|]. split.
  - intros i Hi. assert (i = 0 \/ i = 1)%Z as [->| ->] by lia; reflexivity.
  - reflexivity.
Defined.

Lemma X6_witness : countDimensions counted_container "/g" "dim" = Some 1%Z.
Proof.
  apply (proj2 (X6_countDimensions_first_gap counted_container "/g" "dim" 1)).
  split; [vm_compute; split; congruence|]. split.
  - intros i Hi. assert (i = 1)%Z as -> by lia. reflexivity.
  - reflexivity.
Defined.

Lemma example_container_layers_absent :
  depth_layers_absent example_container realslices_path.
Proof.
  intros s. split; [|apply lookup_empty].
  unfold example_container. cbn [groups].
  rewrite elem_of_list_to_set. apply output_groups_no_layer.
Qed.

Lemma example_container_series_absent :
  depth_series_absent example_container supergroups_path.
Proof.
  intros s. split; [|apply lookup_empty].
  unfold example_container. cbn [groups].
  rewrite elem_of_list_to_set. apply output_groups_no_series.
Qed.

Lemma example_container_realslices : realslices_path ∈ groups example_container.
Proof.
  unfold example_container. cbn [groups]. rewrite elem_of_list_to_set.
  unfold output_groups. by repeat constructor.
Qed.

Lemma example_container_supergroups :
  supergroups_path ∈ groups example_container.
Proof.
  unfold example_container. cbn [groups]. rewrite elem_of_list_to_set.
  unfold output_groups. by repeat constructor.
Qed.

(** X10: in a container that has the [realslices] group and no depth
    layer yet, [setupVDOutput] for [numLayers] layers succeeds when
    [depths] holds at least [numLayers] values and [detectorAngles] at
    least [Ndet]; afterwards [countDataGroups] finds exactly
    [numLayers] layers, every layer holds an unwritten (zero-filled)
    [realslice] dataset of extents [|xp|; |yp|; Ndet], and reading the
    [output_depth] attribute of layer [i] gives [depths[i]]. *)
Theorem X10_setupVDOutput_layers_are_counted {T : Type} {pfp : PFP T}
    (pars : @Parameters T) (det : @Detector T) (numLayers : N)
    (c0 : @Container T) :
  realslices_path ∈ groups c0 ->
  depth_layers_absent c0 realslices_path ->
  numLayers <= INT_MAX ->
  (N.to_nat numLayers <= length (depths det))%nat ->
  (N.to_nat (Ndet det) <= length (detectorAngles det))%nat ->
  exists c,
    setupVDOutput pars det numLayers c0 = Some c
    /\ countDataGroups c realslices_path "virtual_detector_depth"
       = Some (Z.of_N numLayers)
    /\ (forall i, (i < N.to_nat numLayers)%nat ->
          objects (store c) !! (depth_group realslices_path i +:+ "/realslice")
          = Some (H5Data [get_dimi (xp pars); get_dimi (yp pars); Ndet det]
                    (fill [get_dimi (xp pars); get_dimi (yp pars); Ndet det])))
    /\ (forall i d, (i < N.to_nat numLayers)%nat -> depths det !! i = Some d ->
          readAttribute c (depth_group realslices_path i) "output_depth"
          = Some d).
Proof.
  intros Hrs Habs Hmax Hdepths Hdet.
  destruct (setupVDOutput_spec pars det numLayers c0 Hrs Habs Hmax Hdepths Hdet)
    as (c & Hrun & Hfile & Hgroups & Hobjs & Hframe & Hattr & _).
  exists c. split; [exact Hrun|]. split; [|split].
  - apply countDataGroups_least.
    + change (Z.of_N INT_MAX) with 2147483647%Z.
      change INT_MAX with 2147483647 in Hmax. lia.
    + intros i Hi. apply nameExists_true. left.
      replace i with (Z.of_nat (Z.to_nat i)) by lia.
      fold (depth_group realslices_path (Z.to_nat i)).
      apply Hgroups. right. exists (Z.to_nat i). split; [lia|done].
    + apply nameExists_false.
      replace (Z.of_N numLayers) with (Z.of_nat (N.to_nat numLayers)) by lia.
      fold (depth_group realslices_path (N.to_nat numLayers)).
      destruct (depth_layers_absent_group c0 realslices_path
                  (N.to_nat numLayers) Habs) as [Hg0 Ho0].
      split.
      * rewrite Hgroups. intros [?|(j & Hj & Heq)]; [done|].
        apply depth_group_inj in Heq. lia.
      * rewrite Hframe; [done|]. intros j _.
        repeat split; apply depth_group_ne_child.
  - intros i Hi. by destruct (Hobjs i Hi) as (-> & _).
  - intros i d Hi Hd. unfold readAttribute, openGroup, link_path.
    rewrite (depth_group_absolute i).
    rewrite bool_decide_eq_true_2
      by (apply Hgroups; right; by exists i).
    cbn [mbind option_bind]. by rewrite (Hattr i d Hi Hd).
Qed.

Lemma X10_witness :
  exists c,
    setupVDOutput cropped_pars example_detector 2 example_container = Some c
    /\ countDataGroups c realslices_path "virtual_detector_depth" = Some 2%Z
    /\ (forall i, (i < 2)%nat ->
          objects (store c) !! (depth_group realslices_path i +:+ "/realslice")
          = Some (H5Data [2; 3; 2] (replicate 12 (Some 0%Q))))
    /\ (forall i d, (i < 2)%nat -> [20; 40]%Q !! i = Some d ->
          readAttribute c (depth_group realslices_path i) "output_depth"
          = Some d).
Proof.
  refine (X10_setupVDOutput_layers_are_counted cropped_pars example_detector 2
            example_container example_container_realslices
            example_container_layers_absent _ _ _).
  - vm_compute. congruence.
  - simpl. lia.
  - simpl. lia.
Defined.

(** X11: [setupVDOutput] cannot add layers twice: after a run that set up
    at least one layer, any further run for at least one layer fails,
    because the group of layer 0 is already there. *)
Theorem X11_setupVDOutput_only_once {T : Type} {pfp : PFP T}
    (pars pars' : @Parameters T) (det det' : @Detector T)
    (numLayers numLayers' : N) (c c' : @Container T) :
  0 < numLayers -> 0 < numLayers' ->
  setupVDOutput pars det numLayers c = Some c' ->
  setupVDOutput pars' det' numLayers' c' = None.
Proof. apply setupVDOutput_twice. Qed.

Lemma X11_witness :
  exists c',
    setupVDOutput cropped_pars example_detector 2 example_container = Some c'
    /\ setupVDOutput cropped_pars example_detector 1 c' = None.
Proof.
  destruct (setupVDOutput_spec cropped_pars example_detector 2
              example_container) as (c' & Hrun & _).
  - apply example_container_realslices.
  - apply example_container_layers_absent.
  - vm_compute. congruence.
  - simpl. lia.
  - simpl. lia.
  - exists c'. split; [exact Hrun|].
    apply (X11_setupVDOutput_only_once cropped_pars cropped_pars
             example_detector example_detector 2 1 example_container c');
      [lia|lia|exact Hrun].
Defined.

(** X12: [setupVDOutput] for more layers than [depths] has values is not
    defined: the layer past the end reads [pars.depths[n]] out of
    range. *)
Theorem X12_setupVDOutput_needs_a_depth_per_layer {T : Type} {pfp : PFP T}
    (pars : @Parameters T) (det : @Detector T) (numLayers : N)
    (c : @Container T) :
  (length (depths det) < N.to_nat numLayers)%nat ->
  setupVDOutput pars det numLayers c = None.
Proof. apply setupVDOutput_short_depths. Qed.

Lemma X12_witness :
  setupVDOutput cropped_pars example_detector 3 example_container = None.
Proof.
  apply (X12_setupVDOutput_needs_a_depth_per_layer cropped_pars
           example_detector 3 example_container).
  simpl. lia.
Defined.

(** X13: [depthSeriesSG] on a file without the link
    [virtual_detector_depth0000] in [realslices] is not defined: no
    dataset is gathered, and the stitcher reads [indices[0]] of an empty
    vector. *)
Theorem X13_depthSeriesSG_needs_a_layer {T : Type} {pfp : PFP T}
    (c : @Container T) :
  nameExists c realslices_path "virtual_detector_depth0000" = false ->
  depthSeriesSG c = None.
Proof. apply depthSeriesSG_no_layers. Qed.

Lemma X13_witness : depthSeriesSG example_container = None.
Proof.
  apply (X13_depthSeriesSG_needs_a_layer example_container). reflexivity.
Defined.

(** X14: setting up [numLayers] >= 1 depth layers with [setupVDOutput]
    and then running [depthSeriesSG] succeeds on a container that has
    the [realslices] and [supergroups] groups, no depth layer and no depth
    series.  The stitched dataset [vd_depth_series/supergroup] has
    extents [|xp|; |yp|; Ndet; numLayers] and maps layer [i] whole onto
    the slab at index [i] of the last axis; [sgdim1] holds the first
    [numLayers] values of [depths], labelled Depth; [dim1] .. [dim3] are
    copies of the dimension vectors of layer 0. *)
Theorem X14_depth_series_of_new_layers {T : Type} {pfp : PFP T}
    (pars : @Parameters T) (det : @Detector T) (numLayers : N)
    (c0 : @Container T) :
  0 < numLayers -> numLayers <= INT_MAX ->
  (N.to_nat numLayers <= length (depths det))%nat ->
  (N.to_nat (Ndet det) <= length (detectorAngles det))%nat ->
  realslices_path ∈ groups c0 ->
  supergroups_path ∈ groups c0 ->
  depth_layers_absent c0 realslices_path ->
  depth_series_absent c0 supergroups_path ->
  exists c1 c2 maps,
    setupVDOutput pars det numLayers c0 = Some c1
    /\ depthSeriesSG c1 = Some c2
    /\ objects (store c2) !! (depth_series_path +:+ "/supergroup")
       = Some (H5Virtual
                 [get_dimi (xp pars); get_dimi (yp pars); Ndet det; numLayers]
                 maps)
    /\ length maps = N.to_nat numLayers
    /\ (forall i, (i < N.to_nat numLayers)%nat ->
          maps !! i
          = Some (mkVMapping [0; 0; 0; N.of_nat i]
                    [get_dimi (xp pars); get_dimi (yp pars); Ndet det; 1]
                    (file_name (store c0))
                    (depth_group realslices_path i +:+ "/realslice")
                    [get_dimi (xp pars); get_dimi (yp pars); Ndet det]))
    /\ objects (store c2) !! (depth_series_path +:+ "/sgdim1")
       = Some (H5Data [numLayers]
                 (Some <$> take (N.to_nat numLayers) (depths det)))
    /\ attributes_of c2 (depth_series_path +:+ "/sgdim1")
       = <["units" := AString "[Å]"]> (<["name" := AString "Depth"]> ∅)
    /\ objects (store c2) !! (depth_series_path +:+ "/dim1")
       = Some (H5Data [get_dimi (xp pars)] (Some <$> xp pars))
    /\ objects (store c2) !! (depth_series_path +:+ "/dim2")
       = Some (H5Data [get_dimi (yp pars)] (Some <$> yp pars))
    /\ objects (store c2) !! (depth_series_path +:+ "/dim3")
       = Some (H5Data [Ndet det]
                 (Some <$> take (N.to_nat (Ndet det)) (detectorAngles det))).
Proof.
  intros Hpos Hmax Hdepths Hdet Hrs Hsg Habs Hsabs.
  destruct (setupVDOutput_spec pars det numLayers c0 Hrs Habs Hmax Hdepths Hdet)
    as (c1 & Hrun & Hlayers).
  destruct (depthSeriesSG_spec pars det c0 c1 (N.to_nat numLayers))
    as (c2 & maps & Hrun2 & Hshape & Hlen & Hmaps & Hsg1 & Hsga & H1 & H2 & H3);
    try done; try lia.
  rewrite N2Nat.id in Hshape, Hsg1.
  exists c1, c2, maps. done.
Qed.

Lemma X14_witness :
  exists c1 c2 maps,
    setupVDOutput cropped_pars example_detector 2 example_container = Some c1
    /\ depthSeriesSG c1 = Some c2
    /\ objects (store c2) !! (depth_series_path +:+ "/supergroup")
       = Some (H5Virtual [2; 3; 2; 2] maps)
    /\ length maps = 2%nat
    /\ (forall i, (i < 2)%nat ->
          maps !! i
          = Some (mkVMapping [0; 0; 0; N.of_nat i] [2; 3; 2; 1] "out.h5"
                    (depth_group realslices_path i +:+ "/realslice")
                    [2; 3; 2]))
    /\ objects (store c2) !! (depth_series_path +:+ "/sgdim1")
       = Some (H5Data [2] [Some 20%Q; Some 40%Q])
    /\ attributes_of c2 (depth_series_path +:+ "/sgdim1")
       = <["units" := AString "[Å]"]> (<["name" := AString "Depth"]> ∅)
    /\ objects (store c2) !! (depth_series_path +:+ "/dim1")
       = Some (H5Data [2] [Some 0%Q; Some 1%Q])
    /\ objects (store c2) !! (depth_series_path +:+ "/dim2")
       = Some (H5Data [3] [Some 0%Q; Some 1%Q; Some 2%Q])
    /\ objects (store c2) !! (depth_series_path +:+ "/dim3")
       = Some (H5Data [2] [Some 10%Q; Some 20%Q]).
Proof.
  refine (X14_depth_series_of_new_layers cropped_pars example_detector 2
            example_container _ _ _ _ example_container_realslices
            example_container_supergroups example_container_layers_absent
            example_container_series_absent).
  - lia.
  - vm_compute. congruence.
  - simpl. lia.
  - simpl. lia.
Defined.

(** * Properties of the locks and the frozen-phonon seeds *)
Section LockFacts.
Context {T : Type} {pfp : PFP T}.
Variable C : @Collaborators T.
Implicit Types (w : @World T) (p : @Parameters T) (st : @FPState T).

Lemma lock_walk_app held (a b : list (@Event T)) :
  lock_walk held (a ++ b) = lock_walk held a ≫= fun h => lock_walk h b.
Proof.
  revert held. induction a as [|e a IH]; intros held; [done|].
  destruct e; simpl; try apply IH.
  - destruct (holds l held); [done|]. apply IH.
  - destruct held as [|h held']; [done|].
    destruct (LockId_eqb h l); [apply IH|done].
  - destruct (holds calculationLock held && negb (holds dataLock held));
      [apply IH|done].
Qed.

Lemma LockId_eqb_refl l : LockId_eqb l l = true.
Proof. by destruct l. Qed.

Lemma walks_refl held w : walks held w w.
Proof. exists []. by rewrite app_nil_r. Qed.

Lemma walks_trans held w1 w2 w3 :
  walks held w1 w2 -> walks held w2 w3 -> walks held w1 w3.
Proof.
  intros (e1 & H1 & L1) (e2 & H2 & L2). exists (e1 ++ e2). split.
  - by rewrite H2, H1, app_assoc.
  - by rewrite lock_walk_app, L1.
Qed.

Lemma walks_emit held e w :
  lock_walk held [e] = Some held -> walks held w (emit e w).
Proof. intros H. by exists [e]. Qed.

Lemma walks_with_parent held f w : walks held w (with_parent f w).
Proof. exists []. by rewrite app_nil_r. Qed.

Lemma walks_rand held w : walks held w (rand w).2.
Proof. exists []. by rewrite app_nil_r. Qed.

Lemma walks_run_kernel held s k p w :
  holds calculationLock held = true -> holds dataLock held = false ->
  walks held w (run_kernel s k p w).2.
Proof.
  intros Hc Hd. apply walks_emit. simpl. by rewrite Hc, Hd.
Qed.

(** A scope that takes [l], does [f] and releases [l]. *)
Lemma walks_scope held l w w1 :
  holds l held = false ->
  walks (l :: held) (emit (EvAcquire l) w) w1 ->
  walks held w (emit (EvRelease l) w1).
Proof.
  intros Hl (evs & Ht & Hw).
  exists (EvAcquire l :: evs ++ [EvRelease l]). split.
  - simpl. rewrite Ht. simpl. by rewrite <- !app_assoc.
  - simpl. rewrite Hl, lock_walk_app, Hw. simpl.
    by rewrite LockId_eqb_refl.
Qed.

Lemma walks_locked held l f w :
  holds l held = false ->
  (forall w0, walks (l :: held) w0 (f w0)) ->
  walks held w (locked l f w).
Proof. intros Hl Hf. unfold locked. by apply walks_scope. Qed.

Lemma walks_emit_after held e w w1 :
  walks held w w1 -> lock_walk held [e] = Some held ->
  walks held w (emit e w1).
Proof. intros H He. eapply walks_trans; [exact H|by apply walks_emit]. Qed.

Lemma walks_with_parent_after held f w w1 :
  walks held w w1 -> walks held w (with_parent f w1).
Proof. intros H. eapply walks_trans; [exact H|apply walks_with_parent]. Qed.

Lemma walks_locked_after held l f w w1 :
  walks held w w1 -> holds l held = false ->
  (forall w0, walks (l :: held) w0 (f w0)) ->
  walks held w (locked l f w1).
Proof.
  intros H Hl Hf. eapply walks_trans; [exact H|by apply walks_locked].
Qed.

Local Abbreviation inside := [calculationLock].

Lemma walks_potential_stage_after p w w1 :
  walks inside w w1 -> walks inside w (potential_stage C p w1).2.
Proof.
  intros H. unfold potential_stage, run_kernel. destruct (_ || _); simpl.
  - apply walks_locked_after; [|done|intros w0; apply walks_with_parent].
    apply walks_emit_after; [|done]. by apply walks_with_parent_after.
  - apply walks_locked_after; [done|done|].
    intros w0. by apply walks_emit.
Qed.

Lemma walks_PRISM_output_after p w w1 :
  walks inside w w1 -> walks inside w (PRISM_output C p w1).2.
Proof.
  intros H. unfold PRISM_output, run_kernel. simpl.
  apply walks_emit_after; [|done]. by apply walks_emit_after.
Qed.

Lemma walks_Multislice_output_after p w w1 :
  walks inside w w1 -> walks inside w (Multislice_output C p w1).2.
Proof.
  intros H. unfold Multislice_output, run_kernel. simpl.
  by apply walks_emit_after.
Qed.

Section WithOutputStage.
Variable output_stage : @Parameters T -> @World T -> @Parameters T * @World T.
Hypothesis output_stage_walks :
  forall p w w1, walks inside w w1 -> walks inside w (output_stage p w1).2.

Lemma walks_frozen_phonon_pass_after st fp_num w :
  walks inside w (fp_world st) ->
  walks inside w (fp_world (frozen_phonon_pass C output_stage st fp_num)).
Proof.
  intros H. unfold frozen_phonon_pass, rand, run_kernel. simpl.
  match goal with
  | |- context [output_stage ?p ?w0] =>
      pose proof (output_stage_walks p w w0) as Ho;
      destruct (output_stage p w0) as [p2 w2]
  end.
  simpl. apply walks_emit_after; [|done]. simpl in Ho. apply Ho.
  apply walks_with_parent_after. apply walks_emit_after; [|done].
  apply walks_emit_after; [|done].
  destruct H as (evs & Ht & Hw). by exists evs.
Qed.

Lemma walks_frozen_phonon_loop_after passes st w :
  walks inside w (fp_world st) ->
  walks inside w
    (fp_world (foldl (frozen_phonon_pass C output_stage) st passes)).
Proof.
  revert st. induction passes as [|i passes IH]; intros st H; [done|].
  simpl. apply IH. by apply walks_frozen_phonon_pass_after.
Qed.

Lemma walks_frozen_phonons_after tmeta p w w1 :
  walks inside w w1 ->
  walks inside w (frozen_phonons C output_stage tmeta p w1).2.
Proof.
  intros H. unfold frozen_phonons.
  destruct (1 <? numFP (meta p))%nat; simpl; [|done].
  by apply walks_frozen_phonon_loop_after.
Qed.

Lemma walks_calculation_after tmeta p w w1 :
  walks [] w w1 -> walks [] w (calculation C output_stage tmeta p w1).
Proof.
  intros H. eapply walks_trans; [exact H|]. clear H.
  unfold calculation.
  match goal with
  | |- context [potential_stage C ?p0 ?w0] =>
      pose proof (walks_potential_stage_after p0
                    (emit (EvAcquire calculationLock) w1) w0) as Hp;
      destruct (potential_stage C p0 w0) as [p1 w2]
  end.
  match goal with
  | |- context [output_stage ?p0 ?w0] =>
      pose proof (output_stage_walks p0
                    (emit (EvAcquire calculationLock) w1) w0) as Ho;
      destruct (output_stage p0 w0) as [p2 w3]
  end.
  match goal with
  | |- context [frozen_phonons C output_stage ?m0 ?p0 ?w0] =>
      pose proof (walks_frozen_phonons_after m0 p0
                    (emit (EvAcquire calculationLock) w1) w0) as Hf;
      destruct (frozen_phonons C output_stage m0 p0 w0) as [[m3 p3] w4]
  end.
  simpl in *. apply walks_scope; [done|].
  apply walks_with_parent_after. apply walks_emit_after; [|done].
  apply walks_locked_after; [|done|intros w0; apply walks_refl].
  apply walks_locked_after; [|done|intros w0; apply walks_with_parent].
  apply Hf. apply walks_emit_after; [|done]. apply Ho.
  apply walks_with_parent_after. apply Hp.
  apply walks_emit_after; [apply walks_refl|done].
Qed.

Lemma walks_full_run reply tmeta w :
  walks [] w (full_run C output_stage reply tmeta w).
Proof.
  unfold full_run, preflight.
  set (f := filenameOutput (meta (new_Parameters C tmeta))).
  destruct (testFilenameOutput w f =? 0); [by apply walks_emit|].
  destruct (testFilenameOutput w f =? 2).
  - destruct (overwriteFile (parent (overwriteWarning reply w))).
    + apply walks_calculation_after. apply walks_with_parent_after.
      unfold remove, overwriteWarning.
      exists [EvOverwriteWarning; EvRemove f]. split; [|done].
      simpl. by rewrite <- app_assoc.
    + unfold overwriteWarning. apply walks_with_parent_after.
      by apply walks_emit.
  - apply walks_calculation_after, walks_refl.
Qed.

End WithOutputStage.

Lemma walks_PotentialThread_run tmeta w :
  walks [] w (PotentialThread_run C tmeta w).
Proof.
  unfold PotentialThread_run, run_kernel. simpl.
  eexists. split.
  - simpl. rewrite <- !app_assoc. simpl. reflexivity.
  - reflexivity.
Qed.

End LockFacts.

Section SeedFacts.
Context {T : Type} {pfp : PFP T}.
Variable C : @Collaborators T.
Implicit Types (w : @World T) (p : @Parameters T) (st : @FPState T)
  (m : @Metadata T).

Lemma potential_metadata_app (a b : list (@Event T)) :
  potential_metadata (a ++ b) = potential_metadata a ++ potential_metadata b.
Proof.
  induction a as [|e a IH]; [done|].
  destruct e as [| | | | |s ?| | | |]; simpl; try apply IH.
  destruct s; simpl; [by f_equal|apply IH..].
Qed.

Lemma iter_incr_fpNum m i :
  randomSeed (Nat.iter i incr_fpNum m) = randomSeed m
  /\ fpNum (Nat.iter i incr_fpNum m) = (fpNum m + i)%nat
  /\ numFP (Nat.iter i incr_fpNum m) = numFP m
  /\ filenameOutput (Nat.iter i incr_fpNum m) = filenameOutput m.
Proof.
  induction i as [|i (IH1 & IH2 & IH3 & IH4)]; simpl.
  - repeat split; try done; lia.
  - repeat split; try done; rewrite ?IH2; lia.
Qed.

Lemma quiet_PRISM_output p w : quiet w (PRISM_output C p w).2.
Proof.
  unfold PRISM_output, run_kernel. simpl. split; [done|]. split; [done|].
  exists [EvKernel CompactOperator (meta p);
          EvKernel Output (meta (PRISM02_calcSMatrix C p))].
  split; [|done]. unfold emit. simpl. by rewrite <- app_assoc.
Qed.

Lemma quiet_Multislice_output p w : quiet w (Multislice_output C p w).2.
Proof.
  unfold Multislice_output, run_kernel. simpl. split; [done|]. split; [done|].
  by exists [EvKernel Output (meta p)].
Qed.

Section WithOutputStage.
Variable output_stage : @Parameters T -> @World T -> @Parameters T * @World T.
Hypothesis output_stage_quiet : forall p w, quiet w (output_stage p w).2.

Lemma frozen_phonon_pass_seed st fp_num :
  let st' := frozen_phonon_pass C output_stage st fp_num in
  fp_meta st' = incr_fpNum (fp_meta st)
  /\ rand_calls (fp_world st') = S (rand_calls (fp_world st))
  /\ rand_values (fp_world st') = rand_values (fp_world st)
  /\ meta (fp_params st')
     = set_randomSeed
         (rand_values (fp_world st) (rand_calls (fp_world st)) mod 100000)
         (meta (fp_params st))
  /\ exists evs,
       trace (fp_world st') = trace (fp_world st) ++ evs
       /\ potential_metadata evs = [incr_fpNum (fp_meta st)].
Proof.
  unfold frozen_phonon_pass, rand, run_kernel. simpl.
  match goal with
  | |- context [output_stage ?p ?w0] =>
      pose proof (output_stage_quiet p w0) as (Hc & Hv & evs & Ht & Hq);
      destruct (output_stage p w0) as [p2 w2]
  end.
  simpl in *. split; [done|]. split; [done|]. split; [done|]. split; [done|].
  eexists. split.
  - unfold emit. simpl. rewrite Ht. unfold emit, with_parent. simpl.
    rewrite <- !app_assoc. reflexivity.
  - simpl. rewrite potential_metadata_app, Hq. done.
Qed.

Lemma frozen_phonon_loop_seed passes : forall st,
  let st' := foldl (frozen_phonon_pass C output_stage) st passes in
  let k := length passes in
  fp_meta st' = Nat.iter k incr_fpNum (fp_meta st)
  /\ rand_calls (fp_world st') = (rand_calls (fp_world st) + k)%nat
  /\ rand_values (fp_world st') = rand_values (fp_world st)
  /\ meta (fp_params st')
     = match k with
       | O => meta (fp_params st)
       | S k' =>
           set_randomSeed
             (rand_values (fp_world st) (rand_calls (fp_world st) + k')
              mod 100000) (meta (fp_params st))
       end
  /\ exists evs,
       trace (fp_world st') = trace (fp_world st) ++ evs
       /\ potential_metadata evs
          = (fun i => Nat.iter i incr_fpNum (fp_meta st)) <$> seq 1 k.
Proof.
  induction passes as [|i passes IH]; intros st.
  - simpl. repeat split; try done; try lia. exists []. by rewrite app_nil_r.
  - simpl foldl. cbv zeta.
    destruct (frozen_phonon_pass_seed st i) as (H1 & H2 & H3 & H4 & e1 & Ht1 & Hm1).
    destruct (IH (frozen_phonon_pass C output_stage st i))
      as (I1 & I2 & I3 & I4 & e2 & Ht2 & Hm2).
    simpl length. split.
    { rewrite I1, H1. by rewrite Nat.iter_succ_r. }
    split; [rewrite I2, H2; lia|]. split; [congruence|]. split.
    { rewrite I4, H4, H3, H2. destruct (length passes) as [|k'].
      - by rewrite Nat.add_0_r.
      - replace (S (rand_calls (fp_world st)) + k')%nat
          with (rand_calls (fp_world st) + S k')%nat by lia.
        by destruct (meta (fp_params st)). }
    exists (e1 ++ e2). split; [by rewrite Ht2, Ht1, app_assoc|].
    rewrite potential_metadata_app, Hm1, Hm2, H1.
    simpl. f_equal. rewrite <- (fmap_S_seq 1), <- list_fmap_compose.
    apply list_fmap_ext. intros j x _. simpl.
    by rewrite <- Nat.iter_succ_r.
Qed.

Lemma frozen_phonons_seed tmeta p w :
  let r := frozen_phonons C output_stage tmeta p w in
  let n := numFP (meta p) in
  r.1.1 = Nat.iter (n - 1) incr_fpNum tmeta
  /\ rand_calls r.2 = (rand_calls w + (n - 1))%nat
  /\ meta r.1.2
     = match (n - 1)%nat with
       | O => meta p
       | S k' => set_randomSeed
                   (rand_values w (rand_calls w + k') mod 100000) (meta p)
       end
  /\ exists evs,
       trace r.2 = trace w ++ evs
       /\ potential_metadata evs
          = (fun i => Nat.iter i incr_fpNum tmeta) <$> seq 1 (n - 1).
Proof.
  unfold frozen_phonons. cbv zeta.
  destruct (Nat.ltb_spec 1 (numFP (meta p))) as [Hn|Hn].
  - set (st0 := mkFPState tmeta p (output p)
                  (if saveDPC_CoM (meta p) then DPC_CoM p else []) w).
    destruct (frozen_phonon_loop_seed (seq 1 (numFP (meta p) - 1)) st0)
      as (I1 & I2 & I3 & I4 & evs & Ht & Hm).
    rewrite length_seq in *. simpl fst. simpl snd.
    split; [exact I1|]. split; [exact I2|]. split.
    + simpl in I4. etransitivity; [|exact I4].
      match goal with
      | |- meta (if ?b then _ else _) = _ => by destruct b
      end.
    + by exists evs.
  - replace (numFP (meta p) - 1)%nat with 0%nat by lia. simpl.
    repeat split; try done; try lia. exists []. by rewrite app_nil_r.
Qed.

End WithOutputStage.
End SeedFacts.

Section CacheFacts.
Context {T : Type} {pfp : PFP T}.
Variable C : @Collaborators T.
Implicit Types (w : @World T) (p : @Parameters T) (m : @Metadata T).

Lemma kernel_runs_snoc s (evs : list (@Event T)) e :
  kernel_runs s (evs ++ [e])
  = (kernel_runs s evs + if is_kernel s e then 1 else 0)%nat.
Proof.
  rewrite kernel_runs_app. f_equal. unfold kernel_runs. simpl.
  rewrite filter_cons. by destruct (is_kernel s e).
Qed.

Lemma parent_emit e w : parent (emit e w) = parent w.
Proof. done. Qed.

Lemma parent_with_parent f w : parent (with_parent f w) = f (parent w).
Proof. done. Qed.

Lemma parent_locked l f w :
  parent (locked l f w) = parent (f (emit (EvAcquire l) w)).
Proof. done. Qed.

Lemma trace_emit e w : trace (emit e w) = trace w ++ [e].
Proof. done. Qed.

Lemma trace_with_parent f w : trace (with_parent f w) = trace w.
Proof. done. Qed.

Lemma trace_locked l f w :
  trace (locked l f w) = trace (f (emit (EvAcquire l) w)) ++ [EvRelease l].
Proof. done. Qed.

Lemma files_emit e w : files (emit e w) = files w.
Proof. done. Qed.

Lemma files_with_parent f w : files (with_parent f w) = files w.
Proof. done. Qed.

Ltac world :=
  repeat first [ rewrite parent_emit | rewrite parent_with_parent
               | rewrite parent_locked | rewrite trace_emit
               | rewrite trace_with_parent | rewrite trace_locked
               | rewrite files_emit | rewrite files_with_parent ].

(** What [PotentialThread::run] leaves behind. *)
Lemma PotentialThread_run_spec tmeta w :
  let p0 := set_meta (no_potential_slices tmeta) (new_Parameters C tmeta) in
  let run := PotentialThread_run C tmeta w in
  trace run
  = trace w ++ [EvAcquire calculationLock;
                EvKernel Potential (no_potential_slices tmeta);
                EvRelease calculationLock; EvAcquire dataLock;
                EvRelease dataLock]
  /\ pars (parent run) = PRISM01_calcPotential C p0
  /\ potential (parent run) = pot (PRISM01_calcPotential C p0)
  /\ potentialReady (parent run) = true
  /\ ScompactReady (parent run) = ScompactReady (parent w)
  /\ outputReady (parent run) = outputReady (parent w)
  /\ getMetadata (parent run) = getMetadata (parent w)
  /\ files run = files w.
Proof.
  intros p0 run. unfold run, PotentialThread_run, run_kernel.
  cbv beta iota zeta. fold p0. world.
  split; [by rewrite <- !app_assoc|]. done.
Qed.

Lemma ProbeThread_after_PotentialThread tmeta w :
  let p0 := set_meta (no_potential_slices tmeta) (new_Parameters C tmeta) in
  let w1 := PotentialThread_run C tmeta w in
  ScompactReady (parent w) = true ->
  meta_eqb (no_saving tmeta) (getMetadata (parent w)) = true ->
  meta_eqb (meta (PRISM01_calcPotential C p0)) (getMetadata (parent w)) = true ->
  (ProbeThread_stages C tmeta w1).1 = PRISM01_calcPotential C p0
  /\ forall s, kernel_runs s (trace (ProbeThread_stages C tmeta w1).2)
               = kernel_runs s (trace w1).
Proof.
  intros p0 w1 Hs Hm Hk.
  destruct (PotentialThread_run_spec tmeta w)
    as (Ht & Hp & _ & Hr & Hsr & _ & Hg & _).
  fold w1 in Ht, Hp, Hr, Hsr, Hg. fold p0 in Hp.
  unfold ProbeThread_stages, ProbeThread_potential_stage, potentialIsReady.
  cbv beta iota zeta. world.
  change (meta (set_meta (no_saving (meta (new_Parameters C tmeta)))
                  (new_Parameters C tmeta))) with (no_saving tmeta).
  rewrite Hr, Hg, Hm. cbn [negb orb].
  unfold ProbeThread_SMatrix_stage, SMatrixIsReady.
  cbv beta iota zeta. world.
  rewrite Hsr, Hs, Hp, Hg, Hk. cbn [negb orb fst snd].
  split; [done|]. intros s. world.
  rewrite !kernel_runs_snoc. destruct s; simpl; lia.
Qed.

Lemma full_run_after_ProbeThread tmeta w :
  let p0 := set_meta (no_saving tmeta) (new_Parameters C tmeta) in
  let probe := ProbeThread_stages C tmeta w in
  potentialReady (parent w) = false ->
  getMetadata (parent w) = tmeta ->
  meta_eqb tmeta tmeta = true ->
  (forall p, meta (PRISM01_calcPotential C p) = meta p) ->
  (forall p, meta (PRISM02_calcSMatrix C p) = meta p) ->
  probe.1 = PRISM02_calcSMatrix C (PRISM01_calcPotential C p0)
  /\ (potential_stage C (set_fpFlag 0 (new_Parameters C tmeta)) probe.2).1
     = probe.1
  /\ meta probe.1 = no_saving tmeta
  /\ kernel_runs Potential
       (trace (potential_stage C (set_fpFlag 0 (new_Parameters C tmeta))
                 probe.2).2)
     = kernel_runs Potential (trace probe.2).
Proof.
  intros p0 probe Hcold Hg Heq H1 H2.
  assert (probe.1 = PRISM02_calcSMatrix C (PRISM01_calcPotential C p0)
          /\ potentialReady (parent probe.2) = true
          /\ getMetadata (parent probe.2) = tmeta
          /\ pars (parent probe.2)
             = PRISM02_calcSMatrix C (PRISM01_calcPotential C p0))
    as (Hp & Hr & Hg' & Hpars).
  { unfold probe, ProbeThread_stages, ProbeThread_potential_stage,
      potentialIsReady.
    cbv beta iota zeta. world. rewrite Hcold. cbn [negb orb].
    unfold run_kernel. cbv beta iota zeta.
    unfold ProbeThread_SMatrix_stage, SMatrixIsReady, run_kernel.
    cbv beta iota zeta. world.
    cbn [ScompactReady potentialReceived set_pars resetCalculation
         negb orb fst snd].
    world.
    cbn [ScompactReady potentialReceived set_pars resetCalculation
         set_ScompactReady potentialReady getMetadata pars].
    done. }
  split; [exact Hp|].
  unfold potential_stage, potentialIsReady.
  change (meta (set_fpFlag 0 (new_Parameters C tmeta))) with tmeta.
  rewrite Hr, Hg', Heq. cbn [negb orb fst snd].
  split; [by rewrite Hpars, Hp|]. split.
  - by rewrite Hp, H2, H1.
  - world. by rewrite !kernel_runs_snoc, !Nat.add_0_r.
Qed.

End CacheFacts.

(** * Further properties: the threads *)

(** X15: whatever the outcome of a full run (abort, refusal, or a
    complete calculation of any number of passes), and for the potential
    thread, the events of the run take and release the locks in nested
    scopes and leave no lock held; no lock is taken while it is held;
    every kernel runs with the calculation lock held and the data lock
    not held. *)
Theorem X15_runs_release_every_lock {T : Type} {pfp : PFP T}
    (C : @Collaborators T) (reply : bool) (tmeta : Metadata) (w : World) :
  walks [] w (FullPRISMCalcThread_run C reply tmeta w)
  /\ walks [] w (FullMultisliceCalcThread_run C reply tmeta w)
  /\ walks [] w (PotentialThread_run C tmeta w).
Proof.
  split; [|split].
  - apply walks_full_run. intros. by apply walks_PRISM_output_after.
  - apply walks_full_run. intros. by apply walks_Multislice_output_after.
  - apply walks_PotentialThread_run.
Qed.

(** X16: in the frozen-phonon loop of both full runs, for a pass count
    n read from the run's parameters, the potential kernel runs n - 1
    times, on the thread's metadata after 1, 2, ..., n - 1 increments of
    fpNum; each of these still carries the thread's own random seed.
    rand() is called n - 1 times, and for n >= 2 the seed drawn last ends
    up in the parameters the run finishes with; for n <= 1 their metadata
    is unchanged. *)
Theorem X16_frozen_phonon_seeds {T : Type} {pfp : PFP T}
    (C : @Collaborators T)
    (stage : @Parameters T -> @World T -> @Parameters T * @World T)
    (tmeta : Metadata) (params : Parameters) (w : World) :
  stage = PRISM_output C \/ stage = Multislice_output C ->
  (exists evs,
      trace (frozen_phonons C stage tmeta params w).2 = trace w ++ evs
      /\ potential_metadata evs
         = (fun i => Nat.iter i incr_fpNum tmeta)
             <$> seq 1 (numFP (meta params) - 1))
  /\ (forall i,
        randomSeed (Nat.iter i incr_fpNum tmeta) = randomSeed tmeta
        /\ fpNum (Nat.iter i incr_fpNum tmeta) = (fpNum tmeta + i)%nat)
  /\ (frozen_phonons C stage tmeta params w).1.1
     = Nat.iter (numFP (meta params) - 1) incr_fpNum tmeta
  /\ rand_calls (frozen_phonons C stage tmeta params w).2
     = (rand_calls w + (numFP (meta params) - 1))%nat
  /\ ((2 <= numFP (meta params))%nat ->
        randomSeed (meta (frozen_phonons C stage tmeta params w).1.2)
        = rand_values w (rand_calls w + (numFP (meta params) - 2))
          mod 100000)
  /\ ((numFP (meta params) <= 1)%nat ->
        meta (frozen_phonons C stage tmeta params w).1.2 = meta params).
Proof.
  intros Hstage.
  assert (forall p w0, quiet w0 (stage p w0).2) as Hq.
  { destruct Hstage as [-> | ->];
      [apply quiet_PRISM_output|apply quiet_Multislice_output]. }
  destruct (frozen_phonons_seed C stage Hq tmeta params w)
    as (H1 & H2 & H3 & H4).
  split; [exact H4|]. split.
  { intros i. destruct (iter_incr_fpNum tmeta i) as (? & ? & _). done. }
  split; [exact H1|]. split; [exact H2|]. split.
  - intros Hn. rewrite H3.
    destruct (numFP (meta params) - 1)%nat as [|k'] eqn:Hk; [lia|].
    simpl. do 3 f_equal. lia.
  - intros Hn. rewrite H3.
    by replace (numFP (meta params) - 1)%nat with 0%nat by lia.
Qed.

Lemma X16_witness :
  randomSeed two_pass_meta = 7
  /\ randomSeed
       (meta (frozen_phonons toy_kernels (PRISM_output toy_kernels)
                two_pass_meta two_pass_params two_pass_world).1.2)
     = 12345
  /\ exists evs,
       trace (frozen_phonons toy_kernels (PRISM_output toy_kernels)
                two_pass_meta two_pass_params two_pass_world).2
       = trace two_pass_world ++ evs
       /\ potential_metadata evs = [incr_fpNum two_pass_meta].
Proof.
  destruct (X16_frozen_phonon_seeds toy_kernels (PRISM_output toy_kernels)
              two_pass_meta two_pass_params two_pass_world
              (or_introl eq_refl)) as (Hevs & _ & _ & _ & Hseed & _).
  split; [reflexivity|]. split.
  - rewrite Hseed; [reflexivity|]. simpl. lia.
  - exact Hevs.
Defined.

(** X17: the potential thread never consults the cache: it runs the
    potential kernel once in every run, on the thread's metadata with
    savePotentialSlices switched off, stores the result as the window's
    parameters and potential and marks the potential ready; it does not
    reset the readiness of the compact operator or of the output, and
    does not touch the file system. *)
Theorem X17_PotentialThread_always_recomputes {T : Type} {pfp : PFP T}
    (C : @Collaborators T) (tmeta : Metadata) (w : World) :
  trace (PotentialThread_run C tmeta w)
  = trace w ++ [EvAcquire calculationLock;
                EvKernel Potential (no_potential_slices tmeta);
                EvRelease calculationLock; EvAcquire dataLock;
                EvRelease dataLock]
  /\ pars (parent (PotentialThread_run C tmeta w))
     = PRISM01_calcPotential C
         (set_meta (no_potential_slices tmeta) (new_Parameters C tmeta))
  /\ potential (parent (PotentialThread_run C tmeta w))
     = pot (PRISM01_calcPotential C
              (set_meta (no_potential_slices tmeta) (new_Parameters C tmeta)))
  /\ potentialReady (parent (PotentialThread_run C tmeta w)) = true
  /\ ScompactReady (parent (PotentialThread_run C tmeta w))
     = ScompactReady (parent w)
  /\ outputReady (parent (PotentialThread_run C tmeta w))
     = outputReady (parent w)
  /\ getMetadata (parent (PotentialThread_run C tmeta w))
     = getMetadata (parent w)
  /\ files (PotentialThread_run C tmeta w) = files w.
Proof. apply PotentialThread_run_spec. Qed.

(** X18: a potential-thread run does not invalidate a compact operator
    computed earlier.  When the compact-operator flag was set before the
    run and the metadata compare equal, the probe thread that follows
    reuses the window's parameters for both cached stages: it runs no
    kernel at all and works on the parameters that the potential thread
    stored, on which PRISM02_calcSMatrix was never run. *)
Theorem X18_probe_after_potential_skips_the_operator
    {T : Type} {pfp : PFP T}
    (C : @Collaborators T) (tmeta : Metadata) (w : World) :
  ScompactReady (parent w) = true ->
  meta_eqb (no_saving tmeta) (getMetadata (parent w)) = true ->
  meta_eqb
    (meta (PRISM01_calcPotential C
             (set_meta (no_potential_slices tmeta) (new_Parameters C tmeta))))
    (getMetadata (parent w)) = true ->
  (ProbeThread_stages C tmeta (PotentialThread_run C tmeta w)).1
  = PRISM01_calcPotential C
      (set_meta (no_potential_slices tmeta) (new_Parameters C tmeta))
  /\ forall s,
       kernel_runs s
         (trace (ProbeThread_stages C tmeta (PotentialThread_run C tmeta w)).2)
       = kernel_runs s (trace (PotentialThread_run C tmeta w)).
Proof. apply ProbeThread_after_PotentialThread. Qed.

Lemma X18_witness :
  (ProbeThread_stages toy_kernels three_pass_meta
     (PotentialThread_run toy_kernels three_pass_meta
        (example_world (warm_window three_pass_meta)))).1
  = PRISM01_calcPotential toy_kernels
      (set_meta (no_potential_slices three_pass_meta)
         (new_Parameters toy_kernels three_pass_meta))
  /\ forall s,
       kernel_runs s
         (trace (ProbeThread_stages toy_kernels three_pass_meta
                   (PotentialThread_run toy_kernels three_pass_meta
                      (example_world (warm_window three_pass_meta)))).2)
       = kernel_runs s
           (trace (PotentialThread_run toy_kernels three_pass_meta
                     (example_world (warm_window three_pass_meta)))).
Proof.
  apply (X18_probe_after_potential_skips_the_operator toy_kernels
           three_pass_meta (example_world (warm_window three_pass_meta)));
    reflexivity.
Defined.

(** X19: a full run that follows a probe computation with the same
    metadata takes over the probe's parameters.  Starting from a
    potential that is not ready, with kernels that keep the metadata,
    the probe thread stores the parameters it computed with all three
    saving flags off; the potential stage of the full run then finds the
    potential ready, runs no potential kernel, and continues on exactly
    those parameters, so the first pass of the full run runs with
    save4DOutput, savePotentialSlices and saveDPC_CoM off whatever the
    thread's metadata asks for. *)
Theorem X19_full_run_takes_over_probe_parameters {T : Type} {pfp : PFP T}
    (C : @Collaborators T) (tmeta : Metadata) (w : World) :
  potentialReady (parent w) = false ->
  getMetadata (parent w) = tmeta ->
  meta_eqb tmeta tmeta = true ->
  (forall p, meta (PRISM01_calcPotential C p) = meta p) ->
  (forall p, meta (PRISM02_calcSMatrix C p) = meta p) ->
  (ProbeThread_stages C tmeta w).1
  = PRISM02_calcSMatrix C
      (PRISM01_calcPotential C
         (set_meta (no_saving tmeta) (new_Parameters C tmeta)))
  /\ (potential_stage C (set_fpFlag 0 (new_Parameters C tmeta))
        (ProbeThread_stages C tmeta w).2).1
     = (ProbeThread_stages C tmeta w).1
  /\ meta (ProbeThread_stages C tmeta w).1 = no_saving tmeta
  /\ kernel_runs Potential
       (trace (potential_stage C (set_fpFlag 0 (new_Parameters C tmeta))
                 (ProbeThread_stages C tmeta w).2).2)
     = kernel_runs Potential (trace (ProbeThread_stages C tmeta w).2).
Proof. apply full_run_after_ProbeThread. Qed.

Lemma X19_witness :
  save4DOutput example_meta = true
  /\ save4DOutput
       (meta (potential_stage toy_kernels
                (set_fpFlag 0 (new_Parameters toy_kernels example_meta))
                (ProbeThread_stages toy_kernels example_meta cold_world).2).1)
     = false.
Proof.
  destruct (X19_full_run_takes_over_probe_parameters toy_kernels example_meta
              cold_world) as (_ & Hsame & Hmeta & _);
    try reflexivity.
  split; [reflexivity|]. by rewrite Hsame, Hmeta.
Defined.

(** * Properties of the successive writes and of the stitcher's failures *)
Section MoreIOFacts.
Context {T : Type} {pfp : PFP T}.

Lemma for_loop_fails_inv {St : Type} (Inv : nat -> St -> Prop)
    (body : nat -> St -> option St) (i : nat) :
  (forall j s s', body j s = Some s' -> Inv j s -> Inv (S j) s') ->
  (forall s, Inv i s -> body i s = None) ->
  forall n i0 s, (i0 <= i < i0 + n)%nat -> Inv i0 s ->
    for_loop n i0 body s = None.
Proof.
  intros Hstep Hfail. induction n as [|n IH]; intros i0 s Hi Hinv; [lia|].
  simpl. destruct (decide (i0 = i)) as [->|?]; [by rewrite Hfail|].
  destruct (body i0 s) as [s'|] eqn:Hb; [|done].
  apply IH; [lia|]. by eapply Hstep.
Qed.

Lemma for_loop_fails_at {St : Type} (body : nat -> St -> option St) (i : nat) :
  (forall s, body i s = None) ->
  forall n i0 s, (i0 <= i < i0 + n)%nat -> for_loop n i0 body s = None.
Proof.
  intros Hfail n i0 s Hi.
  apply (for_loop_fails_inv (fun _ _ => True) body i); done.
Qed.

(** The division loop, exactly. *)
Lemma divide_buffer_exact (total : N) (numFP : T) (buffer : list T) :
  total <= INT_MAX ->
  (N.to_nat total <= length buffer)%nat ->
  divide_buffer total numFP buffer
  = Some (((fun v => pdiv v numFP) <$> take (N.to_nat total) buffer)
          ++ drop (N.to_nat total) buffer).
Proof.
  intros Hmax Hlen.
  destruct (for_int_invariant
    (fun i (b : list T) =>
       b = ((fun v => pdiv v numFP) <$> take i buffer) ++ drop i buffer)
    (fun i b => v ← b !! i; Some (<[i := pdiv v numFP]> b))
    total buffer Hmax) as (b' & Hrun & Hb').
  - by rewrite take_0, drop_0.
  - intros i b Hi ->.
    destruct (lookup_lt_is_Some_2 buffer i) as [v Hv]; [lia|].
    assert (length ((fun v => pdiv v numFP) <$> take i buffer) = i) as Hl.
    { rewrite length_fmap, length_take. lia. }
    exists (((fun v => pdiv v numFP) <$> take (S i) buffer)
            ++ drop (S i) buffer).
    split; [|done].
    rewrite lookup_app_r by lia. rewrite Hl, Nat.sub_diag.
    rewrite lookup_drop, Nat.add_0_r, Hv. simpl. f_equal.
    rewrite insert_app_r_alt by lia. rewrite Hl, Nat.sub_diag.
    rewrite (take_S_r _ _ v Hv), fmap_app, <- app_assoc. f_equal.
    rewrite (drop_S _ v i Hv). done.
  - unfold divide_buffer. by rewrite Hrun, Hb'.
Qed.

Lemma divide_buffer_short (total : N) (numFP : T) (buffer : list T) :
  (length buffer < N.to_nat total)%nat ->
  divide_buffer total numFP buffer = None.
Proof.
  intros Hlen. unfold divide_buffer, for_int, for_range.
  destruct (total <=? INT_MAX); [|done]. rewrite Nat.sub_0_r.
  apply (for_loop_fails_inv
           (fun _ (b : list T) => length b = length buffer) _
           (length buffer)); [| |lia|done].
  - intros j s s' Hb Hs. destruct (s !! j) as [v|]; [|done].
    simpl in Hb. inversion Hb; subst. by rewrite length_insert.
  - intros s Hs. rewrite lookup_ge_None_2; [done|lia].
Qed.

Lemma wrap64_product (d0 d1 d2 d3 : N) :
  d0 * d1 * d2 * d3 < 2 ^ 64 ->
  wrap64 (wrap64 (wrap64 (d0 * d1) * d2) * d3) = d0 * d1 * d2 * d3.
Proof.
  intros H. unfold wrap64.
  rewrite N.Div0.mul_mod_idemp_l, <- N.mul_assoc, N.Div0.mul_mod_idemp_l.
  rewrite N.mul_assoc. by apply N.mod_small.
Qed.

End MoreIOFacts.

Section WriteFacts.
Context {T : Type} {pfp : PFP T}.

Lemma all_defined (l : list (option T)) :
  (forall k, (k < length l)%nat -> exists v, l !! k = Some (Some v)) ->
  exists l', l = Some <$> l'.
Proof.
  induction l as [|x l IH]; intros H; [by exists []|].
  destruct (H 0%nat) as [v Hv]; [simpl; lia|]. simpl in Hv.
  inversion Hv; subst x.
  destruct IH as [l' ->].
  - intros k Hk. apply (H (S k)). simpl. lia.
  - by exists (v :: l').
Qed.

Lemma writeDatacube4D_divides (prior buffer : list T) (d0 d1 d2 d3 : N)
    (offset : list N) (numFP : T) :
  0 < d0 -> 0 < d1 ->
  d2 <= INT_MAX -> d3 <= INT_MAX ->
  d0 * d1 * d2 * d3 <= INT_MAX ->
  (N.to_nat (d0 * d1 * d2 * d3) <= length buffer)%nat ->
  length prior = N.to_nat (d0 * d1 * d2 * d3) ->
  exists written evs,
    writeDatacube4D (Some <$> prior) buffer [d0; d1; d2; d3] offset numFP
    = Some (((fun v => pdiv v numFP)
               <$> take (N.to_nat (d0 * d1 * d2 * d3)) buffer)
            ++ drop (N.to_nat (d0 * d1 * d2 * d3)) buffer,
            written, evs).
Proof.
  intros H0 H1 H2 H3 HP Hbuf Hprior.
  destruct (writeDatacube4D_spec prior buffer d0 d1 d2 d3 offset numFP
              H0 H1 H2 H3 HP Hbuf Hprior) as (b' & written & Hrun & _).
  exists written. eexists. rewrite Hrun. do 3 f_equal.
  unfold writeDatacube4D in Hrun. simpl in Hrun.
  rewrite total_no_wrap in Hrun by done.
  rewrite divide_buffer_exact in Hrun by done. simpl in Hrun.
  destruct (restride _ _ _ _) as [fb|]; [|done]. simpl in Hrun.
  destruct (decide _); [|done]. simpl in Hrun.
  destruct (add_read _ _ _) as [wr|]; [|done]. simpl in Hrun.
  by inversion Hrun.
Qed.

Lemma writeDatacube4D_short (region : list (option T)) (buffer : list T)
    (d0 d1 d2 d3 : N) (offset : list N) (numFP : T) :
  d0 * d1 * d2 * d3 < 2 ^ 64 ->
  (length buffer < N.to_nat (d0 * d1 * d2 * d3))%nat ->
  writeDatacube4D region buffer [d0; d1; d2; d3] offset numFP = None.
Proof.
  intros Hw Hlen. unfold writeDatacube4D. simpl.
  rewrite wrap64_product by done.
  by rewrite divide_buffer_short.
Qed.

Lemma write_passes_spec (d2 d3 : N) (offset : list N) (numFP : T)
    (buffers : list (list T)) : forall prior : list T,
  d2 <= INT_MAX -> d3 <= INT_MAX -> d2 * d3 <= INT_MAX ->
  length prior = N.to_nat (d2 * d3) ->
  Forall (fun b => (N.to_nat (d2 * d3) <= length b)%nat) buffers ->
  exists final : list T,
    write_passes (Some <$> prior) buffers [1; 1; d2; d3] offset numFP
    = Some (Some <$> final)
    /\ length final = N.to_nat (d2 * d3)
    /\ forall i j r vs,
         (i < N.to_nat d2)%nat -> (j < N.to_nat d3)%nat ->
         prior !! (i * N.to_nat d3 + j)%nat = Some r ->
         Forall2 (fun b v => b !! (j * N.to_nat d2 + i)%nat = Some v)
           buffers vs ->
         final !! (i * N.to_nat d3 + j)%nat
         = Some (foldl (fun acc v => padd (pdiv v numFP) acc) r vs).
Proof.
  induction buffers as [|b rest IH]; intros prior H2 H3 HP Hprior Hbufs.
  - exists prior. split; [done|]. split; [done|].
    intros i j r vs _ _ Hr Hvs. inversion Hvs; subst. done.
  - apply Forall_cons in Hbufs as [Hb Hrest].
    assert (1 * 1 * d2 * d3 = d2 * d3) as Hone by (by rewrite !N.mul_1_l).
    destruct (writeDatacube4D_spec prior b 1 1 d2 d3 offset numFP)
      as (b' & written & Hrun & Hlw & Hcells & _);
      try done; try (rewrite Hone; done).
    rewrite Hone in Hlw.
    assert (N.to_nat (d2 * d3) = (N.to_nat d2 * N.to_nat d3)%nat) as Hmul
      by apply N2Nat.inj_mul.
    destruct (all_defined written) as [w' ->].
    { intros k Hk.
      apply (plane_cells_defined prior b written d2 d3 numFP);
        rewrite <- ?Hmul; [exact Hb|by rewrite Hprior|exact Hcells|].
      unfold cell in *. lia. }
    rewrite length_fmap in Hlw.
    destruct (IH w' H2 H3 HP Hlw Hrest) as (final & Hfin & Hlf & Hval).
    exists final. split.
    { simpl. rewrite Hrun. simpl. exact Hfin. }
    split; [done|].
    intros i j r vs Hi Hj Hr Hvs.
    apply Forall2_cons_inv_l in Hvs as (v & vs' & Hv & Hvs' & ->).
    simpl. apply Hval; [done|done| |done].
    pose proof (Hcells i j v r Hi Hj Hv Hr) as Hc.
    rewrite list_lookup_fmap in Hc.
    destruct (w' !! (i * N.to_nat d3 + j)%nat); simpl in Hc; congruence.
Qed.

End WriteFacts.

Section StitchFailures.
Context {T : Type} {pfp : PFP T}.
Implicit Types file : @H5File T.

Lemma map_source_no_tuple file datasets (indices : list (list N)) rank
    new_rank mdims_ind i st :
  indices !! i = None ->
  map_source file datasets indices rank new_rank mdims_ind i st = None.
Proof.
  intros H. unfold map_source.
  destruct (datasets !! i); [|done]. simpl.
  destruct (getSpace file _); [|done]. simpl. by rewrite H.
Qed.

Lemma map_source_not_open file datasets (indices : list (list N)) rank
    new_rank mdims_ind i ds st :
  datasets !! i = Some ds -> getSpace file ds = None ->
  map_source file datasets indices rank new_rank mdims_ind i st = None.
Proof. intros H1 H2. unfold map_source. rewrite H1. simpl. by rewrite H2. Qed.

Lemma writeVirtualDataSet_map_fails file group dsetName datasets
    (indices : list (list N)) (i : nat) :
  (i < length datasets)%nat ->
  (forall rank new_rank mdims_ind st,
     map_source file datasets indices rank new_rank mdims_ind i st = None) ->
  writeVirtualDataSet file group dsetName datasets indices = None.
Proof.
  intros Hi Hfail. unfold writeVirtualDataSet.
  destruct (indices !! 0%nat) as [first|]; [|done]. simpl.
  destruct (max_indices _ _) as [mx|]; [|done]. simpl.
  destruct (datasets !! 0%nat) as [sample|]; [|done]. simpl.
  destruct (getSpace file sample) as [dims_out|]; [|done]. simpl.
  unfold for_int, for_range.
  destruct (N.of_nat (length datasets) <=? INT_MAX); [|done].
  rewrite Nat.sub_0_r, Nat2N.id.
  rewrite (for_loop_fails_at _ i); [done| |lia].
  intros st. apply Hfail.
Qed.

(** The ways in which the stitcher fails. *)
Lemma writeVirtualDataSet_failures file group dsetName datasets
    (indices : list (list N)) :
  indices = []
  \/ datasets = []
  \/ (length indices < length datasets)%nat
  \/ (exists ds, ds ∈ datasets /\ getSpace file ds = None)
  \/ is_Some (objects file !! (group +:+ "/" +:+ dsetName)) ->
  writeVirtualDataSet file group dsetName datasets indices = None.
Proof.
  intros [-> | [-> | [Hlen | [(ds & Hin & Hds) | [node Hnode]]]]].
  - done.
  - unfold writeVirtualDataSet.
    destruct (indices !! 0%nat) as [first|]; [|done]. simpl.
    by destruct (max_indices _ _).
  - apply (writeVirtualDataSet_map_fails _ _ _ _ _ (length indices)); [done|].
    intros. apply map_source_no_tuple. by apply lookup_ge_None_2.
  - apply list_elem_of_lookup_1 in Hin as [i Hi].
    apply (writeVirtualDataSet_map_fails _ _ _ _ _ i).
    + by eapply lookup_lt_Some.
    + intros. by eapply map_source_not_open.
  - unfold writeVirtualDataSet.
    destruct (indices !! 0%nat) as [first|]; [|done]. simpl.
    destruct (max_indices _ _) as [mx|]; [|done]. simpl.
    destruct (datasets !! 0%nat) as [sample|]; [|done]. simpl.
    destruct (getSpace file sample) as [dims_out|]; [|done]. simpl.
    destruct (for_int _ _ _) as [st|]; [|done]. simpl.
    by rewrite Hnode.
Qed.

End StitchFailures.

Section CubeDims.
Context {T : Type} {pfp : PFP T}.

Lemma read_window_front (q : list T) (n : N) :
  read_window q 0 n
  = if decide (N.to_nat n <= length q)%nat
    then Some (take (N.to_nat n) q) else None.
Proof.
  unfold read_window. destruct (decide (0 <= 0)%Z) as [_|?]; [|lia].
  change (Z.to_nat 0) with 0%nat. rewrite drop_0.
  by repeat destruct (decide _).
Qed.

Lemma setup4DOutput_dims_cropped (fftshift : list T -> list T)
    (pars : @Parameters T) :
  crop4DOutput (meta pars) = true ->
  let qMax := pdiv (crop4Damax (meta pars)) (lambda pars) in
  let shifted := Algorithm_eqb (algorithm (meta pars)) Multislice in
  setup4DOutput_dims fftshift pars
  = dim3 ← read_window (if shifted then fftshift (qx pars) else qx pars) 0
             (wrap64 (count_below qMax (qx pars) 0 * 2));
    dim4 ← read_window (if shifted then fftshift (qy pars) else qy pars) 0
             (wrap64 (count_below qMax (qy pars) 0 * 2));
    Some (dim3, dim4).
Proof.
  intros Hcrop. unfold setup4DOutput_dims, setup4DOutput. rewrite Hcrop.
  reflexivity.
Qed.

End CubeDims.

(** * Further properties: the accumulating write, the stitcher and the
      dimension vectors *)

(** X20: [writeDatacube4D] divides the caller's buffer in place: after a
    call that succeeds, the first d0 * d1 * d2 * d3 cells of the buffer
    hold the values divided by numFP and the cells behind them are
    untouched. *)
Theorem X20_writeDatacube4D_divides_in_place {T : Type} {pfp : PFP T}
    (prior buffer : list T) (d0 d1 d2 d3 : N) (offset : list N)
    (numFP : T) :
  0 < d0 -> 0 < d1 ->
  d2 <= INT_MAX -> d3 <= INT_MAX ->
  d0 * d1 * d2 * d3 <= INT_MAX ->
  (N.to_nat (d0 * d1 * d2 * d3) <= length buffer)%nat ->
  length prior = N.to_nat (d0 * d1 * d2 * d3) ->
  exists written evs,
    writeDatacube4D (Some <$> prior) buffer [d0; d1; d2; d3] offset numFP
    = Some (((fun v => pdiv v numFP)
               <$> take (N.to_nat (d0 * d1 * d2 * d3)) buffer)
            ++ drop (N.to_nat (d0 * d1 * d2 * d3)) buffer,
            written, evs).
Proof. apply writeDatacube4D_divides. Qed.

Lemma X20_witness :
  exists written evs,
    writeDatacube4D (Some <$> [1; 2]%Q) [10; 20; 30]%Q [1; 1; 2; 1] [0; 0; 0; 0]
      (2 # 1)%Q
    = Some ([10 / (2 # 1); 20 / (2 # 1); 30]%Q, written, evs).
Proof.
  refine (X20_writeDatacube4D_divides_in_place [1; 2]%Q [10; 20; 30]%Q
            1 1 2 1 [0; 0; 0; 0] (2 # 1)%Q _ _ _ _ _ _ _);
    try reflexivity; try (vm_compute; congruence); simpl; lia.
Defined.

(** X21: successive writes of one scan position accumulate.  Writing
    the buffers of the passes one after the other onto the same
    hyperslab succeeds, every cell stays defined, and cell (i, j) ends
    up as the prior content plus, pass by pass, the transposed buffer
    value divided by numFP, added in that order. *)
Theorem X21_successive_writes_accumulate {T : Type} {pfp : PFP T}
    (d2 d3 : N) (offset : list N) (numFP : T)
    (buffers : list (list T)) (prior : list T) :
  d2 <= INT_MAX -> d3 <= INT_MAX -> d2 * d3 <= INT_MAX ->
  length prior = N.to_nat (d2 * d3) ->
  Forall (fun b => (N.to_nat (d2 * d3) <= length b)%nat) buffers ->
  exists final : list T,
    write_passes (Some <$> prior) buffers [1; 1; d2; d3] offset numFP
    = Some (Some <$> final)
    /\ length final = N.to_nat (d2 * d3)
    /\ forall i j r vs,
         (i < N.to_nat d2)%nat -> (j < N.to_nat d3)%nat ->
         prior !! (i * N.to_nat d3 + j)%nat = Some r ->
         Forall2 (fun b v => b !! (j * N.to_nat d2 + i)%nat = Some v)
           buffers vs ->
         final !! (i * N.to_nat d3 + j)%nat
         = Some (foldl (fun acc v => padd (pdiv v numFP) acc) r vs).
Proof. intros. by apply write_passes_spec. Qed.

Lemma X21_witness :
  exists final : list Q,
    write_passes (Some <$> plane_prior) [plane_buffer; plane_buffer]
      [1; 1; 2; 3] [0; 0; 0; 0] (2 # 1)%Q
    = Some (Some <$> final)
    /\ final !! 1%nat
       = Some (30 / (2 # 1) + (30 / (2 # 1) + 2))%Q.
Proof.
  destruct (X21_successive_writes_accumulate 2 3 [0; 0; 0; 0] (2 # 1)%Q
              [plane_buffer; plane_buffer] plane_prior)
    as (final & Hrun & _ & Hval).
  - vm_compute. congruence.
  - vm_compute. congruence.
  - vm_compute. congruence.
  - reflexivity.
  - repeat constructor; simpl; lia.
  - exists final. split; [exact Hrun|].
    apply (Hval 0%nat 1%nat 2%Q [30; 30]%Q); [simpl; lia|simpl; lia|done|].
    repeat constructor.
Defined.

(** X22: a buffer shorter than the region is read past its end: the
    call is not defined, whatever the region holds. *)
Theorem X22_writeDatacube4D_short_buffer {T : Type} {pfp : PFP T}
    (region : list (option T)) (buffer : list T) (d0 d1 d2 d3 : N)
    (offset : list N) (numFP : T) :
  d0 * d1 * d2 * d3 < 2 ^ 64 ->
  (length buffer < N.to_nat (d0 * d1 * d2 * d3))%nat ->
  writeDatacube4D region buffer [d0; d1; d2; d3] offset numFP = None.
Proof. apply writeDatacube4D_short. Qed.

Lemma X22_witness :
  writeDatacube4D (Some <$> plane_prior) [10; 20]%Q [1; 1; 2; 3]
    [0; 0; 0; 0] (2 # 1)%Q = None.
Proof.
  apply (X22_writeDatacube4D_short_buffer (Some <$> plane_prior) [10; 20]%Q
           1 1 2 3 [0; 0; 0; 0] (2 # 1)%Q).
  - reflexivity.
  - simpl. lia.
Defined.

(** X23: the stitcher produces nothing when there is no index tuple,
    when there is no source, when there are fewer index tuples than
    sources, when one of the handles is not an open dataset, or when the
    name of the new dataset is taken in the group. *)
Theorem X23_writeVirtualDataSet_failures {T : Type} {pfp : PFP T}
    (file : @H5File T) (group dsetName : string) (datasets : list string)
    (indices : list (list N)) :
  indices = []
  \/ datasets = []
  \/ (length indices < length datasets)%nat
  \/ (exists ds, ds ∈ datasets /\ getSpace file ds = None)
  \/ is_Some (objects file !! (group +:+ "/" +:+ dsetName)) ->
  writeVirtualDataSet file group dsetName datasets indices = None.
Proof. apply writeVirtualDataSet_failures. Qed.

Lemma X23_witness :
  writeVirtualDataSet depth_file "/supergroups/vd_depth_series" "supergroup"
    depth_handles (depthSeries_indices 3) = None.
Proof.
  apply (X23_writeVirtualDataSet_failures depth_file
           "/supergroups/vd_depth_series" "supergroup" depth_handles
           (depthSeries_indices 3)).
  right. right. left. simpl. lia.
Defined.

(** X24: the stitcher does not look for overlapping targets.  When the
    sources are open datasets with as many elements as the first one,
    each with its index tuple (of values below 2^64 - 1), two different
    sources that carry the same index tuple are both mapped, whole, onto
    the same hyperslab of the virtual dataset, and the stitch
    succeeds. *)
Theorem X24_stitch_accepts_equal_index_tuples {T : Type} {pfp : PFP T}
    (file : @H5File T) (group dsetName : string)
    (datasets : list string) (indices : list (list N))
    (ds0 : string) (e : list N) (m i j : nat) (dsi dsj : string)
    (t : list N) :
  datasets !! 0%nat = Some ds0 ->
  getSpace file ds0 = Some e ->
  length indices = length datasets ->
  Forall (fun t => length t = m) indices ->
  Forall (Forall (fun x => x + 1 < 2 ^ 64)) indices ->
  Forall (fun ds => exists sp, getSpace file ds = Some sp
                               /\ npoints sp = npoints e) datasets ->
  N.of_nat (length datasets) <= INT_MAX ->
  N.of_nat (length e) + N.of_nat m <= INT_MAX ->
  objects file !! (group +:+ "/" +:+ dsetName)%string = None ->
  i <> j ->
  datasets !! i = Some dsi -> datasets !! j = Some dsj ->
  indices !! i = Some t -> indices !! j = Some t ->
  exists file' dims maps mi mj,
    writeVirtualDataSet file group dsetName datasets indices = Some file'
    /\ objects file' !! (group +:+ "/" +:+ dsetName)%string
       = Some (H5Virtual dims maps)
    /\ maps !! i = Some mi /\ maps !! j = Some mj
    /\ vm_src_path mi = dsi /\ vm_src_path mj = dsj
    /\ vm_start mi = vm_start mj /\ vm_count mi = vm_count mj.
Proof.
  intros Hds0 He Hlen Htup _ Hsp Hn Hr Hfree Hij Hi Hj Hti Htj.
  destruct (writeVirtualDataSet_spec file group dsetName datasets indices
              ds0 e m Hds0 He Hlen Htup Hsp Hn Hr Hfree)
    as (mx & maps & Hrun & _ & _ & _ & Hmaps).
  rewrite list.Forall_forall in Hsp.
  destruct (Hsp dsi) as (spi & Hspi & _); [by eapply list_elem_of_lookup_2|].
  destruct (Hsp dsj) as (spj & Hspj & _); [by eapply list_elem_of_lookup_2|].
  eexists _, _, maps, _, _. split; [exact Hrun|]. simpl.
  split; [by rewrite lookup_insert_eq|].
  split; [exact (Hmaps i dsi t spi Hi Hti Hspi)|].
  split; [exact (Hmaps j dsj t spj Hj Htj Hspj)|]. done.
Qed.

Lemma X24_witness :
  exists file' dims maps mi mj,
    writeVirtualDataSet depth_file "/supergroups/vd_depth_series" "supergroup"
      depth_handles [[0]; [1]; [1]; [2]] = Some file'
    /\ objects file' !! "/supergroups/vd_depth_series/supergroup"
       = Some (H5Virtual dims maps)
    /\ maps !! 1%nat = Some mi /\ maps !! 2%nat = Some mj
    /\ vm_src_path mi = "/realslices/virtual_detector_depth0001"
    /\ vm_src_path mj = "/realslices/virtual_detector_depth0002"
    /\ vm_start mi = vm_start mj /\ vm_count mi = vm_count mj.
Proof.
  refine (X24_stitch_accepts_equal_index_tuples depth_file
            "/supergroups/vd_depth_series" "supergroup" depth_handles
            [[0]; [1]; [1]; [2]] "/realslices/virtual_detector_depth0000"
            [8; 8] 1 1 2 "/realslices/virtual_detector_depth0001"
            "/realslices/virtual_detector_depth0002" [1]
            _ _ _ _ _ _ _ _ _ _ _ _ _ _);
    try reflexivity; try (repeat constructor; done);
    try (repeat constructor; by eexists);
    try (vm_compute; congruence).
Defined.

(** X25: with cropping on, [setup4DOutput] writes as [dim3] and [dim4]
    the first 2 * count samples of the frequency axes, where count is the
    number of leading samples below the cutoff.  When more than half of
    the samples of the first axis lie below the cutoff, that read runs
    past the end of the axis; for an algorithm other than Multislice and
    counts of at most half the axes, the vectors are the first
    2 * count samples, which include the samples that follow the
    counted ones. *)
Theorem X25_cropped_dimension_vectors {T : Type} {pfp : PFP T}
    (fftshift : list T -> list T) (pars : @Parameters T) (cx cy : N) :
  crop4DOutput (meta pars) = true ->
  count_below (pdiv (crop4Damax (meta pars)) (lambda pars)) (qx pars) 0 = cx ->
  count_below (pdiv (crop4Damax (meta pars)) (lambda pars)) (qy pars) 0 = cy ->
  cx * 2 < 2 ^ 64 -> cy * 2 < 2 ^ 64 ->
  length (fftshift (qx pars)) = length (qx pars) ->
  ((length (qx pars) < N.to_nat (cx * 2))%nat ->
     setup4DOutput_dims fftshift pars = None)
  /\ (algorithm (meta pars) <> Multislice ->
      (N.to_nat (cx * 2) <= length (qx pars))%nat ->
      (N.to_nat (cy * 2) <= length (qy pars))%nat ->
      setup4DOutput_dims fftshift pars
      = Some (take (N.to_nat (cx * 2)) (qx pars),
              take (N.to_nat (cy * 2)) (qy pars))).
Proof.
  intros Hcrop Hcx Hcy Hwx Hwy Hshift.
  rewrite (setup4DOutput_dims_cropped fftshift pars Hcrop). cbv zeta.
  rewrite Hcx, Hcy, !wrap64_small by done. rewrite !read_window_front.
  split.
  - intros Hover.
    destruct (Algorithm_eqb (algorithm (meta pars)) Multislice).
    + rewrite Hshift.
      destruct (decide (N.to_nat (cx * 2) <= length (qx pars))%nat)
        as [?|_]; [lia|done].
    + destruct (decide (N.to_nat (cx * 2) <= length (qx pars))%nat)
        as [?|_]; [lia|done].
  - intros Halg Hx Hy.
    assert (Algorithm_eqb (algorithm (meta pars)) Multislice = false) as ->.
    { by destruct (algorithm (meta pars)). }
    destruct (decide (N.to_nat (cx * 2) <= length (qx pars))%nat)
      as [_|?]; [|lia].
    destruct (decide (N.to_nat (cy * 2) <= length (qy pars))%nat)
      as [_|?]; [|lia].
    done.
Qed.

Lemma X25_witness :
  setup4DOutput_dims (fun q => q) cropped_pars = None.
Proof.
  refine (proj1 (X25_cropped_dimension_vectors (fun q => q) cropped_pars 5 5
                   eq_refl eq_refl eq_refl eq_refl eq_refl eq_refl) _).
  simpl. lia.
Defined.
